(** * HelpMyScheduling: the draft reconciliation core of [bot.js]

    A shallow embedding of the draft/session state machine of the
    scheduling bot, with its conflict detector, reminder scheduler and
    clock-string normaliser, and the properties the specification states
    about them.

    Conventions.
    - A JavaScript object used as a dictionary ([draft], [updates], the
      [sessions] and [reminderJobs] maps) is a [gmap].
    - Field values coming out of [parseScheduleMessage] are [null] or a
      string; a missing key reads as [undefined].
    - Instants are integers (milliseconds since the epoch, as [Date.now()]
      returns them). *)

From Stdlib Require Import ZArith Lia Ascii String.
From stdpp Require Import gmap strings list fin_maps pretty sorting.


(** ** Values and plain objects *)

Inductive value :=
| VNull
| VStr (s : string).

#[global] Instance value_eq_dec : EqDecision value.
Proof. solve_decision. Defined.

(** A plain object: its own enumerable properties. *)
Abbreviation obj := (gmap string value).

(** The property names every plain object inherits from [Object.prototype]
    (Node.js).  The operator [k in o] and the read [o[k]] see them. *)
Definition ObjectPrototype : list string :=
  [ "constructor"; "__defineGetter__"; "__defineSetter__"; "hasOwnProperty";
    "__lookupGetter__"; "__lookupSetter__"; "isPrototypeOf";
    "propertyIsEnumerable"; "toString"; "valueOf"; "__proto__";
    "toLocaleString" ].

Definition inherited (k : string) : bool := bool_decide (k ∈ ObjectPrototype).

(** The result of the read [o[k]]. *)
Inductive slot :=
| SUndefined
| SBuiltin (k : string)
| SValue (v : value).

#[global] Instance slot_eq_dec : EqDecision slot.
Proof. solve_decision. Defined.

(** [o[k]] / [o.k] / [o?.k] on an object *)
Definition get (o : obj) (k : string) : slot :=
  match o !! k with
  | Some v => SValue v
  | None => if inherited k then SBuiltin k else SUndefined
  end.

(** [k in o] *)
Definition has_property (o : obj) (k : string) : bool :=
  bool_decide (is_Some (o !! k)) || inherited k.

(** [!!x]: [undefined], [null] and the empty string are falsy. *)
Definition truthy (x : slot) : bool :=
  match x with
  | SValue (VStr s) => negb (bool_decide (s = ""))
  | SValue VNull => false
  | SBuiltin _ => true
  | SUndefined => false
  end.

(** [a !== b] *)
Definition strict_ne (a b : slot) : bool := negb (bool_decide (a = b)).

(** [o[k] = v] for a string [v].  Every inherited name is a writable data
    property, so the assignment creates an own property, except for
    [__proto__], an accessor whose setter ignores a primitive. *)
Definition put (o : obj) (k : string) (v : value) : obj :=
  if bool_decide (k = "__proto__") && negb (bool_decide (is_Some (o !! k)))
  then o
  else <[k := v]> o.

(** [Object.entries(o)]; the enumeration order plays no role below, since
    the keys of an object are pairwise distinct. *)
Definition entries (o : obj) : list (string * value) := map_to_list o.

(** ** Drafts *)

Definition makeEmptyDraft : obj :=
  {[ "task" := VNull; "date" := VNull; "start_time" := VNull;
     "end_time" := VNull; "location" := VNull; "type" := VNull ]}.

Definition draftFields : gset string :=
  {[ "task"; "date"; "start_time"; "end_time"; "location"; "type" ]}.

Definition draftIsCompleteEnough (draft : obj) : bool :=
  truthy (get draft "task") && truthy (get draft "date").

(** [currentDraft?.f]: reading through a possibly missing draft. *)
Definition get_opt (o : option obj) (k : string) : slot :=
  match o with
  | Some d => get d k
  | None => SUndefined
  end.

Definition shouldStartNewDraftFromUpdate
    (currentDraft : option obj) (updates : obj) (overwriteIntent : bool) : bool :=
  if overwriteIntent then false
  else
    let newDate := get updates "date" in
    let hasDateAlready := truthy (get_opt currentDraft "date") in
    let hasOtherInfo :=
      truthy (get_opt currentDraft "task")
      || truthy (get_opt currentDraft "start_time")
      || truthy (get_opt currentDraft "location") in
    if truthy newDate && hasDateAlready && hasOtherInfo
       && strict_ne newDate (get_opt currentDraft "date")
    then true
    else if truthy (get updates "task")
            && truthy (get_opt currentDraft "task")
            && truthy (get_opt currentDraft "date")
            && strict_ne (get updates "task") (get_opt currentDraft "task")
    then true
    else false.

(** One turn of the loop of [mergeDraft]. *)
Definition mergeEntry (allowOverwrite : bool) (draft : obj) (kv : string * value) : obj :=
  let '(k, v) := kv in
  match v with
  | VNull => draft
  | VStr _ =>
      if negb (has_property draft k) then draft
      else if negb (truthy (get draft k)) then put draft k v
      else if allowOverwrite then put draft k v
      else draft
  end.

Definition mergeDraft (draft updates : obj) (overwriteIntent overwriteNext : bool) : obj :=
  let allowOverwrite := overwriteIntent || overwriteNext in
  foldl (mergeEntry allowOverwrite) draft (entries updates).

(** The [updates] object as [parseScheduleMessage] builds it, the only
    object the message handler passes to [mergeDraft]: the six fields, each
    [null] or a string. *)
Record fragment := {
  f_task : value;
  f_date : value;
  f_start_time : value;
  f_end_time : value;
  f_location : value;
  f_type : value
}.

Definition updatesOf (u : fragment) : obj :=
  {[ "task" := f_task u; "date" := f_date u; "start_time" := f_start_time u;
     "end_time" := f_end_time u; "location" := f_location u; "type" := f_type u ]}.

(** A run of non-destructive merges, as successive messages perform them. *)
Definition mergeAll (draft : obj) (fragments : list obj) : obj :=
  foldl (fun d u => mergeDraft d u false false) draft fragments.

(** ** Clock strings *)

(** Raw text handed to [normalizeTime] is a JavaScript string: a sequence
    of UTF-16 code units.  What it returns is plain ASCII. *)
Abbreviation jsstring := (list N).

(** The code units of an ASCII literal. *)
Definition units (s : string) : jsstring :=
  (λ a, Ascii.N_of_ascii a) <$> String.list_ascii_of_string s.

(** [WhiteSpace] and [LineTerminator] code units: what [trim] strips and
    what [\s] matches. *)
Definition isSpace (c : N) : bool :=
  bool_decide (c ∈ [9; 10; 11; 12; 13; 32; 160; 5760; 8232; 8233; 8239; 8287;
                     12288; 65279]%N)
  || ((8192 <=? c) && (c <=? 8202))%N.

(** [\d] *)
Definition isDigit (c : N) : bool := ((48 <=? c) && (c <=? 57))%N.

Definition digitVal (c : N) : N := (c - 48)%N.

Fixpoint trimStart (s : jsstring) : jsstring :=
  match s with
  | c :: r => if isSpace c then trimStart r else s
  | [] => []
  end.

Definition trimEnd (s : jsstring) : jsstring := rev (trimStart (rev s)).

Definition trim (s : jsstring) : jsstring := trimEnd (trimStart s).

(** [timeStr.replace(/\./g, ':')] *)
Definition replaceDots (s : jsstring) : jsstring :=
  (λ c, if (c =? 46)%N then 58%N else c) <$> s.

(** [/^(\d{1,2}):(\d{2})$/]: the two captures, read as numbers. *)
Definition match24 (s : jsstring) : option (N * N) :=
  match s with
  | [h1; c; m1; m2] =>
      if isDigit h1 && (c =? 58)%N && isDigit m1 && isDigit m2
      then Some (digitVal h1, 10 * digitVal m1 + digitVal m2)%N
      else None
  | [h1; h2; c; m1; m2] =>
      if isDigit h1 && isDigit h2 && (c =? 58)%N && isDigit m1 && isDigit m2
      then Some (10 * digitVal h1 + digitVal h2, 10 * digitVal m1 + digitVal m2)%N
      else None
  | _ => None
  end.

(** The pieces of [/^(\d{1,2})(?::(\d{2}))?\s*(am|pm)$/i].  Each greedy
    choice is forced: what follows an hour digit, a minutes group or a
    blank can never start with a digit or a colon again. *)
Definition takeHour (s : jsstring) : option (N * jsstring) :=
  match s with
  | h1 :: h2 :: r =>
      if isDigit h1 then
        if isDigit h2 then Some (10 * digitVal h1 + digitVal h2, r)%N
        else Some (digitVal h1, h2 :: r)
      else None
  | [h1] => if isDigit h1 then Some (digitVal h1, []) else None
  | [] => None
  end.

Definition takeMinutes (s : jsstring) : option N * jsstring :=
  match s with
  | c :: m1 :: m2 :: r =>
      if (c =? 58)%N && isDigit m1 && isDigit m2
      then (Some (10 * digitVal m1 + digitVal m2)%N, r)
      else (None, s)
  | _ => (None, s)
  end.

Inductive period := AM | PM.

(** [(am|pm)$] under the [i] flag, after [toLowerCase()] *)
Definition takePeriod (s : jsstring) : option period :=
  match s with
  | [a; m] =>
      if bool_decide (m = 109 ∨ m = 77)%N then
        if bool_decide (a = 97 ∨ a = 65)%N then Some AM
        else if bool_decide (a = 112 ∨ a = 80)%N then Some PM
        else None
      else None
  | _ => None
  end.

Definition match12 (s : jsstring) : option (N * option N * period) :=
  match takeHour s with
  | None => None
  | Some (hh, r) =>
      let '(mm, r') := takeMinutes r in
      match takePeriod (trimStart r') with
      | Some p => Some (hh, mm, p)
      | None => None
      end
  end.

(** [String(n).padStart(2, '0')] *)
Definition pad2 (n : N) : string :=
  if (n <? 10)%N then "0" +:+ pretty n else pretty n.

Definition hhmm (hh mm : N) : string := pad2 hh +:+ ":" +:+ pad2 mm.

Definition normalizeTime (t : jsstring) : option string :=
  match t with
  | [] => None
  | _ =>
      let timeStr := replaceDots (trim t) in
      let first :=
        match match24 timeStr with
        | Some (hh, mm) =>
            if ((hh <=? 23) && (mm <=? 59))%N then Some (hhmm hh mm) else None
        | None => None
        end in
      match first with
      | Some r => Some r
      | None =>
          match match12 timeStr with
          | Some (h, m, p) =>
              let mm := default 0%N m in
              let hh := match p with
                        | PM => if negb (h =? 12)%N then (h + 12)%N else h
                        | AM => if (h =? 12)%N then 0%N else h
                        end in
              if ((hh <=? 23) && (mm <=? 59))%N then Some (hhmm hh mm) else None
          | None => None
          end
      end
  end.

(** The older, shorter [normalizeTime] (second listing of the program). *)
Definition normalizeTime_v2 (t : jsstring) : option string :=
  match t with
  | [] => None
  | _ =>
      match match24 (trim t) with
      | None => None
      | Some (hh, mm) =>
          if ((23 <? hh) || (59 <? mm))%N then None else Some (hhmm hh mm)
      end
  end.

(** A canonical 24-hour clock string: two digits, a colon, two digits,
    hour below 24 and minute below 60. *)
Definition asciiDigit (a : ascii) : option N :=
  let c := Ascii.N_of_ascii a in
  if isDigit c then Some (digitVal c) else None.

Definition isCanonical (s : string) : bool :=
  match s with
  | String a (String b (String c (String d (String e EmptyString)))) =>
      match asciiDigit a, asciiDigit b, asciiDigit d, asciiDigit e with
      | Some x, Some y, Some z, Some w =>
          bool_decide (c = ":"%char)
          && (10 * x + y <=? 23)%N && (10 * z + w <=? 59)%N
      | _, _, _, _ => false
      end
  | _ => false
  end.

(** [Number(s)] on the text between the colons of a stored time; [None] is
    [NaN].  A run of decimal digits is its value and the empty string is 0,
    as in JavaScript.  Every other text is read as [NaN]; this is exact
    unless the text is a numeral of another form (sign, fraction, exponent,
    radix prefix, surrounding blanks), which [normalizeTime], the writer of
    every stored time, never produces. *)
Fixpoint digitsValue (acc : Z) (s : string) : option Z :=
  match s with
  | EmptyString => Some acc
  | String a r =>
      match asciiDigit a with
      | Some d => digitsValue (10 * acc + Z.of_N d) r
      | None => None
      end
  end.

Definition Number (s : string) : option Z := digitsValue 0 s.

(** [time.split(':')] *)
Fixpoint splitColon (cur : string) (s : string) : list string :=
  match s with
  | EmptyString => [cur]
  | String a r =>
      if bool_decide (a = ":"%char) then cur :: splitColon "" r
      else splitColon (cur +:+ String a "") r
  end.

(** [timeToMinutes]; [None] is [NaN] (a missing second component makes
    [m] undefined and the sum [NaN]). *)
Definition timeToMinutes (time : string) : option Z :=
  match splitColon "" time with
  | h :: m :: _ =>
      match Number h, Number m with
      | Some hv, Some mv => Some (hv * 60 + mv)%Z
      | _, _ => None
      end
  | _ => None
  end.

(** [a < b] on numbers: false as soon as one side is [NaN]. *)
Definition num_lt (a b : option Z) : bool :=
  match a, b with
  | Some x, Some y => bool_decide (x < y)%Z
  | _, _ => false
  end.

Definition num_add (a : option Z) (n : Z) : option Z := (λ x, x + n)%Z <$> a.

(** ** The relational store *)

(** A row of table [events]; [task] and [date] are [NOT NULL]. *)
Record event := {
  e_id : Z;
  e_chat_id : Z;
  e_task : string;
  e_date : string;
  e_start_time : option string;
  e_end_time : option string;
  e_location : option string;
  e_type : option string
}.

(** A row of table [school_timetable]; both times are [NOT NULL]. *)
Record class_entry := {
  c_id : Z;
  c_chat_id : Z;
  c_subject : string;
  c_day_of_week : Z;
  c_start_time : string;
  c_end_time : string;
  c_location : option string
}.

#[global] Instance event_eq_dec : EqDecision event.
Proof. solve_decision. Defined.

#[global] Instance class_entry_eq_dec : EqDecision class_entry.
Proof. solve_decision. Defined.

(** [events_seq] is the AUTOINCREMENT counter of [events]. *)
Record database := {
  events : list event;
  events_seq : Z;
  school_timetable : list class_entry
}.

(** Truthiness of a nullable text column or argument. *)
Definition nonEmpty (x : option string) : bool :=
  match x with
  | Some s => negb (bool_decide (s = ""))
  | None => false
  end.

(** [x || null] *)
Definition orNull (x : option string) : option string :=
  if nonEmpty x then x else None.

(** What a conflict item carries. *)
Inductive conflict :=
| ConflictEvent (e : event)
| ConflictClass (c : class_entry) (date : string).

Definition conflict_id (c : conflict) : Z :=
  match c with
  | ConflictEvent e => e_id e
  | ConflictClass c _ => c_id c
  end.

(** [ORDER BY start_time] *)
Definition by_start_time (a b : class_entry) : Prop :=
  Is_true (String.leb (c_start_time a) (c_start_time b)).

#[global] Instance by_start_time_dec : RelDecision by_start_time.
Proof. intros a b. unfold by_start_time. apply _. Defined.

(** Start and end of a candidate or stored window, in minutes. *)
Definition windowStart (start_time : string) : option Z := timeToMinutes start_time.

Definition windowEnd (start_time : string) (end_time : option string) : option Z :=
  match end_time with
  | Some e => if negb (bool_decide (e = "")) then timeToMinutes e
              else num_add (timeToMinutes start_time) 60
  | None => num_add (timeToMinutes start_time) 60
  end.

Section Conflicts.
(** [new Date(dateStr).getDay()]; [None] when the date does not parse. *)
Variable getDay : string → option Z.

Definition getSchoolTimetableForDate (db : database) (chatId : Z) (dateStr : string)
    : list class_entry :=
  match getDay dateStr with
  | Some dayOfWeek =>
      merge_sort by_start_time
        (filter (λ c, c_chat_id c = chatId ∧ c_day_of_week c = dayOfWeek)
                (school_timetable db))
  | None => []
  end.

Definition checkConflicts (db : database) (chatId : Z) (date : string)
    (startTime endTime : option string) : list conflict :=
  match startTime with
  | None => []
  | Some st =>
      if bool_decide (st = "") then []
      else
        let events :=
          filter (λ e, e_chat_id e = chatId ∧ e_date e = date
                       ∧ is_Some (e_start_time e)) (events db) in
        let schoolEntries := getSchoolTimetableForDate db chatId date in
        let newStart := windowStart st in
        let newEnd := windowEnd st endTime in
        let conflicts :=
          foldl (λ conflicts event,
                   let eventStart := windowStart (default "" (e_start_time event)) in
                   let eventEnd :=
                     windowEnd (default "" (e_start_time event)) (e_end_time event) in
                   if num_lt newStart eventEnd && num_lt eventStart newEnd
                   then conflicts ++ [ConflictEvent event]
                   else conflicts)
                [] events in
        foldl (λ conflicts entry,
                 let entryStart := timeToMinutes (c_start_time entry) in
                 let entryEnd := timeToMinutes (c_end_time entry) in
                 if num_lt newStart entryEnd && num_lt entryStart newEnd
                 then conflicts ++ [ConflictClass entry date]
                 else conflicts)
              conflicts schoolEntries
  end.
End Conflicts.

(** ** Reminders *)

Record job := {
  job_at : Z;
  job_chat : Z;
  job_label : string;
  job_event : event
}.

Definition reminderOffsets : list (Z * string) :=
  [ (24 * 60, "1 day"); (6 * 60, "6 hours"); (30, "30 minutes") ]%Z.

(** [`${event.id}-${offset.minutes}`] *)
Definition jobKey (eventId minutes : Z) : string :=
  pretty eventId +:+ "-" +:+ pretty minutes.

(** One turn of the loop of [scheduleReminder]: the reminder [offset]
    minutes before [eventDateTime] is registered when it lies after [now]. *)
Definition registerReminder (now : Z) (eventDateTime : option Z) (chatId : Z) (ev : event)
    (jobs : gmap string job) (offset : Z * string) : gmap string job :=
  let reminderTime := num_add eventDateTime (- (offset.1 * 60 * 1000)) in
  if num_lt (Some now) reminderTime
  then <[jobKey (e_id ev) offset.1 :=
           {| job_at := default 0%Z reminderTime; job_chat := chatId;
              job_label := offset.2; job_event := ev |}]> jobs
  else jobs.

Section Reminders.
(** [new Date(text).getTime()] for a date-time without zone, read as local
    time; [None] for an invalid date. *)
Variable dateTime : string → option Z.

Definition scheduleReminder (now : Z) (reminderJobs : gmap string job)
    (chatId : Z) (ev : event) : gmap string job :=
  match e_start_time ev with
  | None => reminderJobs
  | Some st =>
      if bool_decide (st = "") then reminderJobs
      else
        let eventDateTime := dateTime (e_date ev +:+ "T" +:+ st +:+ ":00") in
        foldl (registerReminder now eventDateTime chatId ev) reminderJobs reminderOffsets
  end.

End Reminders.

Definition cancelReminder (reminderJobs : gmap string job) (eventId : Z)
    : gmap string job :=
  foldl (λ jobs offset,
           match jobs !! jobKey eventId offset with
           | Some _ => delete (jobKey eventId offset) jobs
           | None => jobs
           end)
        reminderJobs [24 * 60; 6 * 60; 30]%Z.

(** ** Draft sessions *)

Definition DRAFT_TTL_MS : Z := 90 * 1000.
Definition CONFIRM_TTL_MS : Z := 5 * 60 * 1000.

Inductive draft_state := collecting | awaiting_confirm.

#[global] Instance draft_state_eq_dec : EqDecision draft_state.
Proof. solve_decision. Defined.

(** An element of [session.drafts]: [{id, draft, state, updatedAt, overwriteNext}] *)
Record draftObj := {
  d_id : string;
  d_draft : obj;
  d_state : draft_state;
  d_updatedAt : Z;
  d_overwriteNext : bool
}.

Record session := {
  drafts : list draftObj;
  updatedAt : Z;
  editingEventId : option Z;
  editingField : option string;
  addingClass : bool
}.

Definition set_drafts (s : session) (ds : list draftObj) : session :=
  {| drafts := ds; updatedAt := updatedAt s; editingEventId := editingEventId s;
     editingField := editingField s; addingClass := addingClass s |}.

Definition set_updatedAt (s : session) (t : Z) : session :=
  {| drafts := drafts s; updatedAt := t; editingEventId := editingEventId s;
     editingField := editingField s; addingClass := addingClass s |}.

Definition freshSession (now : Z) : session :=
  {| drafts := []; updatedAt := now; editingEventId := None;
     editingField := None; addingClass := false |}.

(** [getSession]: the map after the call, and the session it returns. *)
Definition getSession (now : Z) (sessions : gmap Z session) (chatId : Z)
    : gmap Z session * session :=
  match sessions !! chatId with
  | Some s => (sessions, s)
  | None => (<[chatId := freshSession now]> sessions, freshSession now)
  end.

Definition ttl (st : draft_state) : Z :=
  match st with
  | awaiting_confirm => CONFIRM_TTL_MS
  | collecting => DRAFT_TTL_MS
  end.

(** The predicate of the [filter] in [pruneExpiredDrafts]. *)
Definition fresh_at (t : Z) (d : draftObj) : Prop :=
  (t - d_updatedAt d <= ttl (d_state d))%Z.

#[global] Instance fresh_at_dec t d : Decision (fresh_at t d).
Proof. unfold fresh_at. apply _. Defined.

Definition pruneSession (t : Z) (s : session) : option session :=
  let s' := set_drafts s (filter (fresh_at t) (drafts s)) in
  if bool_decide (length (drafts s') = 0%nat)
     && bool_decide (t - updatedAt s' > DRAFT_TTL_MS)%Z
  then None
  else Some s'.

(** [pruneExpiredDrafts] at clock reading [t] *)
Definition pruneExpiredDrafts (t : Z) (sessions : gmap Z session) : gmap Z session :=
  omap (pruneSession t) sessions.

(** ** The draft-merge path of the message handler *)

Definition newDraftObj (now : Z) : draftObj :=
  {| d_id := pretty now; d_draft := makeEmptyDraft; d_state := collecting;
     d_updatedAt := now; d_overwriteNext := false |}.

(** Position of [[...drafts].reverse().find(d => d.state === 'collecting')]
    in [drafts]. *)
Fixpoint findActive (ds : list draftObj) : option nat :=
  match ds with
  | [] => None
  | d :: r =>
      match findActive r with
      | Some i => Some (S i)
      | None => if bool_decide (d_state d = collecting) then Some 0%nat else None
      end
  end.

Inductive reply :=
| Answer (text : string)
| AnswerPlain
| AskConfirm (draftId : string) (draft : obj)
| AskMissing (missing : list string) (draft : obj)
| ShowConflicts (draftId : string) (draft : obj) (conflicts : list conflict)
| ShowSaved (saved : event)
| ShowKeptBoth (saved : event)
| ShowReplaced (n : nat) (saved : event)
| AskCorrection (draft : obj)
| ShowDiscarded
| ShowCancelled (draftId : string) (draft : obj)
| MainMenu.

(** The drafts after the active draft has been located or created, and its
    position. *)
Definition locateActive (now : Z) (ds : list draftObj) : list draftObj * nat :=
  match findActive ds with
  | Some i => (ds, i)
  | None => (ds ++ [newDraftObj now], length ds)
  end.

(** The part of the handler that follows a successful parse of kind
    [updates]: locate, maybe fork, merge, check completeness.  Returns the
    session, the position of the draft that took the merge, and the reply. *)
Definition mergeUpdates (now : Z) (s : session) (updates : obj) (overwriteIntent : bool)
    : session * nat * reply :=
  let '(ds1, i1) := locateActive now (drafts s) in
  let cur := default (newDraftObj now) (ds1 !! i1) in
  let '(ds2, i2) :=
    if shouldStartNewDraftFromUpdate (Some (d_draft cur)) updates overwriteIntent
    then (ds1 ++ [newDraftObj now], length ds1)
    else (ds1, i1) in
  let draftObj0 := default (newDraftObj now) (ds2 !! i2) in
  let merged := mergeDraft (d_draft draftObj0) updates overwriteIntent
                           (d_overwriteNext draftObj0) in
  if draftIsCompleteEnough merged then
    let d' := {| d_id := d_id draftObj0; d_draft := merged; d_state := awaiting_confirm;
                 d_updatedAt := now; d_overwriteNext := false |} in
    (set_drafts s (<[i2 := d']> ds2), i2, AskConfirm (d_id draftObj0) merged)
  else
    let d' := {| d_id := d_id draftObj0; d_draft := merged; d_state := d_state draftObj0;
                 d_updatedAt := now; d_overwriteNext := false |} in
    let missing :=
      (if negb (truthy (get merged "task")) then ["title"] else [])
      ++ (if negb (truthy (get merged "date")) then ["date"] else []) in
    (set_drafts s (<[i2 := d']> ds2), i2, AskMissing missing merged).

(** A text message whose parse has kind [updates], from [getSession] on. *)
Definition onUpdatesMessage (now : Z) (sessions : gmap Z session) (chatId : Z)
    (updates : obj) (overwriteIntent : bool) : gmap Z session * reply :=
  let '(sessions1, s) := getSession now sessions chatId in
  let '(s', _, r) := mergeUpdates now (set_updatedAt s now) updates overwriteIntent in
  (<[chatId := s']> sessions1, r).

(** ** The draft buttons of the callback handler *)

Record bot_state := {
  sessions : gmap Z session;
  db : database;
  reminderJobs : gmap string job
}.

(** A field of a draft as a bound SQL text parameter: [null] and
    [undefined] bind as NULL. *)
Definition text (x : slot) : option string :=
  match x with
  | SValue (VStr s) => Some s
  | _ => None
  end.

(** [data.startsWith(p)] *)
Definition startsWith (p data : string) : bool := String.prefix p data.

(** [data.split(':')[1]], for [data] that holds a colon *)
Definition payloadId (data : string) : string :=
  nth 1 (splitColon "" data) "".

(** [session.drafts.find(x => String(x.id) === String(draftId))] with its
    position *)
Definition findDraft (ds : list draftObj) (draftId : string) : option (nat * draftObj) :=
  list_find (λ x, d_id x = draftId) ds.

(** [session.drafts.filter(d => String(d.id) !== String(draftId))] *)
Definition removeDraft (ds : list draftObj) (draftId : string) : list draftObj :=
  filter (λ d, d_id d ≠ draftId) ds.

Definition deleteRow (d : database) (chatId eventId : Z) : database :=
  {| events := filter (λ e, ¬ (e_id e = eventId ∧ e_chat_id e = chatId)) (events d);
     events_seq := events_seq d;
     school_timetable := school_timetable d |}.

Definition with_session (st : bot_state) (chatId : Z) (s : session) : bot_state :=
  {| sessions := <[chatId := s]> (sessions st); db := db st;
     reminderJobs := reminderJobs st |}.

Section Handlers.
Variable getDay : string → option Z.
Variable dateTime : string → option Z.

(** [addEventToDB]; [None] when the INSERT is rejected (a NULL title or
    date), which the caller's [catch] turns into an error answer. *)
Definition addEventToDB (now : Z) (st : bot_state) (chatId : Z) (ev : obj)
    : option (bot_state * event) :=
  match text (get ev "task"), text (get ev "date") with
  | Some task, Some date =>
      let lastID := (events_seq (db st) + 1)%Z in
      let newEvent :=
        {| e_id := lastID; e_chat_id := chatId; e_task := task; e_date := date;
           e_start_time := orNull (text (get ev "start_time"));
           e_end_time := orNull (text (get ev "end_time"));
           e_location := orNull (text (get ev "location"));
           e_type := orNull (text (get ev "type")) |} in
      let db' := {| events := events (db st) ++ [newEvent]; events_seq := lastID;
                    school_timetable := school_timetable (db st) |} in
      Some ({| sessions := sessions st; db := db';
               reminderJobs :=
                 scheduleReminder dateTime now (reminderJobs st) chatId newEvent |},
            newEvent)
  | _, _ => None
  end.

Definition deleteEvent (st : bot_state) (chatId eventId : Z) : bot_state :=
  {| sessions := sessions st; db := deleteRow (db st) chatId eventId;
     reminderJobs := cancelReminder (reminderJobs st) eventId |}.

Definition draftConflicts (st : bot_state) (chatId : Z) (draft : obj) : list conflict :=
  checkConflicts getDay (db st) chatId (default "" (text (get draft "date")))
                 (text (get draft "start_time")) (text (get draft "end_time")).

Definition expired : list reply := [Answer "❌ Draft expired."].
Definition failed : list reply := [Answer "❌ Error. Try again."].

(** Save a draft and drop it from the session: the common tail of
    [confirm], [conflict_keep] and [conflict_replace]. *)
Definition saveDraft (now : Z) (st : bot_state) (chatId : Z) (s : session)
    (draftId : string) (d : draftObj) (done : event → list reply)
    : bot_state * list reply :=
  match addEventToDB now st chatId (d_draft d) with
  | None => (st, failed)
  | Some (st', saved) =>
      (with_session st' chatId (set_drafts s (removeDraft (drafts s) draftId)),
       done saved)
  end.

Definition touch (d : draftObj) (st : draft_state) (now : Z) (overwriteNext : bool)
    : draftObj :=
  {| d_id := d_id d; d_draft := d_draft d; d_state := st; d_updatedAt := now;
     d_overwriteNext := overwriteNext |}.

(** The handler from [const session = getSession(chatId)] down to the end of
    the conflict flow; [None] when [data] names none of these buttons and
    the handler goes on to the event-editing branches. *)
Definition draftButtons (now : Z) (st0 : bot_state) (chatId : Z) (data : string)
    : option (bot_state * list reply) :=
  let '(sessions1, s) := getSession now (sessions st0) chatId in
  let st := {| sessions := sessions1; db := db st0; reminderJobs := reminderJobs st0 |} in
  let draftId := payloadId data in
  let found := findDraft (drafts s) draftId in
  if startsWith "confirm:" data then
    match found with
    | None => Some (st, expired)
    | Some (_, d) =>
        if negb (draftIsCompleteEnough (d_draft d))
        then Some (st, [Answer "Need at least title + date."])
        else
          let conflicts := draftConflicts st chatId (d_draft d) in
          if bool_decide (0 < length conflicts)%nat
          then Some (st, [ShowConflicts draftId (d_draft d) conflicts; AnswerPlain])
          else Some (saveDraft now st chatId s draftId d
                       (λ saved, [Answer "Saved."; ShowSaved saved; MainMenu]))
    end
  else if startsWith "edit:" data then
    match found with
    | None => Some (st, expired)
    | Some (i, d) =>
        let d' := touch d collecting now true in
        Some (with_session st chatId (set_drafts s (<[i := d']> (drafts s))),
              [Answer "Send the corrected info now."; AskCorrection (d_draft d)])
    end
  else if startsWith "discard:" data then
    match found with
    | None => Some (st, expired)
    | Some _ =>
        Some (with_session st chatId (set_drafts s (removeDraft (drafts s) draftId)),
              [Answer "Discarded."; ShowDiscarded])
    end
  else if startsWith "conflict_keep:" data then
    match found with
    | None => Some (st, expired)
    | Some (_, d) =>
        Some (saveDraft now st chatId s draftId d
                (λ saved, [Answer "Saved (kept both)."; ShowKeptBoth saved; MainMenu]))
    end
  else if startsWith "conflict_replace:" data then
    match found with
    | None => Some (st, expired)
    | Some (_, d) =>
        let conflicts := draftConflicts st chatId (d_draft d) in
        let st' := foldl (λ acc c, deleteEvent acc chatId (conflict_id c)) st conflicts in
        Some (saveDraft now st' chatId s draftId d
                (λ saved, [Answer "Replaced and saved.";
                           ShowReplaced (length conflicts) saved; MainMenu]))
    end
  else if startsWith "conflict_cancel:" data then
    match found with
    | None => Some (st, expired)
    | Some (i, d) =>
        let d' := touch d awaiting_confirm now (d_overwriteNext d) in
        Some (with_session st chatId (set_drafts s (<[i := d']> (drafts s))),
              [Answer "Cancelled."; ShowCancelled draftId (d_draft d)])
    end
  else None.
End Handlers.

(** The six draft and conflict buttons. *)
Definition draftActions : list string :=
  [ "confirm:"; "edit:"; "discard:"; "conflict_keep:"; "conflict_replace:";
    "conflict_cancel:" ].

(** ** Vocabulary of the statements *)

(** A field that holds a non-empty string. *)
Definition field_set (o : obj) (k : string) : Prop :=
  ∃ s, o !! k = Some (VStr s) ∧ s ≠ "".

(** A field that is present and holds [null] or the empty string. *)
Definition field_empty (o : obj) (k : string) : Prop :=
  o !! k = Some VNull ∨ o !! k = Some (VStr "").

(** Two fields that are both set, to different strings. *)
Definition fields_differ (u d : obj) (k : string) : Prop :=
  ∃ a b, u !! k = Some (VStr a) ∧ a ≠ "" ∧ d !! k = Some (VStr b) ∧ b ≠ "" ∧ a ≠ b.

(** What one loop turn of [mergeDraft] for the entry [(k, v)] leaves under
    the own key [k], given what was there. *)
Definition merged_field (allowOverwrite : bool) (k : string) (cur : option value)
    (v : value) : option value :=
  match v with
  | VNull => cur
  | VStr _ =>
      match cur with
      | Some c =>
          if truthy (SValue c) then (if allowOverwrite then Some v else cur)
          else Some v
      | None =>
          if inherited k && allowOverwrite && negb (bool_decide (k = "__proto__"))
          then Some v
          else None
      end
  end.

(** The value of a run of decimal digits. *)
Definition decValue (ds : jsstring) : N :=
  foldl (λ acc c, 10 * acc + digitVal c)%N 0%N ds.

(** One or two digits. *)
Definition hourDigits (hd : jsstring) : Prop :=
  Forall (λ c, isDigit c = true) hd ∧ (length hd = 1 ∨ length hd = 2)%nat.

(** Exactly two digits. *)
Definition minuteDigits (md : jsstring) : Prop :=
  Forall (λ c, isDigit c = true) md ∧ length md = 2%nat.

(** The shape [H:MM] or [HH:MM], with the numbers it denotes. *)
Definition shape24 (s : jsstring) (h m : N) : Prop :=
  ∃ hd md, s = hd ++ [58%N] ++ md ∧ hourDigits hd ∧ minuteDigits md
           ∧ h = decValue hd ∧ m = decValue md.

(** [am] or [pm] in either case of each letter. *)
Definition isSuffix (p : period) (sfx : jsstring) : Prop :=
  ∃ a m, sfx = [a; m] ∧ (m = 109 ∨ m = 77)%N
         ∧ match p with
           | AM => (a = 97 ∨ a = 65)%N
           | PM => (a = 112 ∨ a = 80)%N
           end.

(** The 12-hour shape: hour, optional [:MM], optional blanks, suffix. *)
Definition shape12 (s : jsstring) (h : N) (m : option N) (p : period) : Prop :=
  ∃ hd mins ws sfx,
    s = hd ++ mins ++ ws ++ sfx ∧ hourDigits hd ∧ h = decValue hd
    ∧ ((mins = [] ∧ m = None)
       ∨ ∃ md, mins = 58%N :: md ∧ minuteDigits md ∧ m = Some (decValue md))
    ∧ Forall (λ c, isSpace c = true) ws ∧ isSuffix p sfx.

(** 12-hour to 24-hour: [12am] is hour 0, [12pm] is hour 12, any other
    [pm] hour gains 12. *)
Definition to24 (h : N) (p : period) : N :=
  match p with
  | AM => if bool_decide (h = 12%N) then 0%N else h
  | PM => if bool_decide (h = 12%N) then 12%N else (h + 12)%N
  end.

(** A text of shape [H:MM]/[HH:MM] in range, and the clock string for it. *)
Definition accepts24 (s : jsstring) (r : string) : Prop :=
  ∃ h m, shape24 s h m ∧ (h <= 23)%N ∧ (m <= 59)%N ∧ r = hhmm h m.

(** A text of the 12-hour shape in range after conversion, and the clock
    string for it. *)
Definition accepts12 (s : jsstring) (r : string) : Prop :=
  ∃ h m p, shape12 s h m p ∧ (to24 h p <= 23)%N ∧ (default 0%N m <= 59)%N
           ∧ r = hhmm (to24 h p) (default 0%N m).

(** The half-open window [[s, e)] in minutes of a start time and an optional
    end time: an absent (null or empty) end time stands for start + 60. *)
Definition interval (start_time : string) (end_time : option string) (s e : Z) : Prop :=
  timeToMinutes start_time = Some s
  ∧ ((∃ en, end_time = Some en ∧ en ≠ "" ∧ timeToMinutes en = Some e)
     ∨ (nonEmpty end_time = false ∧ e = (s + 60)%Z)).

(** Strict overlap of a candidate window with another one. *)
Definition overlapping (start_time : string) (end_time : option string)
    (other_start : string) (other_end : option string) : Prop :=
  ∃ cs ce os oe, interval start_time end_time cs ce
                 ∧ interval other_start other_end os oe
                 ∧ (cs < oe)%Z ∧ (os < ce)%Z.

(** A run of prune passes at the successive clock readings [ts]. *)
Definition pruneAll (ts : list Z) (sessions : gmap Z session) : gmap Z session :=
  foldl (λ m t, pruneExpiredDrafts t m) sessions ts.

(** The draft [d] is still in the session of [chatId]. *)
Definition survives (sessions : gmap Z session) (chatId : Z) (d : draftObj) : Prop :=
  ∃ s, sessions !! chatId = Some s ∧ d ∈ drafts s.

(** The reminder job for the offset [(minutes, label)] of an event that
    starts at instant [start]. *)
Definition reminderJob (chatId : Z) (ev : event) (start : Z) (offset : Z * string) : job :=
  {| job_at := start - offset.1 * 60 * 1000; job_chat := chatId;
     job_label := offset.2; job_event := ev |}.

(** The three keys under which the reminders of an event are kept. *)
Definition reminderKeys (eventId : Z) : list string :=
  [ jobKey eventId 1440; jobKey eventId 360; jobKey eventId 30 ].

(** ** Sample data for the worked cases *)

Definition sampleEvent : event :=
  {| e_id := 5; e_chat_id := 1; e_task := "Gym"; e_date := "2025-04-10";
     e_start_time := Some "14:00"; e_end_time := Some "15:00";
     e_location := None; e_type := Some "sports" |}.

Definition sampleDraft : draftObj :=
  {| d_id := "1700000000000";
     d_draft := {[ "task" := VStr "Gym"; "date" := VStr "2025-03-01";
                   "start_time" := VNull; "end_time" := VNull;
                   "location" := VNull; "type" := VNull ]};
     d_state := awaiting_confirm; d_updatedAt := 1700000000000;
     d_overwriteNext := false |}.

Definition sampleSession : session :=
  {| drafts := [sampleDraft]; updatedAt := 1700000000000;
     editingEventId := Some 5%Z; editingField := Some "title";
     addingClass := false |}.

Definition sampleState : bot_state :=
  {| sessions := {[ 1%Z := sampleSession ]};
     db := {| events := [sampleEvent]; events_seq := 5; school_timetable := [] |};
     reminderJobs := ∅ |}.

(** A complete draft that collides with [sampleEvent], in a session of its
    own. *)
Definition collidingDraft : draftObj :=
  {| d_id := "1700000000999";
     d_draft := {[ "task" := VStr "Squash"; "date" := VStr "2025-04-10";
                   "start_time" := VStr "14:30"; "end_time" := VStr "15:30";
                   "location" := VNull; "type" := VNull ]};
     d_state := awaiting_confirm; d_updatedAt := 1700000000999;
     d_overwriteNext := false |}.

Definition collidingState : bot_state :=
  {| sessions := {[ 1%Z := {| drafts := [collidingDraft]; updatedAt := 1700000000999;
                              editingEventId := None; editingField := None;
                              addingClass := false |} ]};
     db := {| events := [sampleEvent]; events_seq := 5; school_timetable := [] |};
     reminderJobs := ∅ |}.

(** ** Further helpers of [bot.js] *)

(** The characters [escapeMarkdown] guards: [_ * [ ] `]. *)
Definition isMarkdownSpecial (a : ascii) : bool :=
  bool_decide (a ∈ ["_"; "*"; "["; "]"; "`"]%char).

(** [String(text).replace(/([_*[\]`])/g, '\\$1')], on the bytes of the
    text: the guarded characters are ASCII, so no byte of a longer UTF-8
    sequence is one of them. *)
Fixpoint escapeMarkdown (text : string) : string :=
  match text with
  | EmptyString => EmptyString
  | String a r =>
      if isMarkdownSpecial a then String "\"%char (String a (escapeMarkdown r))
      else String a (escapeMarkdown r)
  end.

(** [getDayName]: [days[dayOfWeek]], [None] being [undefined]. *)
Definition getDayName (dayOfWeek : Z) : option string :=
  if bool_decide (0 <= dayOfWeek)%Z
  then ["Sunday"; "Monday"; "Tuesday"; "Wednesday"; "Thursday"; "Friday"; "Saturday"]
         !! Z.to_nat dayOfWeek
  else None.

(** [toLowerCase()] on the code units [A]-[Z].  The other code units are
    left as they are: no other character lowers to letters of a day name
    alone, so the look-up of [parseDayOfWeek] gives the same answer. *)
Definition toLowerUnit (c : N) : N :=
  if ((65 <=? c) && (c <=? 90))%N then (c + 32)%N else c.

Definition toLowerCase (s : jsstring) : jsstring := toLowerUnit <$> s.

Definition dayMap : list (string * Z) :=
  [ ("sunday", 0); ("sun", 0);
    ("monday", 1); ("mon", 1);
    ("tuesday", 2); ("tue", 2); ("tues", 2);
    ("wednesday", 3); ("wed", 3);
    ("thursday", 4); ("thu", 4); ("thur", 4); ("thurs", 4);
    ("friday", 5); ("fri", 5);
    ("saturday", 6); ("sat", 6) ]%Z.

(** What [parseDayOfWeek] returns: a weekday number, [null], or, for a name
    that [dayMap] inherits from [Object.prototype], the inherited member. *)
Inductive day_result :=
| DayNumber (n : Z)
| DayNull
| DayBuiltin (k : string).

(** [dayMap[day]] as an association look-up on code units *)
Fixpoint lookupDay (day : jsstring) (m : list (string * Z)) : option Z :=
  match m with
  | [] => None
  | (k, n) :: r => if bool_decide (units k = day) then Some n else lookupDay day r
  end.

Definition parseDayOfWeek (dayStr : jsstring) : day_result :=
  let day := trim (toLowerCase dayStr) in
  match lookupDay day dayMap with
  | Some n => DayNumber n
  | None =>
      match list_find (λ k, units k = day) ObjectPrototype with
      | Some (_, k) => DayBuiltin k
      | None => DayNull
      end
  end.

(** ** Editing and deleting stored events *)

(** The [updates] argument of [updateEvent]: per column, [None] when the
    property is [undefined], [Some None] for [null], [Some (Some s)] for a
    string. *)
Record event_updates := {
  u_task : option (option string);
  u_date : option (option string);
  u_start_time : option (option string);
  u_end_time : option (option string);
  u_location : option (option string);
  u_type : option (option string)
}.

Definition noUpdates : event_updates :=
  {| u_task := None; u_date := None; u_start_time := None; u_end_time := None;
     u_location := None; u_type := None |}.

(** [sets.length === 0] *)
Definition setsEmpty (u : event_updates) : bool :=
  bool_decide (u_task u = None ∧ u_date u = None ∧ u_start_time u = None
               ∧ u_end_time u = None ∧ u_location u = None ∧ u_type u = None).

(** A [NOT NULL] column under [SET col = ?]; [None] when NULL is assigned. *)
Definition setRequired (new : option (option string)) (old : string) : option string :=
  match new with
  | None => Some old
  | Some (Some s) => Some s
  | Some None => None
  end.

(** The row after the [UPDATE]; [None] when a constraint rejects it. *)
Definition updateRow (u : event_updates) (e : event) : option event :=
  match setRequired (u_task u) (e_task e), setRequired (u_date u) (e_date e) with
  | Some task, Some date =>
      Some {| e_id := e_id e; e_chat_id := e_chat_id e; e_task := task; e_date := date;
              e_start_time := default (e_start_time e) (u_start_time u);
              e_end_time := default (e_end_time e) (u_end_time u);
              e_location := default (e_location e) (u_location u);
              e_type := default (e_type e) (u_type u) |}
  | _, _ => None
  end.

(** [WHERE id = ? AND chat_id = ?] *)
Definition isRow (chatId eventId : Z) (e : event) : Prop :=
  e_id e = eventId ∧ e_chat_id e = chatId.

#[global] Instance isRow_dec chatId eventId e : Decision (isRow chatId eventId e).
Proof. unfold isRow. apply _. Defined.

(** [db.get('SELECT * FROM events WHERE id = ? AND chat_id = ?', ...)] *)
Definition getEvent (d : database) (chatId eventId : Z) : option event :=
  snd <$> list_find (isRow chatId eventId) (events d).

Definition with_events (d : database) (evs : list event) : database :=
  {| events := evs; events_seq := events_seq d;
     school_timetable := school_timetable d |}.

Definition set_editing (s : session) (eventId : option Z) (field : option string)
    : session :=
  {| drafts := drafts s; updatedAt := updatedAt s; editingEventId := eventId;
     editingField := field; addingClass := addingClass s |}.

Definition set_addingClass (s : session) (b : bool) : session :=
  {| drafts := drafts s; updatedAt := updatedAt s; editingEventId := editingEventId s;
     editingField := editingField s; addingClass := b |}.

(** [session.editingEventId && session.editingField]: a non-zero number and
    a non-empty string. *)
Definition isEditing (s : session) : option (Z * string) :=
  match editingEventId s, editingField s with
  | Some eventId, Some field =>
      if bool_decide (eventId ≠ 0%Z ∧ field ≠ "") then Some (eventId, field) else None
  | _, _ => None
  end.

(** What the extraction service returned for a text. *)
Inductive parse_result :=
| ParseError (error : string)
| ParseUpdates (updates : obj) (overwrite_intent : bool)
| ParseEvents (parsedEvents : list obj).

Inductive message_reply :=
| SayCancelledClass
| SayEventNotFound
| SayBadDate
| SayBadTime
| SayUpdated (updated : option event)
| SayUpdateError
| SayMenu
| SayTryExamples
| SayParseError (error : string)
| SayAdded (total : nat) (shown : list event) (more : nat)
| SayDraft (r : reply).


(** [text.toLowerCase()] on the bytes of the text, letters [A]-[Z] only: no
    other character lowers to a letter that completes one of the keywords
    below. *)
Definition lowerAscii (a : ascii) : ascii :=
  let n := Ascii.N_of_ascii a in
  if ((65 <=? n) && (n <=? 90))%N then Ascii.ascii_of_N (n + 32) else a.

Fixpoint lowerText (s : string) : string :=
  match s with
  | EmptyString => EmptyString
  | String a r => String (lowerAscii a) (lowerText r)
  end.

(** [t.includes(k)] *)
Fixpoint includes (t k : string) : bool :=
  String.prefix k t
  || match t with
     | EmptyString => false
     | String _ r => includes r k
     end.

Definition scheduleKeywords : list string :=
  [ "tomorrow"; "today"; "next"; "on "; "at "; "pm"; "am";
    "monday"; "tuesday"; "wednesday"; "thursday"; "friday"; "saturday"; "sunday";
    "jan"; "january"; "feb"; "march"; "apr"; "may"; "jun"; "july"; "aug"; "sep";
    "oct"; "nov"; "dec";
    "meeting"; "call"; "dentist"; "appointment"; "gym"; "schedule"; "softball";
    "game"; "deadline"; "due" ].

Definition looksLikeSchedule (text : string) : bool :=
  existsb (includes (lowerText text)) scheduleKeywords.

Section Editing.
Variable getDay : string → option Z.
Variable dateTime : string → option Z.
(** [Number(p)] for a button payload [p] when that is an integer; [None]
    for [NaN] and for every other number. *)
Variable toNumber : string → option Z.
(** [String(Number(p))] in that other case: [NaN], [5.5], ... *)
Variable numberText : string → string.
(** [events.chat_id] is a TEXT column.  A row that is read back carries the
    text SQLite made of the number the handler bound: the decimal numeral
    of a small id, a numeral such as [5000000000.0] for an id beyond 32
    bits.  [storedChatId c] is the addressee that this text is, for the
    chat id [c]. *)
Variable storedChatId : Z → Z.

(** [updateEvent]; [None] when the UPDATE throws. *)
Definition updateEvent (now : Z) (st : bot_state) (chatId eventId : Z)
    (updates : event_updates) : option bot_state :=
  if setsEmpty updates then Some st
  else
    match mapM (λ e, if decide (isRow chatId eventId e) then updateRow updates e
                     else Some e) (events (db st)) with
    | None => None
    | Some evs =>
        let db' := with_events (db st) evs in
        let jobs := cancelReminder (reminderJobs st) eventId in
        Some {| sessions := sessions st; db := db';
                reminderJobs :=
                  match getEvent db' chatId eventId with
                  | Some event => scheduleReminder dateTime now jobs chatId event
                  | None => jobs
                  end |}
    end.

(** The [/clear] command: the events of the chat are deleted, then the loop
    over [[...reminderJobs.entries()]] cancels and deletes each job. *)
Definition clearCommand (st : bot_state) (chatId : Z) : bot_state :=
  {| sessions := sessions st;
     db := with_events (db st) (filter (λ e, e_chat_id e ≠ chatId) (events (db st)));
     reminderJobs := foldl (λ jobs entry, delete entry.1 jobs) (reminderJobs st)
                           (map_to_list (reminderJobs st)) |}.

(** [rescheduleAllReminders], [today] being [isoDate(now)]: the events dated
    today or later that have a start time, each scheduled for the
    [chat_id] of its row as the [SELECT] returns it. *)
Definition rescheduleAllReminders (now : Z) (today : string) (st : bot_state)
    : bot_state :=
  let upcoming :=
    filter (λ e, Is_true (String.leb today (e_date e)) ∧ is_Some (e_start_time e))
           (events (db st)) in
  {| sessions := sessions st; db := db st;
     reminderJobs :=
       foldl (λ jobs e, scheduleReminder dateTime now jobs (storedChatId (e_chat_id e)) e)
             (reminderJobs st) upcoming |}.



(** The field-edit interception of the message handler, for a session that
    points at [eventId] and [field]. *)
Definition editIntercept (parse : string → parse_result) (now : Z) (st : bot_state)
    (chatId : Z) (s : session) (eventId : Z) (field text : string)
    : bot_state * list message_reply :=
  match getEvent (db st) chatId eventId with
  | None => (with_session st chatId (set_editing s None None), [SayEventNotFound])
  | Some _ =>
      let apply (updates : event_updates) :=
        match updateEvent now st chatId eventId updates with
        | Some st' =>
            (with_session st' chatId (set_editing s None None),
             [SayUpdated (getEvent (db st') chatId eventId); SayMenu])
        | None =>
            (with_session st chatId (set_editing s None None), [SayUpdateError])
        end in
      if bool_decide (field = "title") then
        apply {| u_task := Some (Some text); u_date := None; u_start_time := None;
                 u_end_time := None; u_location := None; u_type := None |}
      else if bool_decide (field = "date") then
        match parse text with
        | ParseUpdates updates _ =>
            match get updates "date" with
            | SValue (VStr d) =>
                if bool_decide (d = "") then (st, [SayBadDate])
                else apply {| u_task := None; u_date := Some (Some d);
                              u_start_time := None; u_end_time := None;
                              u_location := None; u_type := None |}
            | _ => (st, [SayBadDate])
            end
        | _ => (st, [SayBadDate])
        end
      else if bool_decide (field = "time") then
        match parse text with
        | ParseUpdates updates _ =>
            let pick (k : string) : option (option string) :=
              match get updates k with
              | SValue (VStr t) => if bool_decide (t = "") then None else Some (Some t)
              | _ => None
              end in
            apply {| u_task := None; u_date := None;
                     u_start_time := pick "start_time"; u_end_time := pick "end_time";
                     u_location := None; u_type := None |}
        | _ => (st, [SayBadTime])
        end
      else if bool_decide (field = "location") then
        apply {| u_task := None; u_date := None; u_start_time := None;
                 u_end_time := None; u_location := Some (Some text); u_type := None |}
      else apply noUpdates
  end.

(** The multi-event path: every parsed event is saved at once, in order,
    with no conflict check.  The flag tells whether the loop ran to its end;
    it stops at an INSERT that throws. *)
Fixpoint commitEvents (now : Z) (st : bot_state) (chatId : Z) (parsed : list obj)
    (saved : list event) : bot_state * list event * bool :=
  match parsed with
  | [] => (st, saved, true)
  | ev :: rest =>
      match addEventToDB dateTime now st chatId ev with
      | Some (st', e) => commitEvents now st' chatId rest (saved ++ [e])
      | None => (st, saved, false)
      end
  end.

(** The message handler for a text message, [text] being [msg.text.trim()].
    The class-intake branch, taken when [session.addingClass] is set, asks
    the class extraction and writes to the school timetable; it is not
    embedded, and [None] stands for it.  What is stated of [onMessage] below
    is stated of the other branches, and says so. *)
Definition onMessage (parse : string → parse_result) (now : Z) (st0 : bot_state)
    (chatId : Z) (text : string) : option (bot_state * list message_reply) :=
  if bool_decide (text = "") then Some (st0, [])
  else
    let '(sessions1, s0) := getSession now (sessions st0) chatId in
    let s := set_updatedAt s0 now in
    let st := {| sessions := <[chatId := s]> sessions1; db := db st0;
                 reminderJobs := reminderJobs st0 |} in
    if startsWith "/" text then
      if bool_decide (text = "/cancel") && addingClass s
      then Some (with_session st chatId (set_addingClass s false),
                 [SayCancelledClass])
      else Some (st, [])
    else if addingClass s then None
    else
      match isEditing s with
      | Some (eventId, field) =>
          Some (editIntercept parse now st chatId s eventId field text)
      | None =>
          if negb (looksLikeSchedule text) then Some (st, [SayTryExamples])
          else
            match parse text with
            | ParseError error => Some (st, [SayParseError error])
            | ParseEvents parsed =>
                let '(st', saved, finished) := commitEvents now st chatId parsed [] in
                if finished
                then Some (st', [SayAdded (length saved) (take 8 saved)
                                          (length saved - 8)])
                else Some (st', [])
            | ParseUpdates updates overwriteIntent =>
                let '(s', _, r) := mergeUpdates now s updates overwriteIntent in
                Some (with_session st chatId s', [SayDraft r])
            end
      end.
End Editing.

(** Every canonical clock string with its minute of the day. *)
Definition clockTable : list (string * N) :=
  flat_map (λ h, map (λ m, (hhmm h m, (60 * h + m)%N)) (N.of_nat <$> seq 0 60))
           (N.of_nat <$> seq 0 24).

(** A time as [normalizeTime] writes it. *)
Definition normalized (r : string) : Prop := ∃ t, normalizeTime t = Some r.

(** [a] starts no later than [b], by the minute of the day. *)
Definition startsNoLater (a b : class_entry) : Prop :=
  ∃ x y, timeToMinutes (c_start_time a) = Some x
         ∧ timeToMinutes (c_start_time b) = Some y ∧ (x <= y)%Z.

(** A timetable with a Monday class at 14:00 stored before one at 09:00. *)
Definition sampleTimetable : database :=
  {| events := []; events_seq := 0;
     school_timetable :=
       [ {| c_id := 1; c_chat_id := 1; c_subject := "Physics"; c_day_of_week := 1;
            c_start_time := "14:00"; c_end_time := "15:30"; c_location := None |};
         {| c_id := 2; c_chat_id := 1; c_subject := "Math"; c_day_of_week := 1;
            c_start_time := "09:00"; c_end_time := "10:00"; c_location := None |} ] |}.

(** A second event on the day of [sampleEvent], 14:30 with no end time. *)
Definition laterEvent : event :=
  {| e_id := 6; e_chat_id := 1; e_task := "Squash"; e_date := "2025-04-10";
     e_start_time := Some "14:30"; e_end_time := None;
     e_location := None; e_type := None |}.

(** The draft object [d0] after it has taken the merge of a fragment at
    time [now]. *)
Definition mergedDraftObj (now : Z) (d0 : draftObj) (updates : obj) (oi : bool)
    : draftObj :=
  let merged := mergeDraft (d_draft d0) updates oi (d_overwriteNext d0) in
  {| d_id := d_id d0; d_draft := merged;
     d_state := if draftIsCompleteEnough merged then awaiting_confirm else d_state d0;
     d_updatedAt := now; d_overwriteNext := false |}.

(** The stored events of one conversation, in table order. *)
Definition eventsOf (d : database) (chatId : Z) : list event :=
  filter (λ e, e_chat_id e = chatId) (events d).



(** The row [x] after [UPDATE events SET ... WHERE id = eventId AND
    chat_id = chatId] with the columns of [u]. *)
Definition updatedRow (chatId eventId : Z) (u : event_updates) (x : event) : event :=
  if decide (isRow chatId eventId x) then default x (updateRow u x) else x.

(** An update that assigns NULL to neither required column. *)
Definition keepsRequired (u : event_updates) : Prop :=
  u_task u ≠ Some None ∧ u_date u ≠ Some None.

(** The update an edit of the title sends to [updateEvent]. *)
Definition retitle (text : string) : event_updates :=
  {| u_task := Some (Some text); u_date := None; u_start_time := None;
     u_end_time := None; u_location := None; u_type := None |}.

(** An extracted event the INSERT accepts: its title and date are strings. *)
Definition insertable (ev : obj) : Prop :=
  is_Some (text (get ev "task")) ∧ is_Some (text (get ev "date")).

(** The ids [first], [first + 1], ... of [n] consecutive inserts. *)
Definition idsFrom (first : Z) (n : nat) : list Z :=
  (λ k, first + Z.of_nat k)%Z <$> seq 0 n.

(** A code unit that is no capital letter [A]-[Z]. *)
Definition notCapital (c : N) : bool := negb ((65 <=? c) && (c <=? 90))%N.

(** The number of guarded characters of a text. *)
Fixpoint countSpecial (text : string) : nat :=
  match text with
  | EmptyString => 0
  | String a r => (if isMarkdownSpecial a then 1 else 0) + countSpecial r
  end.

(** * Properties *)

(** ** Plain objects and [mergeDraft] *)

Lemma truthy_get_set (o : obj) k : truthy (get o k) = true → inherited k = false → field_set o k.
Proof.
  unfold get, field_set. destruct (o !! k) as [[|s]|] eqn:E; simpl.
  - discriminate.
  - intros H _. exists s. split; [done|]. intros ->. discriminate.
  - intros H Hi. rewrite Hi in H. discriminate.
Qed.

Lemma field_set_truthy (o : obj) k : field_set o k → truthy (get o k) = true.
Proof.
  intros (s & E & Hs). unfold get. rewrite E. simpl.
  by rewrite bool_decide_eq_false_2.
Qed.

Lemma truthy_field_set (o : obj) k :
  inherited k = false → truthy (get o k) = true ↔ field_set o k.
Proof. intros Hi. split; [by intros; apply truthy_get_set | apply field_set_truthy]. Qed.

Lemma mergeEntry_lookup_ne a (d : obj) k k' v :
  k ≠ k' → mergeEntry a d (k', v) !! k = d !! k.
Proof.
  intros Hne. unfold mergeEntry, put. destruct v; [done|].
  repeat case_match; try done; by rewrite lookup_insert_ne.
Qed.

Lemma mergeEntry_lookup_eq a (d : obj) k v :
  mergeEntry a d (k, v) !! k = merged_field a k (d !! k) v.
Proof.
  unfold mergeEntry, merged_field, put, has_property, get. destruct v as [|s]; [done|].
  destruct (d !! k) as [c|] eqn:E.
  - rewrite bool_decide_eq_true_2 by eauto. cbn [orb negb].
    rewrite andb_false_r.
    destruct (truthy (SValue c)); cbn [negb]; [destruct a|];
      by rewrite ?lookup_insert_eq.
  - rewrite (bool_decide_eq_false_2 (is_Some None)) by (intros [? ?]; done).
    cbn [orb negb truthy].
    destruct (inherited k); cbn [negb andb truthy]; [|by rewrite E].
    destruct a; [|by rewrite E].
    rewrite andb_true_r. destruct (bool_decide (k = "__proto__")); cbn [negb];
      [by rewrite E | by rewrite lookup_insert_eq].
Qed.

Lemma merge_list_lookup a (l : list (string * value)) :
  NoDup l.*1 → ∀ (d : obj) k,
  foldl (mergeEntry a) d l !! k =
    match (list_to_map l : obj) !! k with
    | Some v => merged_field a k (d !! k) v
    | None => d !! k
    end.
Proof.
  induction l as [|[k' v'] l IH]; intros Hnd d k; [done|].
  simpl in Hnd. apply NoDup_cons in Hnd as [Hnotin Hnd].
  cbn [foldl]. rewrite (IH Hnd). cbn [list_to_map foldr uncurry].
  destruct (decide (k = k')) as [->|Hne].
  - rewrite lookup_insert_eq.
    rewrite (not_elem_of_list_to_map_1 l k') by done.
    apply mergeEntry_lookup_eq.
  - rewrite lookup_insert_ne by done.
    by rewrite (mergeEntry_lookup_ne a d k k' v').
Qed.

Lemma mergeDraft_lookup (d u : obj) oi on k :
  mergeDraft d u oi on !! k =
    match u !! k with
    | Some v => merged_field (oi || on) k (d !! k) v
    | None => d !! k
    end.
Proof.
  unfold mergeDraft, entries.
  rewrite merge_list_lookup by apply NoDup_fst_map_to_list.
  by rewrite list_to_map_to_list.
Qed.

Lemma merged_field_idem a k cur v :
  merged_field a k (merged_field a k cur v) v = merged_field a k cur v.
Proof.
  unfold merged_field. destruct v as [|s]; [done|].
  destruct cur as [c|].
  - destruct (truthy (SValue c)) eqn:Hc.
    + destruct a; [by destruct (truthy (SValue (VStr s))) | by rewrite Hc].
    + by destruct (truthy (SValue (VStr s))), a.
  - destruct (inherited k && a && negb (bool_decide (k = "__proto__"))) eqn:Hg;
      [|by rewrite ?Hg].
    by destruct (truthy (SValue (VStr s))), a.
Qed.

Lemma fields_differ_spec (u d : obj) k :
  inherited k = false →
  truthy (get u k) && truthy (get d k) && strict_ne (get u k) (get d k) = true
  ↔ fields_differ u d k.
Proof.
  intros Hi. rewrite !andb_true_iff, !(truthy_field_set _ _ Hi).
  unfold strict_ne, fields_differ, field_set, get. split.
  - intros [[(a & Ha & Hane) (b & Hb & Hbne)] Hne].
    exists a, b. rewrite Ha, Hb in Hne |- *. repeat split; try done.
    intros ->. by rewrite bool_decide_eq_true_2 in Hne.
  - intros (a & b & Ha & Hane & Hb & Hbne & Hab). rewrite Ha, Hb.
    repeat split; eauto. rewrite bool_decide_eq_false_2; [done|]. congruence.
Qed.

(** ** The fork decision *)

(** C2. With [overwrite_intent] the active draft is always continued.
    Without it a new draft is started exactly when the fragment carries a
    date that differs from the date the draft already has and the draft
    also has a title, a start time or a location, or when the fragment
    carries a title that differs from the title the draft already has and
    the draft has a date.  A fragment for the empty draft never forks. *)
Theorem C2_new_draft_decision (draft updates : obj) :
  shouldStartNewDraftFromUpdate (Some draft) updates true = false
  ∧ (shouldStartNewDraftFromUpdate (Some draft) updates false = true
     ↔ (fields_differ updates draft "date"
        ∧ (field_set draft "task" ∨ field_set draft "start_time"
           ∨ field_set draft "location"))
       ∨ (fields_differ updates draft "task" ∧ field_set draft "date"))
  ∧ ∀ overwriteIntent,
      shouldStartNewDraftFromUpdate (Some makeEmptyDraft) updates overwriteIntent = false.
Proof.
  split; [done|]. split.
  - unfold shouldStartNewDraftFromUpdate. cbn [get_opt].
    rewrite <- (fields_differ_spec updates draft "date") by done.
    rewrite <- (fields_differ_spec updates draft "task") by done.
    rewrite <- !(truthy_field_set draft) by done.
    destruct (truthy (get updates "date")), (truthy (get draft "date")),
      (truthy (get draft "task")), (truthy (get draft "start_time")),
      (truthy (get draft "location")), (truthy (get updates "task")),
      (strict_ne (get updates "date") (get draft "date")),
      (strict_ne (get updates "task") (get draft "task")); cbn; tauto || (intuition congruence).
  - intros []; [done|]. unfold shouldStartNewDraftFromUpdate. cbn [get_opt].
    replace (truthy (get makeEmptyDraft "date")) with false by done.
    replace (truthy (get makeEmptyDraft "task")) with false by done.
    by rewrite !andb_false_r.
Qed.

(** ** Non-destructive merges *)

Lemma field_set_not_empty (o : obj) k : field_set o k → ¬ field_empty o k.
Proof. intros (s & E & Hs) [H|H]; rewrite E in H; congruence. Qed.

Lemma merge_keep_step (d u : obj) k :
  mergeDraft d u false false !! k = d !! k
  ∨ (field_empty d k
     ∧ ∃ s, u !! k = Some (VStr s) ∧ mergeDraft d u false false !! k = Some (VStr s)).
Proof.
  rewrite mergeDraft_lookup. destruct (u !! k) as [[|s]|] eqn:Eu; [by left| |by left].
  unfold merged_field, field_empty. cbn [orb].
  destruct (d !! k) as [[|t]|] eqn:Ed.
  - right. split; [by left|]. by exists s.
  - cbn [truthy]. destruct (decide (t = "")) as [->|Hne].
    + right. split; [by right|]. by exists s.
    + left. by rewrite bool_decide_eq_false_2.
  - left. by rewrite andb_false_r.
Qed.

Lemma merge_keep_all (d : obj) (fs : list obj) k :
  mergeAll d fs !! k = d !! k
  ∨ (field_empty d k
     ∧ ∃ u s, u ∈ fs ∧ u !! k = Some (VStr s) ∧ mergeAll d fs !! k = Some (VStr s)).
Proof.
  revert d. induction fs as [|u fs IH]; intros d; [by left|].
  change (mergeAll d (u :: fs)) with (mergeAll (mergeDraft d u false false) fs).
  destruct (IH (mergeDraft d u false false)) as [E | (He & u' & s' & Hin & Hu' & E)];
    destruct (merge_keep_step d u k) as [E1 | (He1 & s1 & Hu1 & E1)].
  - left. congruence.
  - right. split; [done|]. exists u, s1. rewrite E, E1. split; [left|done].
  - right. split; [by unfold field_empty in *; rewrite <- E1|].
    exists u', s'. split; [by right|done].
  - right. split; [done|]. exists u', s'. split; [by right|done].
Qed.

(** C3. A merge without overwrite intent and without the one-shot
    [overwriteNext] leaves every field that already holds a non-empty value
    as it is; a field changes only when it was empty, and then to the
    non-null value a fragment has for it.  The same holds after any run of
    such merges, which also never add or drop a key. *)
Theorem C3_nondestructive_merge (draft : obj) (fragments : list obj) (k : string) :
  (∀ u, (field_set draft k → mergeDraft draft u false false !! k = draft !! k)
        ∧ (mergeDraft draft u false false !! k = draft !! k
           ∨ (field_empty draft k
              ∧ ∃ s, u !! k = Some (VStr s)
                     ∧ mergeDraft draft u false false !! k = Some (VStr s))))
  ∧ (field_set draft k → mergeAll draft fragments !! k = draft !! k)
  ∧ (mergeAll draft fragments !! k = draft !! k
     ∨ (field_empty draft k
        ∧ ∃ u s, u ∈ fragments ∧ u !! k = Some (VStr s)
                 ∧ mergeAll draft fragments !! k = Some (VStr s)))
  ∧ dom (mergeAll draft fragments) = dom draft.
Proof.
  repeat split.
  - intros Hset. destruct (merge_keep_step draft u k) as [E | [He _]]; [done|].
    by destruct (field_set_not_empty _ _ Hset).
  - apply merge_keep_step.
  - intros Hset. destruct (merge_keep_all draft fragments k) as [E | [He _]]; [done|].
    by destruct (field_set_not_empty _ _ Hset).
  - apply merge_keep_all.
  - apply set_eq. intros j. rewrite !elem_of_dom.
    destruct (merge_keep_all draft fragments j) as [E | ([He|He] & _ & s & _ & _ & E)];
      rewrite E; [done| |]; rewrite He; split; eauto.
Qed.

(** ** Idempotence and the keys of a merged draft *)

Lemma mergeDraft_is_Some (d u : obj) oi on k :
  is_Some (mergeDraft d u oi on !! k)
  ↔ is_Some (d !! k)
    ∨ ((oi || on) = true ∧ inherited k = true ∧ k ≠ "__proto__"
       ∧ ∃ s, u !! k = Some (VStr s)).
Proof.
  rewrite mergeDraft_lookup. destruct (u !! k) as [[|s]|] eqn:Eu.
  - cbn. split; [by left|]. intros [H | (_ & _ & _ & ? & ?)]; [done|congruence].
  - unfold merged_field. destruct (d !! k) as [c|] eqn:Ed.
    + split; [by left; eauto|]. intros _. by destruct (truthy _), (oi || on).
    + destruct (inherited k), (oi || on); cbn [andb];
        try (split; [by intros [? ?] | intros [[? ?] | (? & ? & ? & ?)]; done]).
      destruct (decide (k = "__proto__")) as [->|Hne].
      * rewrite bool_decide_eq_true_2 by done. cbn.
        split; [by intros [? ?] | intros [[? ?] | (? & ? & ? & ?)]; done].
      * rewrite bool_decide_eq_false_2 by done. cbn.
        split; [|by eauto]. intros _. right. eauto.
  - split; [by left|]. intros [H | (_ & _ & _ & ? & ?)]; [done|congruence].
Qed.

Lemma draftFields_not_inherited k : k ∈ draftFields → k ∉ ObjectPrototype.
Proof.
  unfold draftFields. rewrite !elem_of_union, !elem_of_singleton. intros Hk.
  assert (Hi : inherited k = false).
  { destruct Hk as [[[[[-> | ->] | ->] | ->] | ->] | ->]; by vm_compute. }
  intros Hp. unfold inherited in Hi. by rewrite bool_decide_eq_true_2 in Hi.
Qed.

(** The keys of a merged draft, for any object of [null] and string entries
    in the place of the fragment: [mergeDraft] is idempotent, never drops a
    key, and can add a key only when the object has an entry under a name
    the draft inherits from [Object.prototype], which the guard
    [k in draft] lets through. *)
Lemma mergeDraft_keys (draft updates : obj) (oi on : bool) :
  mergeDraft (mergeDraft draft updates oi on) updates oi on
    = mergeDraft draft updates oi on
  ∧ dom draft ⊆ dom (mergeDraft draft updates oi on)
  ∧ (∀ k, k ∈ dom (mergeDraft draft updates oi on) → k ∉ dom draft →
          (oi || on) = true ∧ k ∈ ObjectPrototype ∧ k ∈ dom updates)
  ∧ ((∀ k, k ∈ dom updates → k ∉ ObjectPrototype) →
     dom (mergeDraft draft updates oi on) = dom draft)
  ∧ (dom updates ⊆ draftFields → dom (mergeDraft draft updates oi on) = dom draft)
  ∧ ((oi || on) = false → dom (mergeDraft draft updates oi on) = dom draft).
Proof.
  assert (Hadd : ∀ k, k ∈ dom (mergeDraft draft updates oi on) → k ∉ dom draft →
            (oi || on) = true ∧ k ∈ ObjectPrototype ∧ k ∈ dom updates).
  { intros k. rewrite !elem_of_dom, mergeDraft_is_Some.
    intros [H | (Ha & Hi & _ & s & Hs)] Hn; [done|].
    split; [done|]. split; [|by eauto]. by apply bool_decide_eq_true in Hi. }
  assert (Hsub : dom draft ⊆ dom (mergeDraft draft updates oi on)).
  { intros k. rewrite !elem_of_dom, mergeDraft_is_Some. by left. }
  assert (Hclean : (∀ k, k ∈ dom updates → k ∉ ObjectPrototype) →
            dom (mergeDraft draft updates oi on) = dom draft).
  { intros Hk. apply set_eq. intros k. split; [|apply Hsub].
    intros Hin. destruct (decide (k ∈ dom draft)) as [|Hn]; [done|].
    destruct (Hadd k Hin Hn) as (_ & Hp & Hu). by destruct (Hk k Hu). }
  split; [|split; [done|split; [done|split; [done|split]]]].
  - apply map_eq. intros k. rewrite !mergeDraft_lookup.
    destruct (updates !! k); [apply merged_field_idem | done].
  - intros Hsix. apply Hclean. intros k Hk.
    by apply draftFields_not_inherited, Hsix.
  - intros Hno. apply set_eq. intros k. split; [|apply Hsub].
    intros Hin. destruct (decide (k ∈ dom draft)) as [|Hn]; [done|].
    destruct (Hadd k Hin Hn) as (Ha & _). congruence.
Qed.

Lemma dom_updatesOf (u : fragment) : dom (updatesOf u) = draftFields.
Proof.
  unfold updatesOf, draftFields. rewrite !dom_insert_L, dom_singleton_L. set_solver.
Qed.

(** C10.  [mergeDraft] is idempotent: for every draft, every fragment and
    every pair of overwrite flags, merging the same fragment a second time
    gives the draft the first merge gave.  A merge adds no key: the merged
    draft has the keys the draft had, so a draft made by [makeEmptyDraft]
    keeps exactly its six fields. *)
Theorem C10_merge_idempotent_keys (draft : obj) (u : fragment) (oi on : bool) :
  mergeDraft (mergeDraft draft (updatesOf u) oi on) (updatesOf u) oi on
    = mergeDraft draft (updatesOf u) oi on
  ∧ dom (mergeDraft draft (updatesOf u) oi on) = dom draft
  ∧ dom (mergeDraft makeEmptyDraft (updatesOf u) oi on) = draftFields.
Proof.
  assert (Hkeys : ∀ d, dom (mergeDraft d (updatesOf u) oi on) = dom d).
  { intros d. destruct (mergeDraft_keys d (updatesOf u) oi on) as (_ & _ & _ & _ & H & _).
    apply H. by rewrite dom_updatesOf. }
  split; [apply mergeDraft_keys|]. split; [apply Hkeys|].
  rewrite Hkeys. unfold makeEmptyDraft, draftFields.
  rewrite !dom_insert_L, dom_singleton_L. set_solver.
Qed.

(** The guard [k in draft] is also true of inherited names: with overwrite
    intent, an entry named [constructor] of an object that is no fragment
    would become a seventh own key of the empty draft. *)
Example guard_accepts_inherited_names :
  let merged := mergeDraft makeEmptyDraft ({[ "constructor" := VStr "x" ]}) true false in
  merged !! "constructor" = Some (VStr "x")
  ∧ makeEmptyDraft !! "constructor" = None
  ∧ ("constructor" ∉ draftFields)
  ∧ dom merged ≠ draftFields.
Proof.
  assert (Hc : "constructor" ∉ draftFields).
  { unfold draftFields. rewrite !elem_of_union, !elem_of_singleton.
    intros [[[[[H | H] | H] | H] | H] | H]; discriminate H. }
  intros merged. split; [vm_compute; reflexivity|].
  split; [vm_compute; reflexivity|]. split; [exact Hc|].
  intros E. apply Hc. rewrite <- E. apply elem_of_dom.
  exists (VStr "x"). vm_compute. reflexivity.
Qed.

(** ** Clock strings *)

Lemma match24_shape s h m : match24 s = Some (h, m) ↔ shape24 s h m.
Proof.
  unfold shape24, hourDigits, minuteDigits. split.
  - destruct s as [|h1 [|c [|m1 [|m2 [|x [|y s]]]]]]; try discriminate; cbn [match24].
    + destruct (isDigit h1) eqn:H1, (c =? 58)%N eqn:Hc, (isDigit m1) eqn:H2,
        (isDigit m2) eqn:H3; try discriminate.
      intros [= <- <-]. apply N.eqb_eq in Hc as ->.
      exists [h1], [m1; m2]. repeat split; auto; try (cbn; lia).
    + destruct (isDigit h1) eqn:H1, (isDigit c) eqn:H0, (m1 =? 58)%N eqn:Hc,
        (isDigit m2) eqn:H2, (isDigit x) eqn:H3; try discriminate.
      intros [= <- <-]. apply N.eqb_eq in Hc as ->.
      exists [h1; c], [m2; x]. repeat split; auto; try (cbn; lia).
  - intros (hd & md & -> & [Hhd Hlen] & [Hmd Hl2] & -> & ->).
    destruct md as [|m1 [|m2 [|? ?]]]; try discriminate.
    apply Forall_cons in Hmd as [Hm1 Hmd]. apply Forall_cons in Hmd as [Hm2 _].
    destruct Hlen as [Hl | Hl].
    + destruct hd as [|h1 [|? ?]]; try discriminate.
      apply Forall_cons in Hhd as [Hh1 _]. cbn. rewrite Hh1, Hm1, Hm2. cbn.
      do 2 f_equal; lia.
    + destruct hd as [|h1 [|h2 [|? ?]]]; try discriminate.
      apply Forall_cons in Hhd as [Hh1 Hhd]. apply Forall_cons in Hhd as [Hh2 _].
      cbn. rewrite Hh1, Hh2, Hm1, Hm2. cbn. do 2 f_equal; lia.
Qed.

Lemma takeHour_Some s h r :
  takeHour s = Some (h, r) → ∃ hd, s = hd ++ r ∧ hourDigits hd ∧ h = decValue hd.
Proof.
  unfold hourDigits. destruct s as [|h1 [|h2 s]]; cbn [takeHour]; [done| |].
  - destruct (isDigit h1) eqn:H1; [|done]. intros [= <- <-].
    exists [h1]. repeat split; auto.
  - destruct (isDigit h1) eqn:H1; [|done]. destruct (isDigit h2) eqn:H2; intros [= <- <-].
    + exists [h1; h2]. repeat split; auto.
    + exists [h1]. repeat split; auto.
Qed.

Lemma takeHour_app hd r :
  hourDigits hd → (∀ c r0, r = c :: r0 → isDigit c = false) →
  takeHour (hd ++ r) = Some (decValue hd, r).
Proof.
  intros [Hd [Hl | Hl]] Hr.
  - destruct hd as [|h1 [|? ?]]; try discriminate.
    apply Forall_cons in Hd as [H1 _]. destruct r as [|c r0]; cbn; rewrite H1; [done|].
    by rewrite (Hr c r0 eq_refl).
  - destruct hd as [|h1 [|h2 [|? ?]]]; try discriminate.
    apply Forall_cons in Hd as [H1 Hd]. apply Forall_cons in Hd as [H2 _].
    cbn. by rewrite H1, H2.
Qed.

Lemma takeMinutes_spec r mo r' :
  takeMinutes r = (mo, r') →
  (mo = None ∧ r' = r)
  ∨ ∃ md, r = 58%N :: md ++ r' ∧ minuteDigits md ∧ mo = Some (decValue md).
Proof.
  unfold minuteDigits. destruct r as [|c [|m1 [|m2 r]]]; cbn [takeMinutes];
    try (intros [= <- <-]; by left).
  destruct (c =? 58)%N eqn:Hc, (isDigit m1) eqn:H1, (isDigit m2) eqn:H2; cbn [andb];
    try (intros [= <- <-]; by left).
  intros [= <- <-]. apply N.eqb_eq in Hc as ->. right.
  exists [m1; m2]. repeat split; auto.
Qed.

Lemma takeMinutes_none r :
  (∀ c r0, r = c :: r0 → c ≠ 58%N) → takeMinutes r = (None, r).
Proof.
  intros Hr. destruct r as [|c [|m1 [|m2 r]]]; cbn [takeMinutes]; try done.
  destruct (N.eqb_spec c 58) as [->|Hne]; [|done].
  by destruct (Hr _ _ eq_refl).
Qed.

Lemma takeMinutes_some md r :
  minuteDigits md → takeMinutes (58%N :: md ++ r) = (Some (decValue md), r).
Proof.
  intros [Hd Hl]. destruct md as [|m1 [|m2 [|? ?]]]; try discriminate.
  apply Forall_cons in Hd as [H1 Hd]. apply Forall_cons in Hd as [H2 _].
  cbn. by rewrite H1, H2.
Qed.

Lemma trimStart_split s :
  ∃ ws, s = ws ++ trimStart s ∧ Forall (λ c, isSpace c = true) ws.
Proof.
  induction s as [|c s (ws & E & Hws)]; [by exists []|].
  cbn [trimStart]. destruct (isSpace c) eqn:Hc.
  - exists (c :: ws). split; [by cbn; f_equal | by constructor].
  - by exists [].
Qed.

Lemma trimStart_app ws r :
  Forall (λ c, isSpace c = true) ws →
  (∀ c r0, r = c :: r0 → isSpace c = false) →
  trimStart (ws ++ r) = r.
Proof.
  intros Hws Hr. induction Hws as [|c ws Hc _ IH]; cbn.
  - destruct r as [|c r0]; [done|]. cbn. by rewrite (Hr c r0 eq_refl).
  - by rewrite Hc.
Qed.

Lemma takePeriod_spec sfx p : takePeriod sfx = Some p ↔ isSuffix p sfx.
Proof.
  unfold isSuffix. split.
  - destruct sfx as [|a [|m [|? ?]]]; cbn [takePeriod]; try done.
    repeat case_bool_decide; try done; intros [= <-]; exists a, m; by repeat split.
  - intros (a & m & -> & Hm & Ha). cbn [takePeriod].
    rewrite (bool_decide_eq_true_2 _ Hm).
    destruct p.
    + by rewrite (bool_decide_eq_true_2 _ Ha).
    + rewrite bool_decide_eq_false_2 by (intros [? | ?]; destruct Ha; subst; done).
      by rewrite (bool_decide_eq_true_2 _ Ha).
Qed.

Lemma suffix_head p sfx c r0 :
  isSuffix p sfx → sfx = c :: r0 →
  isDigit c = false ∧ isSpace c = false ∧ c ≠ 58%N.
Proof.
  intros (a & m & -> & _ & Ha) [= <- _].
  destruct p, Ha as [-> | ->]; by vm_compute.
Qed.

Lemma space_head c : isSpace c = true → isDigit c = false ∧ c ≠ 58%N.
Proof.
  intros Hc. split; [|by intros ->].
  unfold isDigit. destruct (N.leb_spec 48 c), (N.leb_spec c 57); try done.
  exfalso.
  assert (Hd : (c = 48 ∨ c = 49 ∨ c = 50 ∨ c = 51 ∨ c = 52 ∨ c = 53 ∨ c = 54
                ∨ c = 55 ∨ c = 56 ∨ c = 57)%N) by lia.
  repeat (destruct Hd as [-> | Hd]; [by vm_compute in Hc|]).
  subst c. by vm_compute in Hc.
Qed.

Lemma match12_shape s h m p : match12 s = Some (h, m, p) ↔ shape12 s h m p.
Proof.
  unfold match12, shape12. split.
  - destruct (takeHour s) as [[hh r]|] eqn:Hh; [|done].
    destruct (takeMinutes r) as [mo r'] eqn:Hm.
    destruct (takePeriod (trimStart r')) as [q|] eqn:Hp; [|done].
    intros [= <- <- <-].
    apply takeHour_Some in Hh as (hd & -> & Hhd & ->).
    destruct (trimStart_split r') as (ws & Er & Hws).
    apply takePeriod_spec in Hp.
    apply takeMinutes_spec in Hm as [[-> <-] | (md & -> & Hmd & ->)].
    + exists hd, [], ws, (trimStart r'). cbn [app]. rewrite <- Er.
      do 3 (split; [done|]). split; [by left | done].
    + exists hd, (58%N :: md), ws, (trimStart r').
      split; [cbn [app]; by rewrite <- Er|]. do 2 (split; [done|]).
      split; [right; by exists md | done].
  - intros (hd & mins & ws & sfx & -> & Hhd & -> & Hmins & Hws & Hsfx).
    assert (Hrest : ∀ c r0, ws ++ sfx = c :: r0 →
              isDigit c = false ∧ isSpace c = false ∨ isSpace c = true).
    { intros c r0. destruct Hws as [|w ws Hw _]; cbn.
      - intros E. left. by destruct (suffix_head p sfx c r0 Hsfx E) as (? & ? & ?).
      - intros [= <- _]. by right. }
    assert (Hrest58 : ∀ c r0, ws ++ sfx = c :: r0 → isDigit c = false ∧ c ≠ 58%N).
    { intros c r0. destruct Hws as [|w ws Hw _]; cbn.
      - intros E. by destruct (suffix_head p sfx c r0 Hsfx E) as (? & ? & ?).
      - intros [= <- _]. by apply space_head. }
    assert (Htrim : trimStart (ws ++ sfx) = sfx).
    { apply trimStart_app; [done|]. intros c r0 E.
      by destruct (suffix_head p sfx c r0 Hsfx E) as (? & ? & ?). }
    destruct Hmins as [[-> ->] | (md & -> & Hmd & ->)].
    + rewrite takeHour_app; [|done|]; cbn [app].
      * rewrite takeMinutes_none by (intros c r0 E; by destruct (Hrest58 c r0 E)).
        rewrite Htrim. by rewrite (proj2 (takePeriod_spec sfx p) Hsfx).
      * intros c r0 E. by destruct (Hrest58 c r0 E).
    + rewrite takeHour_app; [|done|].
      * cbn [app]. rewrite takeMinutes_some by done.
        rewrite Htrim. by rewrite (proj2 (takePeriod_spec sfx p) Hsfx).
      * by intros c r0 [= <- _].
Qed.

Lemma in_range_below (n : nat) (x : N) : (x < N.of_nat n)%N → In x (N.of_nat <$> seq 0 n).
Proof.
  intros Hx. apply list_elem_of_In, list_elem_of_fmap. exists (N.to_nat x).
  split; [by rewrite N2Nat.id|]. apply elem_of_seq. lia.
Qed.

Lemma hhmm_canonical h m : (h <= 23)%N → (m <= 59)%N → isCanonical (hhmm h m) = true.
Proof.
  intros Hh Hm.
  assert (Hall : forallb (λ x, forallb (λ y, isCanonical (hhmm x y))
                                       (N.of_nat <$> seq 0 60))
                         (N.of_nat <$> seq 0 24) = true) by (vm_compute; reflexivity).
  rewrite forallb_forall in Hall.
  specialize (Hall h (in_range_below 24 h ltac:(lia))).
  rewrite forallb_forall in Hall.
  apply Hall, in_range_below. lia.
Qed.

Lemma shape24_ends_with_digit s h m :
  shape24 s h m → ∃ c, last s = Some c ∧ isDigit c = true.
Proof.
  intros (hd & md & -> & _ & [Hmd Hl] & _).
  destruct md as [|m1 [|m2 [|? ?]]]; try discriminate.
  apply Forall_cons in Hmd as [_ Hmd]. apply Forall_cons in Hmd as [H2 _].
  exists m2. split; [|done]. by rewrite !last_app.
Qed.

Lemma shape12_ends_with_letter s h m p :
  shape12 s h m p → ∃ c, last s = Some c ∧ isDigit c = false.
Proof.
  intros (hd & mins & ws & sfx & -> & _ & _ & _ & _ & (a & c & -> & Hc & _)).
  exists c. split; [by rewrite !last_app|]. by destruct Hc as [-> | ->].
Qed.

Lemma shape12_not_shape24 s h m p : shape12 s h m p → match24 s = None.
Proof.
  intros H12. destruct (match24 s) as [[h' m']|] eqn:E; [|done].
  apply match24_shape, shape24_ends_with_digit in E as (c & Ec & Hc).
  apply shape12_ends_with_letter in H12 as (c' & Ec' & Hc'). congruence.
Qed.

Lemma normalizeTime_spec t r :
  normalizeTime t = Some r
  ↔ accepts24 (replaceDots (trim t)) r ∨ accepts12 (replaceDots (trim t)) r.
Proof.
  unfold accepts24, accepts12.
  destruct t as [|c0 t0]; [split; [done|] |].
  { intros [(h & m & H & _) | (h & m & p & H & _)].
    - apply shape24_ends_with_digit in H as (? & ? & _). done.
    - apply shape12_ends_with_letter in H as (? & ? & _). done. }
  cbn [normalizeTime]. set (s := replaceDots (trim (c0 :: t0))).
  assert (H12 : match match12 s with
                | Some (h, m, p) =>
                    let mm := default 0%N m in
                    let hh := match p with
                              | PM => if negb (h =? 12)%N then (h + 12)%N else h
                              | AM => if (h =? 12)%N then 0%N else h
                              end in
                    if ((hh <=? 23) && (mm <=? 59))%N then Some (hhmm hh mm) else None
                | None => None
                end = Some r
                ↔ ∃ h m p, shape12 s h m p ∧ (to24 h p <= 23)%N
                           ∧ (default 0%N m <= 59)%N
                           ∧ r = hhmm (to24 h p) (default 0%N m)).
  { assert (Hconv : ∀ h p, match p with
                           | PM => if negb (h =? 12)%N then (h + 12)%N else h
                           | AM => if (h =? 12)%N then 0%N else h
                           end = to24 h p).
    { intros h []; unfold to24; destruct (N.eqb_spec h 12) as [->|Hne]; cbn;
        by rewrite ?bool_decide_eq_true_2, ?bool_decide_eq_false_2 by done. }
    split.
    - destruct (match12 s) as [[[h m] p]|] eqn:E; [|done]. cbn zeta. rewrite Hconv.
      destruct (N.leb_spec (to24 h p) 23), (N.leb_spec (default 0%N m) 59);
        cbn [andb]; try done.
      intros [= <-]. exists h, m, p. by rewrite <- match12_shape.
    - intros (h & m & p & Hs & Hh & Hm & ->). apply match12_shape in Hs as ->.
      cbn zeta. rewrite Hconv.
      by rewrite (proj2 (N.leb_le _ _) Hh), (proj2 (N.leb_le _ _) Hm). }
  destruct (match24 s) as [[h m]|] eqn:E24.
  - destruct (N.leb_spec h 23), (N.leb_spec m 59); cbn [andb].
    + split.
      * intros [= <-]. left. exists h, m. by rewrite <- match24_shape.
      * intros [(h' & m' & Hs & _ & _ & ->) | (h' & m' & p & Hs & _)].
        -- apply match24_shape in Hs. congruence.
        -- apply shape12_not_shape24 in Hs. congruence.
    + rewrite H12. split; [by right|].
      intros [(h' & m' & Hs & ? & ? & _) | ?]; [|done].
      apply match24_shape in Hs. simplify_eq. lia.
    + rewrite H12. split; [by right|].
      intros [(h' & m' & Hs & ? & ? & _) | ?]; [|done].
      apply match24_shape in Hs. simplify_eq. lia.
    + rewrite H12. split; [by right|].
      intros [(h' & m' & Hs & ? & ? & _) | ?]; [|done].
      apply match24_shape in Hs. simplify_eq. lia.
  - rewrite H12. split; [by right|].
    intros [(h' & m' & Hs & _) | ?]; [|done].
    apply match24_shape in Hs. congruence.
Qed.

Lemma normalizeTime_v2_spec t r :
  normalizeTime_v2 t = Some r ↔ accepts24 (trim t) r.
Proof.
  unfold accepts24. destruct t as [|c0 t0].
  { split; [done|]. intros (h & m & H & _).
    apply shape24_ends_with_digit in H as (? & ? & _). done. }
  cbn [normalizeTime_v2]. set (s := trim (c0 :: t0)).
  destruct (match24 s) as [[h m]|] eqn:E24.
  - destruct (N.ltb_spec 23 h), (N.ltb_spec 59 m); cbn [orb];
      try (split; [done|]; intros (h' & m' & Hs & ? & ? & _);
           apply match24_shape in Hs; simplify_eq; lia).
    split.
    + intros [= <-]. exists h, m. by rewrite <- match24_shape.
    + intros (h' & m' & Hs & _ & _ & ->). apply match24_shape in Hs. congruence.
  - split; [done|]. intros (h' & m' & Hs & _). apply match24_shape in Hs. congruence.
Qed.

Lemma accepts24_canonical s r : accepts24 s r → isCanonical r = true.
Proof. intros (h & m & _ & Hh & Hm & ->). by apply hhmm_canonical. Qed.

Lemma accepts12_canonical s r : accepts12 s r → isCanonical r = true.
Proof. intros (h & m & p & _ & Hh & Hm & ->). by apply hhmm_canonical. Qed.

(** C8 (as amended).  Both listings of [normalizeTime] are total and return
    [null] or a canonical [HH:MM] string, and both accept [H:MM] and
    [HH:MM] with hour at most 23 and minute at most 59 and nothing out of
    that range.  The first listing also reads [.] as [:] and accepts the
    12-hour shapes (hour, optional minutes, optional blanks, [am]/[pm] in
    any case) whose converted hour is at most 23, and returns [null] for
    every other text; the second listing returns [null] for every text that is
    not [H:MM] or [HH:MM], the dotted and the 12-hour forms included. *)
Theorem C8_normalizeTime_variants :
  (∀ t, (normalizeTime t = None ∨ ∃ r, normalizeTime t = Some r ∧ isCanonical r = true)
        ∧ (normalizeTime_v2 t = None
           ∨ ∃ r, normalizeTime_v2 t = Some r ∧ isCanonical r = true))
  ∧ (∀ t r, normalizeTime t = Some r
            ↔ accepts24 (replaceDots (trim t)) r ∨ accepts12 (replaceDots (trim t)) r)
  ∧ (∀ t r, normalizeTime_v2 t = Some r ↔ accepts24 (trim t) r)
  ∧ (normalizeTime ∘ units) <$>
      ["9:00"; "09:00"; "9am"; "9:00am"; "9.00am"; "12am"; "12pm"; "6:30pm";
       "6:30 pm"; "9 AM"; "6.30"; "23:59"]
    = [Some "09:00"; Some "09:00"; Some "09:00"; Some "09:00"; Some "09:00";
       Some "00:00"; Some "12:00"; Some "18:30"; Some "18:30"; Some "09:00";
       Some "06:30"; Some "23:59"]
  ∧ (normalizeTime ∘ units) <$> ["25:00"; "13pm"; "abc"; "24:00"; "12:60"; "9:5"; ""]
    = [None; None; None; None; None; None; None]
  ∧ (normalizeTime_v2 ∘ units) <$>
      ["9:00"; "09:00"; "23:59"; "9am"; "9.00am"; "12pm"; "6:30pm"; "6.30";
       "25:00"; "13pm"; "abc"]
    = [Some "09:00"; Some "09:00"; Some "23:59"; None; None; None; None; None;
       None; None; None].
Proof.
  split; [|split; [apply normalizeTime_spec|split; [apply normalizeTime_v2_spec|]]].
  - intros t. split.
    + destruct (normalizeTime t) as [r|] eqn:E; [right|by left].
      exists r. split; [done|].
      apply normalizeTime_spec in E as [H|H];
        [by eapply accepts24_canonical | by eapply accepts12_canonical].
    + destruct (normalizeTime_v2 t) as [r|] eqn:E; [right|by left].
      exists r. split; [done|].
      apply normalizeTime_v2_spec in E. by eapply accepts24_canonical.
  - repeat split; vm_compute; reflexivity.
Qed.

(** C8, the claim as it was stated: the second listing of [normalizeTime]
    has no 12-hour branch and no dot substitution. *)
Lemma C8_second_listing_rejects_12_hour :
  normalizeTime_v2 (units "9am") = None
  ∧ normalizeTime_v2 (units "6:30pm") = None
  ∧ normalizeTime_v2 (units "9.00am") = None
  ∧ normalizeTime (units "9am") = Some "09:00".
Proof. repeat split; vm_compute; reflexivity. Qed.

(** ** Conflict detection *)

Lemma foldl_push {A B} (f : A → bool) (g : A → B) (l : list A) (acc : list B) :
  foldl (λ acc x, if f x then acc ++ [g x] else acc) acc l
  = acc ++ (g <$> filter (λ x, Is_true (f x)) l).
Proof.
  revert acc. induction l as [|x l IH]; intros acc; cbn [foldl].
  - by rewrite app_nil_r.
  - rewrite IH, filter_cons. destruct (f x).
    + rewrite decide_True by done. cbn. by rewrite <- app_assoc.
    + by rewrite decide_False by (by intros []).
Qed.

Lemma windowEnd_interval st en s :
  timeToMinutes st = Some s →
  ∀ e, windowEnd st en = Some e ↔ interval st en s e.
Proof.
  intros Hs e. unfold windowEnd, interval, nonEmpty. rewrite Hs. cbn.
  destruct en as [x|].
  - destruct (decide (x = "")) as [->|Hne].
    + cbn. split.
      * intros [= <-]. split; [done|]. by right.
      * intros [_ [(y & [= <-] & Hy & _) | [_ ->]]]; done.
    + rewrite bool_decide_eq_false_2 by done. cbn. split.
      * intros He. split; [done|]. left. by exists x.
      * intros [_ [(y & [= <-] & _ & Hy) | [? _]]]; done.
  - split.
    + intros [= <-]. split; [done|]. by right.
    + intros [_ [(y & ? & _) | [_ ->]]]; done.
Qed.

Lemma windows_overlap_spec st en os oe :
  num_lt (windowStart st) (windowEnd os oe) && num_lt (windowStart os) (windowEnd st en)
    = true
  ↔ overlapping st en os oe.
Proof.
  unfold overlapping, windowStart. rewrite andb_true_iff. split.
  - intros [H1 H2].
    destruct (timeToMinutes st) as [cs|] eqn:Ecs; [|done].
    destruct (windowEnd os oe) as [oend|] eqn:Eoe; [|done].
    destruct (timeToMinutes os) as [ostart|] eqn:Eos; [|done].
    destruct (windowEnd st en) as [ce|] eqn:Ece; [|done].
    cbn in H1, H2. apply bool_decide_eq_true in H1, H2.
    exists cs, ce, ostart, oend.
    rewrite <- (windowEnd_interval st en cs Ecs), <- (windowEnd_interval os oe ostart Eos).
    done.
  - intros (cs & ce & ostart & oend & Hc & Ho & H1 & H2).
    pose proof Hc as [Ecs _]. pose proof Ho as [Eos _].
    apply (windowEnd_interval st en cs Ecs) in Hc.
    apply (windowEnd_interval os oe ostart Eos) in Ho.
    rewrite Ecs, Eos, Hc, Ho. cbn. by rewrite !bool_decide_eq_true_2.
Qed.

Section ConflictProperties.
Variable getDay : string → option Z.

Lemma checkConflicts_unfold db chatId date st endTime :
  st ≠ "" →
  checkConflicts getDay db chatId date (Some st) endTime
  = (ConflictEvent <$>
       filter (λ e, Is_true
                 (num_lt (windowStart st)
                    (windowEnd (default "" (e_start_time e)) (e_end_time e))
                  && num_lt (windowStart (default "" (e_start_time e)))
                       (windowEnd st endTime)))
         (filter (λ e, e_chat_id e = chatId ∧ e_date e = date
                       ∧ is_Some (e_start_time e)) (events db)))
    ++ ((λ c, ConflictClass c date) <$>
          filter (λ c, Is_true
                    (num_lt (windowStart st) (timeToMinutes (c_end_time c))
                     && num_lt (timeToMinutes (c_start_time c)) (windowEnd st endTime)))
            (getSchoolTimetableForDate getDay db chatId date)).
Proof.
  intros Hst. unfold checkConflicts. rewrite bool_decide_eq_false_2 by done.
  cbv zeta.
  rewrite (foldl_push
             (λ c, num_lt (windowStart st) (timeToMinutes (c_end_time c))
                   && num_lt (timeToMinutes (c_start_time c)) (windowEnd st endTime))
             (λ c, ConflictClass c date)).
  f_equal.
  by rewrite (foldl_push
             (λ e, num_lt (windowStart st)
                     (windowEnd (default "" (e_start_time e)) (e_end_time e))
                   && num_lt (windowStart (default "" (e_start_time e)))
                        (windowEnd st endTime))
             ConflictEvent).
Qed.

Lemma class_window_spec st en (c : class_entry) :
  num_lt (windowStart st) (timeToMinutes (c_end_time c))
  && num_lt (timeToMinutes (c_start_time c)) (windowEnd st en) = true
  ↔ ∃ cs ce os oe, interval st en cs ce
                   ∧ timeToMinutes (c_start_time c) = Some os
                   ∧ timeToMinutes (c_end_time c) = Some oe
                   ∧ (cs < oe)%Z ∧ (os < ce)%Z.
Proof.
  unfold windowStart. rewrite andb_true_iff. split.
  - intros [H1 H2].
    destruct (timeToMinutes st) as [cs|] eqn:Ecs; [|done].
    destruct (timeToMinutes (c_end_time c)) as [oe|]; [|done].
    destruct (timeToMinutes (c_start_time c)) as [os|]; [|done].
    destruct (windowEnd st en) as [ce|] eqn:Ece; [|done].
    cbn in H1, H2. apply bool_decide_eq_true in H1, H2.
    exists cs, ce, os, oe. by rewrite <- (windowEnd_interval st en cs Ecs).
  - intros (cs & ce & os & oe & Hc & -> & -> & H1 & H2).
    pose proof Hc as [Ecs _]. apply (windowEnd_interval st en cs Ecs) in Hc.
    rewrite Ecs, Hc. cbn. by rewrite !bool_decide_eq_true_2.
Qed.

(** C1.  Without a candidate start time there is no conflict.  With one,
    an event of the conversation on that date that has a start time is
    reported exactly when its window and the candidate's overlap strictly
    (candidate start before the other end, other start before the
    candidate end), an absent end time on either side standing for start
    plus 60 minutes; a timetable entry of that weekday is reported under
    the same test with its own two times.  A window that ends at 11:00
    does not collide with one that starts at 11:00. *)
Theorem C1_checkConflicts (db : database) (chatId : Z) (date : string) :
  (∀ endTime, checkConflicts getDay db chatId date None endTime = []
              ∧ checkConflicts getDay db chatId date (Some "") endTime = [])
  ∧ (∀ st endTime e, st ≠ "" →
       ConflictEvent e ∈ checkConflicts getDay db chatId date (Some st) endTime
       ↔ e ∈ events db ∧ e_chat_id e = chatId ∧ e_date e = date
         ∧ ∃ es, e_start_time e = Some es
                 ∧ overlapping st endTime es (e_end_time e))
  ∧ (∀ st endTime c d, st ≠ "" →
       ConflictClass c d ∈ checkConflicts getDay db chatId date (Some st) endTime
       ↔ d = date ∧ c ∈ school_timetable db ∧ c_chat_id c = chatId
         ∧ getDay date = Some (c_day_of_week c)
         ∧ overlapping st endTime (c_start_time c) (Some (c_end_time c))
         ∧ c_end_time c ≠ "")
  ∧ (overlapping "10:00" (Some "11:00") "10:30" (Some "10:45")
     ∧ overlapping "10:30" (Some "10:45") "10:00" (Some "11:00")
     ∧ ¬ overlapping "10:00" (Some "11:00") "11:00" None
     ∧ ¬ overlapping "11:00" None "10:00" (Some "11:00")
     ∧ overlapping "10:00" None "10:59" None).
Proof.
  split; [done|]. split; [|split].
  - intros st endTime e Hst. rewrite checkConflicts_unfold by done.
    rewrite elem_of_app, !list_elem_of_fmap. split.
    + intros [(e' & [= <-] & He) | (c & ? & _)]; [|done].
      apply list_elem_of_filter in He as [Hov He].
      apply list_elem_of_filter in He as [(Hc & Hd & [es Hes]) He].
      repeat split; try done. exists es. split; [done|].
      apply Is_true_true in Hov. rewrite Hes in Hov. by apply windows_overlap_spec.
    + intros (He & Hc & Hd & es & Hes & Hov). left. exists e. split; [done|].
      apply list_elem_of_filter. split.
      * apply Is_true_true. rewrite Hes. by apply windows_overlap_spec.
      * apply list_elem_of_filter. by eauto.
  - intros st endTime c d Hst. rewrite checkConflicts_unfold by done.
    rewrite elem_of_app, !list_elem_of_fmap.
    unfold getSchoolTimetableForDate. split.
    + intros [(e' & ? & _) | (c' & [= Ec Ed] & Hc)]; [done|]. subst c' d.
      apply list_elem_of_filter in Hc as [Hov Hc].
      destruct (getDay date) as [dow|] eqn:Eday; [|by apply elem_of_nil in Hc].
      rewrite merge_sort_Permutation in Hc.
      apply list_elem_of_filter in Hc as [[Hchat Hdow] Hc].
      apply Is_true_true, class_window_spec in Hov
        as (cs & ce & os & oe & Hint & Hos & Hoe & H1 & H2).
      assert (Hne : c_end_time c ≠ "") by (intros E; by rewrite E in Hoe).
      repeat split; try done; [congruence|].
      exists cs, ce, os, oe. split; [done|]. split; [|done]. split; [done|].
      left. by exists (c_end_time c).
    + intros (Hd & Hc & Hchat & Hday & (cs & ce & os & oe & Hint & [Hos Hoe] & H1 & H2)
              & Hne).
      subst d. right. exists c. split; [done|]. apply list_elem_of_filter. split.
      * apply Is_true_true, class_window_spec. exists cs, ce, os, oe.
        split; [done|]. split; [done|]. split; [|done].
        destruct Hoe as [(en & [= <-] & _ & Hen) | [Hno _]]; [done|].
        cbn in Hno. by rewrite bool_decide_eq_false_2 in Hno.
      * rewrite Hday, merge_sort_Permutation. apply list_elem_of_filter. by eauto.
  - assert (Hyes : ∀ a b c d, num_lt (windowStart a) (windowEnd c d)
                              && num_lt (windowStart c) (windowEnd a b) = true
                              → overlapping a b c d)
      by (intros; by apply windows_overlap_spec).
    assert (Hno : ∀ a b c d, num_lt (windowStart a) (windowEnd c d)
                             && num_lt (windowStart c) (windowEnd a b) = false
                             → ¬ overlapping a b c d).
    { intros a b c d E H. apply windows_overlap_spec in H. congruence. }
    repeat split; (apply Hyes || apply Hno); vm_compute; reflexivity.
Qed.
End ConflictProperties.

(** ** Pruning *)

Lemma pruneExpiredDrafts_lookup t (sessions : gmap Z session) chatId :
  pruneExpiredDrafts t sessions !! chatId = sessions !! chatId ≫= pruneSession t.
Proof. unfold pruneExpiredDrafts. apply lookup_omap. Qed.

Lemma pruneSession_Some t s s' :
  pruneSession t s = Some s' →
  s' = set_drafts s (filter (fresh_at t) (drafts s)).
Proof. unfold pruneSession. case_match; congruence. Qed.

Lemma pruneSession_None t s :
  pruneSession t s = None
  ↔ filter (fresh_at t) (drafts s) = [] ∧ (t - updatedAt s > DRAFT_TTL_MS)%Z.
Proof.
  unfold pruneSession. cbn [drafts updatedAt set_drafts].
  destruct (filter (fresh_at t) (drafts s)) as [|d ds] eqn:E; cbn [length].
  - rewrite bool_decide_eq_true_2 by done. cbn [andb].
    case_bool_decide as Hidle.
    + by split.
    + split; [done|]. by intros [_ ?].
  - rewrite bool_decide_eq_false_2 by done. cbn [andb].
    split; [done|]. by intros [? _].
Qed.

Lemma survives_prune t (sessions : gmap Z session) chatId s d :
  sessions !! chatId = Some s → d ∈ drafts s →
  survives (pruneExpiredDrafts t sessions) chatId d ↔ fresh_at t d.
Proof.
  intros Hs Hd. unfold survives. rewrite pruneExpiredDrafts_lookup, Hs. cbn. split.
  - intros (s' & Hp & Hin). apply pruneSession_Some in Hp as ->.
    cbn in Hin. by apply list_elem_of_filter in Hin as [? _].
  - intros Hf.
    assert (Hin : d ∈ filter (fresh_at t) (drafts s)) by (by apply list_elem_of_filter).
    destruct (pruneSession t s) as [s'|] eqn:Hp.
    + exists s'. split; [done|]. apply pruneSession_Some in Hp as ->. done.
    + apply pruneSession_None in Hp as [E _]. rewrite E in Hin.
      by apply elem_of_nil in Hin.
Qed.

(** C5.  A prune pass at time [t] removes a collecting draft exactly when
    [t - updatedAt] exceeds 90 seconds and a draft awaiting confirmation
    exactly when it exceeds 5 minutes. *)
Theorem C5_prune_ttl (t : Z) (sessions : gmap Z session) (chatId : Z)
    (s : session) (d : draftObj) :
  sessions !! chatId = Some s → d ∈ drafts s →
  (d_state d = collecting →
     (¬ survives (pruneExpiredDrafts t sessions) chatId d
        ↔ (t - d_updatedAt d > 90 * 1000)%Z)
     ∧ (survives (pruneExpiredDrafts t sessions) chatId d
        ↔ (t - d_updatedAt d <= 90 * 1000)%Z))
  ∧ (d_state d = awaiting_confirm →
       (¬ survives (pruneExpiredDrafts t sessions) chatId d
          ↔ (t - d_updatedAt d > 5 * 60 * 1000)%Z)
       ∧ (survives (pruneExpiredDrafts t sessions) chatId d
          ↔ (t - d_updatedAt d <= 5 * 60 * 1000)%Z)).
Proof.
  intros Hs Hd. rewrite (survives_prune t sessions chatId s d Hs Hd).
  unfold fresh_at, ttl, DRAFT_TTL_MS, CONFIRM_TTL_MS.
  split; intros ->; split; lia.
Qed.

(** C5 at work: after 91 idle seconds the collecting draft is gone and the
    draft awaiting confirmation is still there. *)
Lemma C5_prune_ttl_91_seconds :
  let dc := {| d_id := "1"; d_draft := makeEmptyDraft; d_state := collecting;
               d_updatedAt := 0; d_overwriteNext := false |} in
  let da := {| d_id := "2"; d_draft := makeEmptyDraft; d_state := awaiting_confirm;
               d_updatedAt := 0; d_overwriteNext := false |} in
  let s := {| drafts := [dc; da]; updatedAt := 0; editingEventId := None;
              editingField := None; addingClass := false |} in
  ¬ survives (pruneExpiredDrafts 91000 ({[ 5%Z := s ]})) 5 dc
  ∧ survives (pruneExpiredDrafts 91000 ({[ 5%Z := s ]})) 5 da.
Proof.
  intros dc da s.
  assert (Hs : ({[ 5%Z := s ]} : gmap Z session) !! 5%Z = Some s)
    by apply lookup_singleton_eq.
  split.
  - apply (proj1 (C5_prune_ttl 91000 ({[ 5%Z := s ]}) 5 s dc Hs
                    ltac:(subst s; cbn; apply list_elem_of_here))).
    + reflexivity.
    + cbn. lia.
  - apply (proj2 (C5_prune_ttl 91000 ({[ 5%Z := s ]}) 5 s da Hs
                    ltac:(subst s; cbn; apply list_elem_of_further, list_elem_of_here))).
    + reflexivity.
    + cbn. lia.
Defined.

Lemma pruneAll_lookup_Some ts : ∀ (sessions : gmap Z session) chatId s',
  pruneAll ts sessions !! chatId = Some s' →
  ∃ s, sessions !! chatId = Some s
       ∧ editingEventId s' = editingEventId s ∧ editingField s' = editingField s
       ∧ addingClass s' = addingClass s ∧ updatedAt s' = updatedAt s.
Proof.
  induction ts as [|t ts IH]; intros sessions chatId s' H.
  - exists s'. by repeat split.
  - cbn [pruneAll foldl] in H. apply IH in H as (s1 & H1 & E1 & E2 & E3 & E4).
    rewrite pruneExpiredDrafts_lookup in H1.
    destruct (sessions !! chatId) as [s|]; [|done]. cbn in H1.
    apply pruneSession_Some in H1 as ->. exists s. by repeat split.
Qed.

Lemma pruneAll_recent ts : ∀ (sessions : gmap Z session) chatId s,
  sessions !! chatId = Some s →
  Forall (λ t, t - updatedAt s <= DRAFT_TTL_MS)%Z ts →
  is_Some (pruneAll ts sessions !! chatId).
Proof.
  induction ts as [|t ts IH]; intros sessions chatId s Hs Hts; [by eauto|].
  apply Forall_cons in Hts as [Ht Hts]. cbn [pruneAll foldl].
  destruct (pruneSession t s) as [s1|] eqn:Hp.
  - apply (IH _ chatId s1).
    + by rewrite pruneExpiredDrafts_lookup, Hs.
    + apply pruneSession_Some in Hp as ->. done.
  - apply pruneSession_None in Hp as [_ ?]. lia.
Qed.

(** C6 (as amended).  A prune pass never changes the edit pointer, the
    intake flag or the activity stamp of a session it keeps, and leaves it
    exactly the drafts that are not stale; the same holds after any run of
    passes.  It keeps every session that still has a live draft or was
    active within the last 90 seconds, and deletes a session with no live
    draft that has been idle longer, whatever pointer or flag it holds. *)
Theorem C6_prune_frame (t : Z) (ts : list Z) (sessions : gmap Z session)
    (chatId : Z) (s : session) :
  sessions !! chatId = Some s →
  (∀ s', pruneExpiredDrafts t sessions !! chatId = Some s' →
         editingEventId s' = editingEventId s ∧ editingField s' = editingField s
         ∧ addingClass s' = addingClass s ∧ updatedAt s' = updatedAt s
         ∧ drafts s' = filter (fresh_at t) (drafts s))
  ∧ (pruneExpiredDrafts t sessions !! chatId = None
     ↔ filter (fresh_at t) (drafts s) = [] ∧ (t - updatedAt s > 90 * 1000)%Z)
  ∧ (∀ s', pruneAll ts sessions !! chatId = Some s' →
           editingEventId s' = editingEventId s ∧ editingField s' = editingField s
           ∧ addingClass s' = addingClass s)
  ∧ (Forall (λ t', t' - updatedAt s <= 90 * 1000)%Z ts →
     is_Some (pruneAll ts sessions !! chatId)).
Proof.
  intros Hs. split; [|split; [|split]].
  - intros s'. rewrite pruneExpiredDrafts_lookup, Hs. cbn.
    intros H. by apply pruneSession_Some in H as ->.
  - rewrite pruneExpiredDrafts_lookup, Hs. cbn. apply pruneSession_None.
  - intros s' H. apply pruneAll_lookup_Some in H as (s0 & H0 & ? & ? & ? & _).
    rewrite Hs in H0. by simplify_eq.
  - by apply pruneAll_recent.
Qed.

(** C6 at work: a session with an edit pointer, touched at time 0 and pruned
    at 30 and 60 seconds, is still there, so it still has its pointer. *)
Lemma C6_prune_frame_recent_session :
  let s := {| drafts := []; updatedAt := 0; editingEventId := Some 7%Z;
              editingField := Some "title"; addingClass := false |} in
  is_Some (pruneAll [30000; 60000]%Z ({[ 1%Z := s ]}) !! 1%Z).
Proof.
  intros s.
  apply (proj2 (proj2 (proj2
           (C6_prune_frame 0 [30000; 60000]%Z ({[ 1%Z := s ]}) 1 s
              (lookup_singleton_eq 1%Z s))))).
  repeat constructor; cbn; lia.
Defined.

(** C6, the claim as it was stated: a session that holds an edit pointer (or
    the intake flag), has no draft and has been idle for more than 90
    seconds is deleted by the pass, and the session [getSession] then
    creates holds neither. *)
Lemma C6_idle_session_loses_pointer :
  let s := {| drafts := []; updatedAt := 0; editingEventId := Some 7%Z;
              editingField := Some "title"; addingClass := true |} in
  let pruned := pruneExpiredDrafts 90001 ({[ 1%Z := s ]}) in
  pruned !! 1%Z = None
  ∧ editingEventId (snd (getSession 90001 pruned 1)) = None
  ∧ editingField (snd (getSession 90001 pruned 1)) = None
  ∧ addingClass (snd (getSession 90001 pruned 1)) = false.
Proof.
  intros s pruned.
  assert (H : pruned !! 1%Z = None).
  { unfold pruned. rewrite pruneExpiredDrafts_lookup, lookup_singleton_eq. reflexivity. }
  split; [exact H|]. unfold getSession. rewrite H. by repeat split.
Qed.

(** ** The completeness check of the merge path *)

Lemma findActive_Some ds i :
  findActive ds = Some i → ∃ d, ds !! i = Some d ∧ d_state d = collecting.
Proof.
  revert i. induction ds as [|d ds IH]; intros i; cbn [findActive]; [done|].
  destruct (findActive ds) as [j|].
  - intros [= <-]. destruct (IH j eq_refl) as (d' & ? & ?). by exists d'.
  - case_bool_decide; [|done]. intros [= <-]. by exists d.
Qed.

Lemma locateActive_spec now ds :
  ∃ d, (locateActive now ds).1 !! (locateActive now ds).2 = Some d
       ∧ d_state d = collecting
       ∧ (d = newDraftObj now ∨ d ∈ ds)
       ∧ ∀ j x, ds !! j = Some x → (locateActive now ds).1 !! j = Some x.
Proof.
  unfold locateActive. destruct (findActive ds) as [i|] eqn:E; cbn [fst snd].
  - apply findActive_Some in E as (d & Hd & Hc). exists d.
    repeat split; try done. right. by eapply list_elem_of_lookup_2.
  - exists (newDraftObj now). rewrite lookup_app_r, Nat.sub_diag by done.
    repeat split; try done; [by left|].
    intros j x Hx. by apply lookup_app_l_Some.
Qed.

Lemma draftIsCompleteEnough_spec (draft : obj) :
  draftIsCompleteEnough draft = true ↔ field_set draft "task" ∧ field_set draft "date".
Proof.
  unfold draftIsCompleteEnough.
  by rewrite andb_true_iff, !truthy_field_set by done.
Qed.

(** C4.  The draft that takes a merge was in state [collecting]; after the
    merge it is in state [awaiting_confirm] exactly when both its title and
    its date are non-empty, and otherwise it is still [collecting].  The
    drafts the session already held, other than this one, are untouched. *)
Theorem C4_completeness_transition (now : Z) (s : session) (updates : obj) (oi : bool) :
  let s' := (mergeUpdates now s updates oi).1.1 in
  let i := (mergeUpdates now s updates oi).1.2 in
  ∃ d0 d',
    (d0 = newDraftObj now ∨ d0 ∈ drafts s)
    ∧ d_state d0 = collecting
    ∧ drafts s' !! i = Some d'
    ∧ d_draft d' = mergeDraft (d_draft d0) updates oi (d_overwriteNext d0)
    ∧ (d_state d' = awaiting_confirm
       ↔ field_set (d_draft d') "task" ∧ field_set (d_draft d') "date")
    ∧ (d_state d' = collecting
       ↔ ¬ (field_set (d_draft d') "task" ∧ field_set (d_draft d') "date"))
    ∧ ∀ j x, j ≠ i → drafts s !! j = Some x → drafts s' !! j = Some x.
Proof.
  unfold mergeUpdates.
  destruct (locateActive_spec now (drafts s)) as (d1 & H1 & Hc1 & Ho1 & Hk1).
  destruct (locateActive now (drafts s)) as [ds1 i1]. cbn [fst snd] in *.
  rewrite H1. cbn [default from_option id].
  set (fork := shouldStartNewDraftFromUpdate (Some (d_draft d1)) updates oi).
  assert (∃ ds2 i2 d0,
            (if fork then (ds1 ++ [newDraftObj now], length ds1) else (ds1, i1))
              = (ds2, i2)
            ∧ ds2 !! i2 = Some d0 ∧ d_state d0 = collecting
            ∧ (d0 = newDraftObj now ∨ d0 ∈ drafts s)
            ∧ ∀ j x, drafts s !! j = Some x → ds2 !! j = Some x)
    as (ds2 & i2 & d0 & -> & H2 & Hc2 & Ho2 & Hk2).
  { destruct fork.
    - exists (ds1 ++ [newDraftObj now]), (length ds1), (newDraftObj now).
      rewrite lookup_app_r, Nat.sub_diag by done.
      repeat split; try done; [by left|].
      intros j x Hx. by apply lookup_app_l_Some, Hk1.
    - by exists ds1, i1, d1. }
  rewrite H2. cbn [default from_option id].
  set (merged := mergeDraft (d_draft d0) updates oi (d_overwriteNext d0)).
  pose proof (draftIsCompleteEnough_spec merged) as Hspec.
  assert (Hlt : (i2 < length ds2)%nat) by (by eapply lookup_lt_Some).
  destruct (draftIsCompleteEnough merged) eqn:Hcomplete; cbn [fst snd drafts set_drafts].
  - eexists d0, _. rewrite list_lookup_insert_eq by done.
    repeat split; try done; cbn [d_state d_draft]; try (by apply Hspec).
    + intros Hn. destruct Hn. by apply Hspec.
    + intros j x Hj Hx. rewrite list_lookup_insert_ne by done. by apply Hk2.
  - eexists d0, _. rewrite list_lookup_insert_eq by done.
    assert (Hnot : ¬ (field_set merged "task" ∧ field_set merged "date")).
    { intros H. apply Hspec in H. done. }
    do 4 (split; [done|]). cbn [d_state d_draft]. rewrite Hc2.
    split; [split; [done | intros H; by destruct Hnot] |].
    split; [by split|].
    intros j x Hj Hx. rewrite list_lookup_insert_ne by done. by apply Hk2.
Qed.

(** ** Reminder scheduling *)

Lemma jobKey_inj eventId m1 m2 : jobKey eventId m1 = jobKey eventId m2 → m1 = m2.
Proof.
  unfold jobKey. intros H. apply (inj (String.app (pretty eventId))) in H.
  apply (inj (String.app "-")) in H. by apply (inj pretty) in H.
Qed.

Lemma registerReminder_lookup now start chatId ev jobs offset k :
  registerReminder now (Some start) chatId ev jobs offset !! k
  = if bool_decide (k = jobKey (e_id ev) offset.1
                    ∧ (now < start - offset.1 * 60 * 1000)%Z)
    then Some (reminderJob chatId ev start offset)
    else jobs !! k.
Proof.
  unfold registerReminder, reminderJob. cbn [num_add fmap option_fmap option_map num_lt].
  case_bool_decide as Hlt.
  - destruct (decide (k = jobKey (e_id ev) offset.1)) as [->|Hne].
    + rewrite lookup_insert_eq, bool_decide_eq_true_2 by (split; [done|lia]).
      cbn. do 2 f_equal; lia.
    + rewrite lookup_insert_ne by done.
      by rewrite bool_decide_eq_false_2 by (by intros [? _]).
  - rewrite bool_decide_eq_false_2; [done|]. intros [_ ?]. lia.
Qed.

Lemma key_guard_ne {A} eventId m1 m2 (P : Prop) `{!Decision P} (x y : A) :
  m1 ≠ m2 →
  (if bool_decide (jobKey eventId m1 = jobKey eventId m2 ∧ P) then x else y) = y.
Proof.
  intros Hne. rewrite bool_decide_eq_false_2; [done|].
  intros [H _]. by apply jobKey_inj in H.
Qed.

Lemma key_guard_eq {A} eventId m (P : Prop) `{!Decision P} (x y : A) :
  (if bool_decide (jobKey eventId m = jobKey eventId m ∧ P) then x else y)
  = if bool_decide P then x else y.
Proof.
  destruct (decide P) as [HP | HP].
  - by rewrite !bool_decide_eq_true_2.
  - rewrite !bool_decide_eq_false_2; [done | done | by intros [_ ?]].
Qed.

Section ReminderProperties.
Variable dateTime : string → option Z.

Lemma scheduleReminder_unfold now jobs chatId ev st start :
  e_start_time ev = Some st → st ≠ "" →
  dateTime (e_date ev +:+ "T" +:+ st +:+ ":00") = Some start →
  scheduleReminder dateTime now jobs chatId ev
  = foldl (registerReminder now (Some start) chatId ev) jobs reminderOffsets.
Proof.
  intros Hst Hne Hdt. unfold scheduleReminder.
  by rewrite Hst, bool_decide_eq_false_2, Hdt by done.
Qed.

(** C7.  For an event with a start time that denotes the instant [start],
    [scheduleReminder] puts under the key [eventId-minutes] the reminder of
    each of the offsets 1440, 360 and 30 whose instant [start - minutes] is
    strictly after [now], and leaves every other entry of the registry as
    it was: a reminder already due is not registered.  Ten minutes ahead
    nothing is registered, two days ahead all three are.  An event without
    start time registers nothing. *)
Theorem C7_scheduleReminder (now : Z) (jobs : gmap string job) (chatId : Z)
    (ev : event) (st : string) (start : Z) :
  e_start_time ev = Some st → st ≠ "" →
  dateTime (e_date ev +:+ "T" +:+ st +:+ ":00") = Some start →
  reminderOffsets.*1 = [1440; 360; 30]%Z
  ∧ (∀ offset, offset ∈ reminderOffsets →
       scheduleReminder dateTime now jobs chatId ev !! jobKey (e_id ev) offset.1
       = if bool_decide (now < start - offset.1 * 60 * 1000)%Z
         then Some (reminderJob chatId ev start offset)
         else jobs !! jobKey (e_id ev) offset.1)
  ∧ (∀ k, k ∉ reminderKeys (e_id ev) →
          scheduleReminder dateTime now jobs chatId ev !! k = jobs !! k)
  ∧ (start = (now + 10 * 60 * 1000)%Z →
     scheduleReminder dateTime now jobs chatId ev = jobs)
  ∧ (start = (now + 2 * 24 * 60 * 60 * 1000)%Z →
     ∀ offset, offset ∈ reminderOffsets →
       scheduleReminder dateTime now jobs chatId ev !! jobKey (e_id ev) offset.1
       = Some (reminderJob chatId ev start offset))
  ∧ (∀ ev', nonEmpty (e_start_time ev') = false →
            scheduleReminder dateTime now jobs chatId ev' = jobs).
Proof.
  intros Hst Hne Hdt.
  rewrite (scheduleReminder_unfold now jobs chatId ev st start Hst Hne Hdt).
  assert (Hkey : ∀ offset, offset ∈ reminderOffsets →
            foldl (registerReminder now (Some start) chatId ev) jobs reminderOffsets
              !! jobKey (e_id ev) offset.1
            = if bool_decide (now < start - offset.1 * 60 * 1000)%Z
              then Some (reminderJob chatId ev start offset)
              else jobs !! jobKey (e_id ev) offset.1).
  { intros offset Hin. cbn [foldl reminderOffsets].
    rewrite !registerReminder_lookup. cbn [fst snd].
    unfold reminderOffsets in Hin.
    rewrite !elem_of_cons, elem_of_nil in Hin.
    destruct Hin as [-> | [-> | [-> | []]]]; cbn [fst snd];
      by rewrite ?key_guard_ne, key_guard_eq, ?key_guard_ne by done. }
  split; [done|]. split; [exact Hkey|]. split; [|split; [|split]].
  - intros k Hk. cbn [foldl reminderOffsets].
    rewrite !registerReminder_lookup. cbn [fst snd].
    unfold reminderKeys in Hk. rewrite !not_elem_of_cons in Hk.
    destruct Hk as (K1 & K2 & K3 & _).
    by rewrite !bool_decide_eq_false_2 by (by intros [? _]).
  - intros ->. cbn [foldl reminderOffsets]. unfold registerReminder. cbn.
    by rewrite !bool_decide_eq_false_2 by lia.
  - intros -> offset Hin. rewrite (Hkey offset Hin).
    rewrite bool_decide_eq_true_2; [done|].
    unfold reminderOffsets in Hin. rewrite !elem_of_cons, elem_of_nil in Hin.
    destruct Hin as [-> | [-> | [-> | []]]]; cbn; lia.
  - intros ev' Hno. unfold scheduleReminder, nonEmpty in *.
    destruct (e_start_time ev') as [x|]; [|done].
    destruct (decide (x = "")) as [->|Hx]; [done|].
    by rewrite bool_decide_eq_false_2 in Hno.
Qed.
End ReminderProperties.

(** C7 at work: with the event two days ahead the 30-minute reminder is
    registered; with the event ten minutes ahead the registry
    stays empty. *)
Lemma C7_scheduleReminder_two_days_and_ten_minutes :
  scheduleReminder (λ _, Some 172800000%Z) 0 ∅ 1 sampleEvent
      !! jobKey (e_id sampleEvent) (30%Z, "30 minutes").1
    = Some (reminderJob 1 sampleEvent 172800000 (30%Z, "30 minutes"))
  ∧ scheduleReminder (λ _, Some 600000%Z) 0 ∅ 1 sampleEvent = ∅.
Proof.
  split.
  - apply (proj1 (proj2 (proj2 (proj2 (proj2
             (C7_scheduleReminder (λ _, Some 172800000%Z) 0 ∅ 1 sampleEvent "14:00"
                172800000 eq_refl ltac:(discriminate) eq_refl)))))).
    + reflexivity.
    + apply list_elem_of_further, list_elem_of_further, list_elem_of_here.
  - apply (proj1 (proj2 (proj2 (proj2
             (C7_scheduleReminder (λ _, Some 600000%Z) 0 ∅ 1 sampleEvent "14:00"
                600000 eq_refl ltac:(discriminate) eq_refl))))).
    reflexivity.
Defined.

(** ** Buttons that name a draft that is gone *)

Lemma startsWith_spec p data : startsWith p data = true ↔ ∃ r, data = p +:+ r.
Proof.
  unfold startsWith. revert data. induction p as [|a p IH]; intros data.
  - split; [by exists data | by destruct data].
  - destruct data as [|b data]; cbn; [split; [done | by intros [? ?]]|].
    destruct (ascii_dec a b) as [->|Hne].
    + rewrite IH. split; intros [r Hr]; exists r; [by rewrite Hr|].
      cbn in Hr. by injection Hr.
    + split; [done|]. intros [r Hr]. cbn in Hr. injection Hr as Hab _. done.
Qed.

Lemma startsWith_app p r : startsWith p (p +:+ r) = true.
Proof. apply startsWith_spec. by exists r. Qed.

Lemma findDraft_None ds draftId :
  findDraft ds draftId = None ↔ ∀ d, d ∈ ds → d_id d ≠ draftId.
Proof. unfold findDraft. by rewrite list_find_None, Forall_forall. Qed.

Lemma getSession_spec now (sessions : gmap Z session) chatId :
  (∀ s, sessions !! chatId = Some s → getSession now sessions chatId = (sessions, s))
  ∧ (sessions !! chatId = None →
     getSession now sessions chatId
     = (<[chatId := freshSession now]> sessions, freshSession now)).
Proof. unfold getSession. split; [intros s -> | intros ->]; done. Qed.

Section StaleReferences.
Variable getDay : string → option Z.
Variable dateTime : string → option Z.

(** C9.  A confirm, edit, discard or conflict button whose payload names a
    draft the session does not hold is answered with "Draft expired" and
    changes nothing: the event store and the reminder registry are the
    same, every session that existed is the same, with its draft list, the
    state and fields of each draft and its edit pointer; only a
    conversation that had no session yet gets the empty session that
    [getSession] creates. *)
Theorem C9_stale_draft_reference (now : Z) (st : bot_state) (chatId : Z)
    (data action : string) :
  action ∈ draftActions → startsWith action data = true →
  (∀ s d, sessions st !! chatId = Some s → d ∈ drafts s → d_id d ≠ payloadId data) →
  ∃ st', draftButtons getDay dateTime now st chatId data = Some (st', expired)
         ∧ db st' = db st
         ∧ reminderJobs st' = reminderJobs st
         ∧ (∀ c s, sessions st !! c = Some s → sessions st' !! c = Some s)
         ∧ (is_Some (sessions st !! chatId) → st' = st)
         ∧ (sessions st !! chatId = None →
            sessions st' = <[chatId := freshSession now]> (sessions st)).
Proof.
  intros Hact Hpre Hgone.
  apply startsWith_spec in Hpre as [r ->].
  unfold draftButtons.
  set (draftId := payloadId (action +:+ r)) in *. clearbody draftId.
  destruct (getSession now (sessions st) chatId) as [sessions1 s] eqn:Hget.
  assert (Hfound : findDraft (drafts s) draftId = None).
  { apply findDraft_None. intros d Hd.
    destruct (sessions st !! chatId) as [s0|] eqn:E.
    - rewrite (proj1 (getSession_spec now _ chatId) s0 E) in Hget.
      simplify_eq. by eapply Hgone.
    - rewrite (proj2 (getSession_spec now _ chatId) E) in Hget.
      simplify_eq. by apply elem_of_nil in Hd. }
  rewrite Hfound.
  exists {| sessions := sessions1; db := db st; reminderJobs := reminderJobs st |}.
  split.
  - unfold draftActions in Hact. rewrite !elem_of_cons, elem_of_nil in Hact.
    destruct Hact as [-> | [-> | [-> | [-> | [-> | [-> | []]]]]]];
      repeat first
        [ rewrite startsWith_app; reflexivity
        | match goal with
          | |- context [startsWith ?p ?d] =>
              let b := eval vm_compute in (startsWith p d) in
              change (startsWith p d) with b; cbv iota
          end ].
  - cbn [db reminderJobs sessions]. split; [done|]. split; [done|].
    destruct (sessions st !! chatId) as [s0|] eqn:E.
    + rewrite (proj1 (getSession_spec now _ chatId) s0 E) in Hget. simplify_eq.
      split; [done|]. split; [|done]. intros _. by destruct st.
    + rewrite (proj2 (getSession_spec now _ chatId) E) in Hget. simplify_eq.
      split; [|split; [by intros [? ?]|done]].
      intros c s0 Hc. rewrite lookup_insert_ne; [done|]. congruence.
Qed.
End StaleReferences.

(** C9 at work: a confirm button for a draft id the session does not hold
    leaves the whole state as it is. *)
Lemma C9_stale_confirm_button :
  draftButtons (λ _, None) (λ _, None) 1700000400000 sampleState 1 "confirm:1600000000000"
    = Some (sampleState, expired).
Proof.
  destruct (C9_stale_draft_reference (λ _, None) (λ _, None) 1700000400000 sampleState 1
              "confirm:1600000000000" "confirm:")
    as (st' & Hrun & _ & _ & _ & Hsame & _).
  - apply list_elem_of_here.
  - reflexivity.
  - intros s d Hs Hd. cbn in Hs. rewrite lookup_singleton_eq in Hs.
    injection Hs as <-. apply list_elem_of_singleton in Hd as ->.
    vm_compute. discriminate.
  - rewrite Hrun, Hsame; [reflexivity|].
    cbn. rewrite lookup_singleton_eq. by eexists.
Defined.

(** ** Worked cases *)

(** The fork rule on a draft that holds a title and a date. *)
Example fork_on_new_date_or_title :
  shouldStartNewDraftFromUpdate (Some (d_draft sampleDraft))
    ({[ "date" := VStr "2025-03-05" ]}) false = true
  ∧ shouldStartNewDraftFromUpdate (Some (d_draft sampleDraft))
      ({[ "task" := VStr "Swim" ]}) false = true
  ∧ shouldStartNewDraftFromUpdate (Some (d_draft sampleDraft))
      ({[ "date" := VStr "2025-03-05" ]}) true = false
  ∧ shouldStartNewDraftFromUpdate (Some makeEmptyDraft)
      ({[ "date" := VStr "2025-03-01" ]}) false = false
  ∧ mergeDraft makeEmptyDraft ({[ "date" := VStr "2025-03-01" ]}) false false
      !! "date" = Some (VStr "2025-03-01").
Proof. repeat split; vm_compute; reflexivity. Qed.

(** A stored event at 10:00-11:00: a candidate that starts at 11:00 does not
    collide with it, one at 10:30-10:45 does, and so does one at 09:30 with
    no end time. *)
Example conflicts_at_the_boundary :
  let stored := {| e_id := 1; e_chat_id := 7; e_task := "Lab"; e_date := "2025-04-10";
                   e_start_time := Some "10:00"; e_end_time := Some "11:00";
                   e_location := None; e_type := None |} in
  let store := {| events := [stored]; events_seq := 1; school_timetable := [] |} in
  checkConflicts (λ _, None) store 7 "2025-04-10" (Some "11:00") None = []
  ∧ checkConflicts (λ _, None) store 7 "2025-04-10" (Some "10:30") (Some "10:45")
    = [ConflictEvent stored]
  ∧ checkConflicts (λ _, None) store 7 "2025-04-10" (Some "09:30") None
    = [ConflictEvent stored]
  ∧ checkConflicts (λ _, None) store 7 "2025-04-10" (Some "09:00") None = []
  ∧ checkConflicts (λ _, None) store 7 "2025-04-11" (Some "10:30") None = []
  ∧ checkConflicts (λ _, None) store 7 "2025-04-10" None (Some "10:45") = [].
Proof. repeat split; vm_compute; reflexivity. Qed.

(** The keys of the reminder registry read [eventId-minutes]. *)
Example jobKey_format :
  reminderKeys 5 = ["5-1440"; "5-360"; "5-30"].
Proof. vm_compute. reflexivity. Qed.

(** Confirming a draft for 14:30-15:30 against a stored event at
    14:00-15:00 reports that one event and changes nothing. *)
Example confirm_reports_the_conflict :
  draftButtons (λ _, None) (λ _, None) 1700000001000 collidingState 1
    "confirm:1700000000999"
  = Some (collidingState,
          [ShowConflicts "1700000000999" (d_draft collidingDraft)
             [ConflictEvent sampleEvent];
           AnswerPlain]).
Proof. vm_compute. reflexivity. Qed.

(** Replacing deletes the stored event, saves the draft as event 6 and
    drops the draft. *)
Example replace_deletes_and_saves :
  (λ r, (events (db r.1), drafts <$> sessions r.1 !! 1%Z)) <$>
    draftButtons (λ _, None) (λ _, None) 1700000001000 collidingState 1
      "conflict_replace:1700000000999"
  = Some ([ {| e_id := 6; e_chat_id := 1; e_task := "Squash"; e_date := "2025-04-10";
               e_start_time := Some "14:30"; e_end_time := Some "15:30";
               e_location := None; e_type := None |} ],
          Some []).
Proof. vm_compute. reflexivity. Qed.

(** Cancelling keeps the stored event and the draft, which awaits
    confirmation again. *)
Example cancel_keeps_both :
  (λ r, (events (db r.1),
         (λ s, (λ d, (d_id d, d_state d, d_draft d)) <$> drafts s)
           <$> sessions r.1 !! 1%Z)) <$>
    draftButtons (λ _, None) (λ _, None) 1700000001000 collidingState 1
      "conflict_cancel:1700000000999"
  = Some ([sampleEvent],
          Some [("1700000000999", awaiting_confirm, d_draft collidingDraft)]).
Proof. vm_compute. reflexivity. Qed.

(** * Further properties of the code *)

(** ** The reminder registry *)

Lemma cancelReminder_eq jobs eventId :
  cancelReminder jobs eventId
  = delete (jobKey eventId 30) (delete (jobKey eventId 360)
      (delete (jobKey eventId 1440) jobs)).
Proof.
  unfold cancelReminder. cbn [foldl].
  assert (Hstep : ∀ (m : gmap string job) k,
            match m !! k with Some _ => delete k m | None => m end = delete k m).
  { intros m k. destruct (m !! k) eqn:E; [done|]. by rewrite delete_id. }
  by rewrite !Hstep.
Qed.

Lemma cancelReminder_lookup jobs eventId k :
  cancelReminder jobs eventId !! k
  = if bool_decide (k ∈ reminderKeys eventId) then None else jobs !! k.
Proof.
  rewrite cancelReminder_eq. unfold reminderKeys. case_bool_decide as Hk.
  - rewrite !elem_of_cons, elem_of_nil in Hk.
    destruct Hk as [-> | [-> | [-> | []]]]; rewrite !lookup_delete;
      repeat case_decide; done.
  - rewrite !not_elem_of_cons in Hk. destruct Hk as (K1 & K2 & K3 & _).
    by rewrite !lookup_delete_ne.
Qed.

Lemma registerReminder_other now eventDateTime chatId ev jobs offset k :
  k ≠ jobKey (e_id ev) offset.1 →
  registerReminder now eventDateTime chatId ev jobs offset !! k = jobs !! k.
Proof.
  intros Hne. unfold registerReminder. case_match; [|done].
  by rewrite lookup_insert_ne.
Qed.

Lemma registerReminder_union now eventDateTime chatId ev (m jobs : gmap string job) offset :
  registerReminder now eventDateTime chatId ev (m ∪ jobs) offset
  = registerReminder now eventDateTime chatId ev m offset ∪ jobs.
Proof. unfold registerReminder. case_match; [|done]. by rewrite insert_union_l. Qed.

(** X1.  [cancelReminder] removes the three reminder keys of the event,
    whichever of them are present, and leaves every other entry of the
    registry in place; cancelling a second time changes nothing. *)
Theorem X1_cancelReminder (jobs : gmap string job) (eventId : Z) :
  (∀ k, k ∈ reminderKeys eventId → cancelReminder jobs eventId !! k = None)
  ∧ (∀ k, k ∉ reminderKeys eventId → cancelReminder jobs eventId !! k = jobs !! k)
  ∧ cancelReminder (cancelReminder jobs eventId) eventId = cancelReminder jobs eventId.
Proof.
  split; [|split].
  - intros k Hk. by rewrite cancelReminder_lookup, bool_decide_eq_true_2.
  - intros k Hk. by rewrite cancelReminder_lookup, bool_decide_eq_false_2.
  - apply map_eq. intros k. rewrite !cancelReminder_lookup. by case_bool_decide.
Qed.

Section RegistryProperties.
Variable dateTime : string → option Z.

Lemma scheduleReminder_union now (jobs : gmap string job) chatId ev :
  scheduleReminder dateTime now jobs chatId ev
  = scheduleReminder dateTime now ∅ chatId ev ∪ jobs.
Proof.
  unfold scheduleReminder.
  destruct (e_start_time ev) as [st|]; [|by rewrite (left_id_L ∅ (∪))].
  case_bool_decide; [by rewrite (left_id_L ∅ (∪))|].
  cbn [foldl reminderOffsets].
  rewrite <- !registerReminder_union. by rewrite (left_id_L ∅ (∪)).
Qed.

Lemma scheduleReminder_other now (jobs : gmap string job) chatId ev k :
  k ∉ reminderKeys (e_id ev) →
  scheduleReminder dateTime now jobs chatId ev !! k = jobs !! k.
Proof.
  intros Hk. unfold reminderKeys in Hk. rewrite !not_elem_of_cons in Hk.
  destruct Hk as (K1 & K2 & K3 & _). unfold scheduleReminder.
  destruct (e_start_time ev) as [st|]; [|done]. case_bool_decide; [done|].
  cbn [foldl reminderOffsets]. by rewrite !registerReminder_other.
Qed.

(** X2.  Scheduling the reminders of an event and cancelling them again
    gives the registry back, when it held no reminder of that event
    before. *)
Theorem X2_schedule_then_cancel (now : Z) (jobs : gmap string job) (chatId : Z)
    (ev : event) :
  (∀ k, k ∈ reminderKeys (e_id ev) → jobs !! k = None) →
  cancelReminder (scheduleReminder dateTime now jobs chatId ev) (e_id ev) = jobs.
Proof.
  intros Hfree. apply map_eq. intros k. rewrite cancelReminder_lookup.
  case_bool_decide as Hk.
  - by rewrite Hfree.
  - by apply scheduleReminder_other.
Qed.
End RegistryProperties.

(** X2 at work: the reminders of [sampleEvent], two days ahead, are
    registered in the empty registry and cancelled again. *)
Lemma X2_schedule_then_cancel_sample :
  cancelReminder (scheduleReminder (λ _, Some 172800000%Z) 0 ∅ 1 sampleEvent)
                 (e_id sampleEvent) = ∅.
Proof.
  apply (X2_schedule_then_cancel (λ _, Some 172800000%Z) 0 ∅ 1 sampleEvent).
  intros k _. apply lookup_empty.
Defined.

(** ** Normalised clock strings *)

Lemma clock_forall (P : N → N → bool) :
  forallb (λ h, forallb (P h) (N.of_nat <$> seq 0 60)) (N.of_nat <$> seq 0 24) = true →
  ∀ h m, (h <= 23)%N → (m <= 59)%N → P h m = true.
Proof.
  intros Hall h m Hh Hm. rewrite forallb_forall in Hall.
  specialize (Hall h (in_range_below 24 h ltac:(lia))).
  rewrite forallb_forall in Hall. apply Hall, in_range_below. lia.
Qed.

Lemma normalizeTime_range t r :
  normalizeTime t = Some r → ∃ h m, (h <= 23)%N ∧ (m <= 59)%N ∧ r = hhmm h m.
Proof.
  intros H. apply normalizeTime_spec in H
    as [(h & m & _ & ? & ? & ->) | (h & m & p & _ & ? & ? & ->)]; eauto.
Qed.

Lemma clockTable_elem h m :
  (h <= 23)%N → (m <= 59)%N → In (hhmm h m, (60 * h + m)%N) clockTable.
Proof.
  intros Hh Hm. unfold clockTable. apply in_flat_map. exists h.
  split; [apply in_range_below; lia|].
  apply in_map_iff. exists m. split; [done | apply in_range_below; lia].
Qed.

Lemma clock_order_table :
  forallb (λ x, forallb (λ y, Bool.eqb (String.leb x.1 y.1) (x.2 <=? y.2)%N)
                        clockTable) clockTable = true.
Proof. vm_compute. reflexivity. Qed.

Lemma clock_order h m h' m' :
  (h <= 23)%N → (m <= 59)%N → (h' <= 23)%N → (m' <= 59)%N →
  String.leb (hhmm h m) (hhmm h' m') = (60 * h + m <=? 60 * h' + m')%N.
Proof.
  intros Hh Hm Hh' Hm'. pose proof clock_order_table as Hall.
  rewrite forallb_forall in Hall.
  specialize (Hall _ (clockTable_elem h m Hh Hm)). rewrite forallb_forall in Hall.
  specialize (Hall _ (clockTable_elem h' m' Hh' Hm')). cbn [fst snd] in Hall.
  by apply Bool.eqb_prop in Hall.
Qed.

Lemma clock_table_checks :
  forallb (λ x, bool_decide (normalizeTime (units x.1) = Some x.1)
                && bool_decide (normalizeTime_v2 (units x.1) = Some x.1)
                && bool_decide (timeToMinutes x.1 = Some (Z.of_N x.2)))
          clockTable = true.
Proof. vm_compute. reflexivity. Qed.

Lemma clock_facts h m :
  (h <= 23)%N → (m <= 59)%N →
  normalizeTime (units (hhmm h m)) = Some (hhmm h m)
  ∧ normalizeTime_v2 (units (hhmm h m)) = Some (hhmm h m)
  ∧ timeToMinutes (hhmm h m) = Some (Z.of_N (60 * h + m)).
Proof.
  intros Hh Hm. pose proof clock_table_checks as Hall.
  rewrite forallb_forall in Hall.
  specialize (Hall _ (clockTable_elem h m Hh Hm)). cbn [fst snd] in Hall.
  apply andb_true_iff in Hall as [Hall H3]. apply andb_true_iff in Hall as [H1 H2].
  by apply bool_decide_eq_true in H1, H2, H3.
Qed.

(** X3.  What [normalizeTime] returns is a fixed point of it: a normalised
    time read again, by either listing of the function, comes back
    unchanged. *)
Theorem X3_normalizeTime_fixed_point (t : jsstring) (r : string) :
  normalizeTime t = Some r →
  normalizeTime (units r) = Some r ∧ normalizeTime_v2 (units r) = Some r.
Proof.
  intros H. apply normalizeTime_range in H as (h & m & Hh & Hm & ->).
  destruct (clock_facts h m Hh Hm) as (? & ? & _). done.
Qed.

(** X3 at work on [6.30pm]. *)
Lemma X3_fixed_point_half_past_six :
  normalizeTime (units "18:30") = Some "18:30"
  ∧ normalizeTime_v2 (units "18:30") = Some "18:30".
Proof.
  apply (X3_normalizeTime_fixed_point (units "6.30pm") "18:30").
  vm_compute. reflexivity.
Defined.

(** X4.  [timeToMinutes] reads every time that [normalizeTime] wrote as a
    minute of the day, at least 0 and below 1440, never as [NaN]. *)
Theorem X4_timeToMinutes_of_normalized (t : jsstring) (r : string) :
  normalizeTime t = Some r →
  ∃ h m, (h <= 23)%N ∧ (m <= 59)%N ∧ r = hhmm h m
         ∧ timeToMinutes r = Some (Z.of_N h * 60 + Z.of_N m)%Z
         ∧ (0 <= Z.of_N h * 60 + Z.of_N m < 1440)%Z.
Proof.
  intros H. apply normalizeTime_range in H as (h & m & Hh & Hm & ->).
  exists h, m. destruct (clock_facts h m Hh Hm) as (_ & _ & ->).
  repeat split; try done; try lia. f_equal. lia.
Qed.

(** X4 at work on [6.30pm], minute 1110 of the day. *)
Lemma X4_minutes_of_half_past_six :
  ∃ h m, (h <= 23)%N ∧ (m <= 59)%N ∧ "18:30" = hhmm h m
         ∧ timeToMinutes "18:30" = Some (Z.of_N h * 60 + Z.of_N m)%Z
         ∧ (0 <= Z.of_N h * 60 + Z.of_N m < 1440)%Z.
Proof.
  apply (X4_timeToMinutes_of_normalized (units "6.30pm") "18:30").
  vm_compute. reflexivity.
Defined.

(** ** The timetable of a day *)

#[local] Instance by_start_time_total : Total by_start_time.
Proof.
  intros a b. unfold by_start_time.
  destruct (String.leb_total (c_start_time a) (c_start_time b)) as [-> | ->]; auto.
Qed.

Lemma by_start_time_chronological a b :
  normalized (c_start_time a) → normalized (c_start_time b) →
  by_start_time a b → startsNoLater a b.
Proof.
  intros [ta Ha] [tb Hb] Hab. unfold by_start_time in Hab.
  apply normalizeTime_range in Ha as (h & m & Hh & Hm & Ea).
  apply normalizeTime_range in Hb as (h' & m' & Hh' & Hm' & Eb).
  unfold startsNoLater. rewrite Ea, Eb in *.
  rewrite (clock_order h m h' m') in Hab by done.
  apply Is_true_true, N.leb_le in Hab.
  destruct (clock_facts h m Hh Hm) as (_ & _ & ->).
  destruct (clock_facts h' m' Hh' Hm') as (_ & _ & ->).
  eexists _, _. repeat split. lia.
Qed.

#[local] Instance startsNoLater_trans : Transitive startsNoLater.
Proof.
  intros a b c (x & y & Hx & Hy & Hxy) (y' & z & Hy' & Hz & Hyz).
  exists x, z. repeat split; try done. simplify_eq. lia.
Qed.

Lemma Sorted_chronological (l : list class_entry) :
  Forall (λ c, normalized (c_start_time c)) l →
  Sorted by_start_time l → Sorted startsNoLater l.
Proof.
  intros Hn Hs. induction Hs as [|a l Hs IH Hhd]; [constructor|].
  inversion Hn as [|? ? Ha Hl]; subst. constructor; [by apply IH|].
  destruct Hhd as [|b l' Hab]; constructor.
  inversion Hl; subst. by apply by_start_time_chronological.
Qed.

Section TimetableProperties.
Variable getDay : string → option Z.

(** X5.  When the start times of the timetable were written by
    [normalizeTime], the entries [getSchoolTimetableForDate] returns are
    exactly the entries of the chat for the weekday of the date, each as
    often as it is stored, in chronological order: [ORDER BY start_time]
    compares text, and on normalised times text order is time order. *)
Theorem X5_timetable_of_a_day (db : database) (chatId : Z) (dateStr : string) :
  Forall (λ c, normalized (c_start_time c)) (school_timetable db) →
  StronglySorted startsNoLater (getSchoolTimetableForDate getDay db chatId dateStr)
  ∧ (∀ c, c ∈ getSchoolTimetableForDate getDay db chatId dateStr
          ↔ c ∈ school_timetable db ∧ c_chat_id c = chatId
            ∧ getDay dateStr = Some (c_day_of_week c))
  ∧ (∀ dayOfWeek, getDay dateStr = Some dayOfWeek →
       getSchoolTimetableForDate getDay db chatId dateStr
       ≡ₚ filter (λ c, c_chat_id c = chatId ∧ c_day_of_week c = dayOfWeek)
                 (school_timetable db)).
Proof.
  intros Hn. unfold getSchoolTimetableForDate.
  destruct (getDay dateStr) as [dow|] eqn:Eday.
  - split; [|split].
    + apply Sorted_StronglySorted; [apply _|].
      apply Sorted_chronological; [|apply Sorted_merge_sort; apply _].
      rewrite merge_sort_Permutation. rewrite Forall_forall in Hn |- *.
      intros c Hc. apply list_elem_of_filter in Hc as [_ Hc]. by apply Hn.
    + intros c. rewrite merge_sort_Permutation, list_elem_of_filter.
      split; [intros [[? ?] ?] | intros (? & ? & [= ?])]; repeat split; congruence.
    + intros d [= <-]. apply merge_sort_Permutation.
  - split; [constructor|]. split; [|done].
    intros c. split; [by intros ?%elem_of_nil | by intros (_ & _ & ?)].
Qed.
End TimetableProperties.

(** X5 at work: the 09:00 class comes out before the 14:00 class. *)
Lemma X5_timetable_sorted_sample :
  StronglySorted startsNoLater
    (getSchoolTimetableForDate (λ _, Some 1%Z) sampleTimetable 1 "2025-04-07").
Proof.
  apply (X5_timetable_of_a_day (λ _, Some 1%Z) sampleTimetable 1 "2025-04-07").
  repeat constructor.
  - exists (units "14:00"). vm_compute. reflexivity.
  - exists (units "09:00"). vm_compute. reflexivity.
Defined.

(** ** Symmetry of the conflict test *)

Lemma overlapping_sym st en os oe : overlapping st en os oe → overlapping os oe st en.
Proof.
  intros (cs & ce & s & e & Hc & Ho & H1 & H2). exists s, e, cs, ce.
  split; [done|]. split; [done|]. by split.
Qed.

Section ConflictSymmetry.
Variable getDay : string → option Z.

Lemma checkConflicts_event db chatId date st endTime e :
  st ≠ "" →
  ConflictEvent e ∈ checkConflicts getDay db chatId date (Some st) endTime
  ↔ e ∈ events db ∧ e_chat_id e = chatId ∧ e_date e = date
    ∧ ∃ es, e_start_time e = Some es ∧ overlapping st endTime es (e_end_time e).
Proof.
  intros Hst. rewrite checkConflicts_unfold by done.
  rewrite elem_of_app, !list_elem_of_fmap. split.
  - intros [(e' & [= <-] & He) | (c & ? & _)]; [|done].
    apply list_elem_of_filter in He as [Hov He].
    apply list_elem_of_filter in He as [(Hc & Hd & [es Hes]) He].
    repeat split; try done. exists es. split; [done|].
    apply Is_true_true in Hov. rewrite Hes in Hov. by apply windows_overlap_spec.
  - intros (He & Hc & Hd & es & Hes & Hov). left. exists e. split; [done|].
    apply list_elem_of_filter. split.
    + apply Is_true_true. rewrite Hes. by apply windows_overlap_spec.
    + apply list_elem_of_filter. by eauto.
Qed.

(** X6.  The conflict test is symmetric: of two stored events of one chat
    and date that have start times, the first is reported for the window
    of the second exactly when the second is reported for the window of the
    first. *)
Theorem X6_conflicts_are_mutual (db : database) (chatId : Z) (date : string)
    (a b : event) (sa sb : string) :
  a ∈ events db → b ∈ events db →
  e_chat_id a = chatId → e_chat_id b = chatId → e_date a = date → e_date b = date →
  e_start_time a = Some sa → sa ≠ "" → e_start_time b = Some sb → sb ≠ "" →
  ConflictEvent b ∈ checkConflicts getDay db chatId date (Some sa) (e_end_time a)
  ↔ ConflictEvent a ∈ checkConflicts getDay db chatId date (Some sb) (e_end_time b).
Proof.
  intros Ha Hb Hca Hcb Hda Hdb Hsa Hna Hsb Hnb.
  rewrite !checkConflicts_event by done. split.
  - intros (_ & _ & _ & es & Hes & Hov). repeat split; try done.
    exists sa. split; [done|]. rewrite Hsb in Hes. injection Hes as <-.
    by apply overlapping_sym.
  - intros (_ & _ & _ & es & Hes & Hov). repeat split; try done.
    exists sb. split; [done|]. rewrite Hsa in Hes. injection Hes as <-.
    by apply overlapping_sym.
Qed.
End ConflictSymmetry.

(** X6 at work: 14:00-15:00 and 14:30 (to 15:30 by default) report each
    other. *)
Lemma X6_mutual_conflict_sample :
  ConflictEvent laterEvent
    ∈ checkConflicts (λ _, None)
        {| events := [sampleEvent; laterEvent]; events_seq := 6; school_timetable := [] |}
        1 "2025-04-10" (Some "14:00") (e_end_time sampleEvent)
  ↔ ConflictEvent sampleEvent
    ∈ checkConflicts (λ _, None)
        {| events := [sampleEvent; laterEvent]; events_seq := 6; school_timetable := [] |}
        1 "2025-04-10" (Some "14:30") (e_end_time laterEvent).
Proof.
  apply (X6_conflicts_are_mutual (λ _, None)
           {| events := [sampleEvent; laterEvent]; events_seq := 6;
              school_timetable := [] |}
           1 "2025-04-10" sampleEvent laterEvent "14:00" "14:30");
    try reflexivity; try discriminate.
  - apply list_elem_of_here.
  - apply list_elem_of_further, list_elem_of_here.
Defined.

(** ** More on pruning *)

Lemma pruneSession_fixed t s s' : pruneSession t s = Some s' → pruneSession t s' = Some s'.
Proof.
  intros H. pose proof (pruneSession_Some t s s' H) as ->.
  assert (Hf : filter (fresh_at t) (filter (fresh_at t) (drafts s))
               = filter (fresh_at t) (drafts s)).
  { rewrite list_filter_filter. apply list_filter_iff. tauto. }
  destruct (pruneSession t (set_drafts s (filter (fresh_at t) (drafts s)))) as [s2|] eqn:E.
  - apply pruneSession_Some in E as ->. cbn [drafts set_drafts]. rewrite Hf.
    by destruct s.
  - apply pruneSession_None in E as [E1 E2]. cbn [drafts updatedAt set_drafts] in E1, E2.
    rewrite Hf in E1.
    assert (pruneSession t s = None) by (by apply pruneSession_None).
    congruence.
Qed.

(** X7.  A prune pass is idempotent at a given clock reading, and it only
    ever removes: every session it leaves was there before with the same
    activity stamp, and its drafts are drafts it already had, in the same
    order. *)
Theorem X7_prune_idempotent_and_shrinking (t : Z) (sessions : gmap Z session) :
  pruneExpiredDrafts t (pruneExpiredDrafts t sessions) = pruneExpiredDrafts t sessions
  ∧ ∀ chatId s', pruneExpiredDrafts t sessions !! chatId = Some s' →
      ∃ s, sessions !! chatId = Some s ∧ updatedAt s' = updatedAt s
           ∧ drafts s' `sublist_of` drafts s
           ∧ Forall (fresh_at t) (drafts s').
Proof.
  split.
  - apply map_eq. intros c. rewrite !pruneExpiredDrafts_lookup.
    destruct (sessions !! c) as [s|]; [|done]. cbn.
    destruct (pruneSession t s) as [s'|] eqn:E; [|done]. cbn.
    by apply pruneSession_fixed in E.
  - intros c s'. rewrite pruneExpiredDrafts_lookup.
    destruct (sessions !! c) as [s|]; [|done]. cbn. intros H.
    apply pruneSession_Some in H as ->. exists s. repeat split.
    + apply sublist_filter.
    + apply Forall_forall. intros d Hd. by apply list_elem_of_filter in Hd as [? _].
Qed.

(** ** The active draft *)

Lemma findActive_latest (ds : list draftObj) :
  (∀ i, findActive ds = Some i
        ↔ (∃ d, ds !! i = Some d ∧ d_state d = collecting)
          ∧ ∀ j d, (i < j)%nat → ds !! j = Some d → d_state d ≠ collecting)
  ∧ (findActive ds = None ↔ Forall (λ d, d_state d ≠ collecting) ds).
Proof.
  assert (Hnone : ∀ l, findActive l = None ↔ Forall (λ d, d_state d ≠ collecting) l).
  { induction l as [|d l IH]; cbn [findActive]; [by split|].
    rewrite Forall_cons, <- IH. destruct (findActive l); [split; [done | by intros [_ ?]]|].
    case_bool_decide as Hd.
    - split; [done|]. by intros [? _].
    - by split. }
  split; [|apply Hnone].
  induction ds as [|d ds IH]; intros i; cbn [findActive].
  - split; [done|]. by intros [(? & ? & _) _].
  - destruct (findActive ds) as [k|] eqn:E.
    + split.
      * intros [= <-]. pose proof (proj1 (IH k) eq_refl) as [(x & Hx & Hc) Hlater].
        split; [by exists x|]. intros [|j] x' Hj Hx'; [lia|].
        apply (Hlater j x'); [lia | done].
      * intros [(x & Hx & Hc) Hlater]. f_equal.
        pose proof (proj1 (IH k) eq_refl) as [(y & Hy & Hyc) Hk].
        destruct i as [|i].
        -- destruct (Hlater (S k) y); [lia | done | done].
        -- f_equal. destruct (Nat.lt_trichotomy i k) as [Hlt | [-> | Hgt]]; [|done|].
           ++ destruct (Hlater (S k) y); [lia | done | done].
           ++ destruct (Hk i x); [lia | done | done].
    + apply Hnone in E. rewrite Forall_forall in E. case_bool_decide as Hd.
      * split.
        -- intros [= <-]. split; [by exists d|]. intros [|j] x Hj Hx; [lia|].
           cbn in Hx. apply E. by eapply list_elem_of_lookup_2.
        -- intros [(x & Hx & Hc) _]. destruct i as [|i]; [done|].
           cbn in Hx. destruct (E x); [by eapply list_elem_of_lookup_2 | done].
      * split; [done|]. intros [(x & Hx & Hc) _]. destruct i as [|i].
        -- cbn in Hx. by simplify_eq.
        -- cbn in Hx. destruct (E x); [by eapply list_elem_of_lookup_2 | done].
Qed.

(** X9.  The active draft is the most recently inserted draft that is still
    collecting: [findActive] returns the position of a collecting draft
    after which no draft is collecting, and nothing exactly when no draft is
    collecting. *)
Theorem X9_active_is_latest_collecting (ds : list draftObj) :
  (∀ i, findActive ds = Some i
        ↔ (∃ d, ds !! i = Some d ∧ d_state d = collecting)
          ∧ ∀ j d, (i < j)%nat → ds !! j = Some d → d_state d ≠ collecting)
  ∧ (findActive ds = None ↔ Forall (λ d, d_state d ≠ collecting) ds).
Proof. exact (findActive_latest ds). Qed.

(** ** What a merge leaves in the session *)

Lemma shouldStart_empty updates oi :
  shouldStartNewDraftFromUpdate (Some makeEmptyDraft) updates oi = false.
Proof.
  destruct oi; [done|]. unfold shouldStartNewDraftFromUpdate. cbn [get_opt].
  replace (truthy (get makeEmptyDraft "date")) with false by done.
  replace (truthy (get makeEmptyDraft "task")) with false by done.
  by rewrite !andb_false_r.
Qed.

Lemma mergeUpdates_finish now s (ds : list draftObj) i d0 updates oi :
  ds !! i = Some d0 →
  (let merged := mergeDraft (d_draft d0) updates oi (d_overwriteNext d0) in
   if draftIsCompleteEnough merged then
     (set_drafts s (<[i := {| d_id := d_id d0; d_draft := merged;
                              d_state := awaiting_confirm; d_updatedAt := now;
                              d_overwriteNext := false |}]> ds), i,
      AskConfirm (d_id d0) merged)
   else
     (set_drafts s (<[i := {| d_id := d_id d0; d_draft := merged;
                              d_state := d_state d0; d_updatedAt := now;
                              d_overwriteNext := false |}]> ds), i,
      AskMissing ((if negb (truthy (get merged "task")) then ["title"] else [])
                  ++ (if negb (truthy (get merged "date")) then ["date"] else []))
                 merged)).1
  = (set_drafts s (<[i := mergedDraftObj now d0 updates oi]> ds), i).
Proof. intros _. unfold mergedDraftObj. cbv zeta. by case_match. Qed.

Lemma mergeUpdates_continue now s updates oi i d1 :
  findActive (drafts s) = Some i → drafts s !! i = Some d1 →
  shouldStartNewDraftFromUpdate (Some (d_draft d1)) updates oi = false →
  (mergeUpdates now s updates oi).1
  = (set_drafts s (<[i := mergedDraftObj now d1 updates oi]> (drafts s)), i).
Proof.
  intros Hact Hi Hno. unfold mergeUpdates, locateActive. rewrite Hact, Hi.
  cbn [default from_option id]. rewrite Hno, Hi. cbn [default from_option id].
  by apply mergeUpdates_finish.
Qed.

Lemma mergeUpdates_fork now s updates oi i d1 :
  findActive (drafts s) = Some i → drafts s !! i = Some d1 →
  shouldStartNewDraftFromUpdate (Some (d_draft d1)) updates oi = true →
  (mergeUpdates now s updates oi).1
  = (set_drafts s (drafts s ++ [mergedDraftObj now (newDraftObj now) updates oi]),
     length (drafts s)).
Proof.
  intros Hact Hi Hyes. unfold mergeUpdates, locateActive. rewrite Hact, Hi.
  cbn [default from_option id]. rewrite Hyes.
  assert (Hnew : (drafts s ++ [newDraftObj now]) !! length (drafts s)
                 = Some (newDraftObj now)).
  { by rewrite lookup_app_r, Nat.sub_diag. }
  rewrite Hnew. cbn [default from_option id].
  etrans; [exact (mergeUpdates_finish now s _ _ _ updates oi Hnew)|].
  f_equal. f_equal.
  rewrite insert_app_r_alt, Nat.sub_diag by done. done.
Qed.

Lemma mergeUpdates_fresh now s updates oi :
  findActive (drafts s) = None →
  (mergeUpdates now s updates oi).1
  = (set_drafts s (drafts s ++ [mergedDraftObj now (newDraftObj now) updates oi]),
     length (drafts s)).
Proof.
  intros Hact. unfold mergeUpdates, locateActive. rewrite Hact.
  assert (Hnew : (drafts s ++ [newDraftObj now]) !! length (drafts s)
                 = Some (newDraftObj now)).
  { by rewrite lookup_app_r, Nat.sub_diag. }
  rewrite Hnew. cbn [default from_option id d_draft newDraftObj].
  rewrite shouldStart_empty, Hnew. cbn [default from_option id].
  etrans; [exact (mergeUpdates_finish now s _ _ _ updates oi Hnew)|].
  f_equal. f_equal.
  rewrite insert_app_r_alt, Nat.sub_diag by done. done.
Qed.

Lemma mergeUpdates_taken now s updates oi :
  ∃ d0, d_state d0 = collecting
        ∧ drafts (mergeUpdates now s updates oi).1.1 !! (mergeUpdates now s updates oi).1.2
          = Some (mergedDraftObj now d0 updates oi).
Proof.
  destruct (findActive (drafts s)) as [i|] eqn:Hact.
  - destruct (findActive_Some _ _ Hact) as (d1 & Hi & Hc).
    destruct (shouldStartNewDraftFromUpdate (Some (d_draft d1)) updates oi) eqn:Hf.
    + rewrite (mergeUpdates_fork now s updates oi i d1 Hact Hi Hf). cbn [fst snd drafts set_drafts].
      exists (newDraftObj now). split; [done|].
      by rewrite lookup_app_r, Nat.sub_diag.
    + rewrite (mergeUpdates_continue now s updates oi i d1 Hact Hi Hf).
      cbn [fst snd drafts set_drafts]. exists d1. split; [done|].
      apply list_lookup_insert_eq. by eapply lookup_lt_Some.
  - rewrite (mergeUpdates_fresh now s updates oi Hact). cbn [fst snd drafts set_drafts].
    exists (newDraftObj now). split; [done|].
    by rewrite lookup_app_r, Nat.sub_diag.
Qed.

(** X8.  A draft that has just taken a fragment carries the time of the
    message and no pending overwrite, and a prune pass within the next 90
    seconds keeps it, whether it is still collecting or awaits
    confirmation. *)
Theorem X8_merged_draft_outlives_prune (now t : Z) (s : session) (updates : obj)
    (oi : bool) (sessions : gmap Z session) (chatId : Z) :
  sessions !! chatId = Some (mergeUpdates now s updates oi).1.1 →
  (t - now <= 90 * 1000)%Z →
  ∃ d', drafts (mergeUpdates now s updates oi).1.1 !! (mergeUpdates now s updates oi).1.2
          = Some d'
        ∧ d_updatedAt d' = now ∧ d_overwriteNext d' = false
        ∧ survives (pruneExpiredDrafts t sessions) chatId d'.
Proof.
  intros Hs Ht. destruct (mergeUpdates_taken now s updates oi) as (d0 & Hc & Hd).
  eexists. split; [exact Hd|]. split; [done|]. split; [done|].
  apply (survives_prune t sessions chatId _ _ Hs).
  - by eapply list_elem_of_lookup_2.
  - unfold fresh_at, mergedDraftObj, ttl, DRAFT_TTL_MS, CONFIRM_TTL_MS.
    cbn [d_updatedAt d_state]. rewrite Hc. case_match; lia.
Qed.

(** X8 at work: a date sent at time 1000 to an empty session, pruned 90
    seconds later. *)
Lemma X8_merged_draft_sample :
  ∃ d', drafts (mergeUpdates 1000 (freshSession 1000)
                  ({[ "date" := VStr "2025-03-01" ]}) false).1.1
          !! (mergeUpdates 1000 (freshSession 1000)
                ({[ "date" := VStr "2025-03-01" ]}) false).1.2 = Some d'
        ∧ d_updatedAt d' = 1000%Z ∧ d_overwriteNext d' = false
        ∧ survives (pruneExpiredDrafts 91000
                      ({[ 1%Z := (mergeUpdates 1000 (freshSession 1000)
                                    ({[ "date" := VStr "2025-03-01" ]}) false).1.1 ]}))
                   1 d'.
Proof.
  apply (X8_merged_draft_outlives_prune 1000 91000 (freshSession 1000)
           ({[ "date" := VStr "2025-03-01" ]}) false).
  - apply lookup_singleton_eq.
  - lia.
Defined.

(** ** The Edit button and the message that follows it *)

Ltac pick_button :=
  repeat first
    [ rewrite startsWith_app
    | match goal with
      | |- context [startsWith ?p ?d] =>
          let b := eval vm_compute in (startsWith p d) in
          change (startsWith p d) with b
      end ];
  cbv iota.

Lemma bot_state_eta (st : bot_state) :
  {| sessions := sessions st; db := db st; reminderJobs := reminderJobs st |} = st.
Proof. by destruct st. Qed.

Lemma findDraft_Some ds draftId i d :
  findDraft ds draftId = Some (i, d) → ds !! i = Some d ∧ d_id d = draftId.
Proof. unfold findDraft. rewrite list_find_Some. tauto. Qed.

Lemma findActive_insert ds i d d' :
  ds !! i = Some d → d_state d' = collecting →
  (∀ j x, (i < j)%nat → ds !! j = Some x → d_state x ≠ collecting) →
  findActive (<[i := d']> ds) = Some i.
Proof.
  intros Hi Hc Hlater. apply (proj1 (findActive_latest _)). split.
  - exists d'. split; [|done]. apply list_lookup_insert_eq. by eapply lookup_lt_Some.
  - intros j x Hj Hx. rewrite list_lookup_insert_ne in Hx by lia. by eapply Hlater.
Qed.

Section EditButton.
Variable getDay : string → option Z.
Variable dateTime : string → option Z.

Lemma draftButtons_edit now st chatId data s i d :
  sessions st !! chatId = Some s → startsWith "edit:" data = true →
  findDraft (drafts s) (payloadId data) = Some (i, d) →
  draftButtons getDay dateTime now st chatId data
  = Some (with_session st chatId
            (set_drafts s (<[i := touch d collecting now true]> (drafts s))),
          [Answer "Send the corrected info now."; AskCorrection (d_draft d)]).
Proof.
  intros Hs Hpre Hfound. apply startsWith_spec in Hpre as [r ->].
  unfold draftButtons.
  rewrite (proj1 (getSession_spec now _ chatId) s Hs), Hfound, bot_state_eta.
  by pick_button.
Qed.

(** X10.  The Edit button arms one overwrite.  When the draft it names is the
    latest collecting one and the next fragment does not start a new draft,
    that fragment is merged into the same draft with overwriting allowed,
    whatever its overwrite intent: every own field of the draft for which
    the fragment has a string takes that string.  The flag is cleared by
    this merge. *)
Theorem X10_edit_arms_one_overwrite (now now' : Z) (st : bot_state) (chatId : Z)
    (data : string) (s : session) (i : nat) (d : draftObj) (updates : obj)
    (oi : bool) :
  sessions st !! chatId = Some s →
  startsWith "edit:" data = true →
  findDraft (drafts s) (payloadId data) = Some (i, d) →
  (∀ j x, (i < j)%nat → drafts s !! j = Some x → d_state x ≠ collecting) →
  shouldStartNewDraftFromUpdate (Some (d_draft d)) updates oi = false →
  ∃ st1 r s1,
    draftButtons getDay dateTime now st chatId data = Some (st1, r)
    ∧ sessions st1 !! chatId = Some s1
    ∧ (mergeUpdates now' s1 updates oi).1.2 = i
    ∧ ∃ d2, drafts (mergeUpdates now' s1 updates oi).1.1 !! i = Some d2
            ∧ d_id d2 = d_id d
            ∧ d_overwriteNext d2 = false
            ∧ d_draft d2 = mergeDraft (d_draft d) updates oi true
            ∧ ∀ k v, is_Some (d_draft d !! k) → updates !! k = Some (VStr v) →
                     d_draft d2 !! k = Some (VStr v).
Proof.
  intros Hs Hpre Hfound Hlater Hno.
  destruct (findDraft_Some _ _ _ _ Hfound) as [Hi _].
  set (d1 := touch d collecting now true).
  set (s1 := set_drafts s (<[i := d1]> (drafts s))).
  assert (Hact : findActive (drafts s1) = Some i) by by eapply findActive_insert.
  assert (Hi1 : drafts s1 !! i = Some d1).
  { apply list_lookup_insert_eq. by eapply lookup_lt_Some. }
  eexists _, _, s1. split; [by apply draftButtons_edit|].
  split; [apply lookup_insert_eq|].
  rewrite (mergeUpdates_continue now' s1 updates oi i d1 Hact Hi1 Hno).
  cbn [fst snd]. split; [done|].
  exists (mergedDraftObj now' d1 updates oi).
  split; [apply list_lookup_insert_eq; by eapply lookup_lt_Some|].
  split; [done|]. split; [done|]. split; [done|].
  intros k v [c Hc] Hu. unfold mergedDraftObj. cbn [d_draft d1 touch d_overwriteNext].
  rewrite mergeDraft_lookup, Hu, Hc, orb_true_r. cbn [merged_field].
  by destruct (truthy (SValue c)).
Qed.

(** X11.  The pending overwrite does not stop a fork.  When the fragment that
    follows Edit changes the date or the title of a draft that already has
    them, a new draft is appended and filled from the fragment alone; the
    edited draft keeps its fields and its armed flag. *)
Theorem X11_fork_ignores_pending_overwrite (now now' : Z) (st : bot_state)
    (chatId : Z) (data : string) (s : session) (i : nat) (d : draftObj)
    (updates : obj) (oi : bool) :
  sessions st !! chatId = Some s →
  startsWith "edit:" data = true →
  findDraft (drafts s) (payloadId data) = Some (i, d) →
  (∀ j x, (i < j)%nat → drafts s !! j = Some x → d_state x ≠ collecting) →
  shouldStartNewDraftFromUpdate (Some (d_draft d)) updates oi = true →
  ∃ st1 r s1,
    draftButtons getDay dateTime now st chatId data = Some (st1, r)
    ∧ sessions st1 !! chatId = Some s1
    ∧ (mergeUpdates now' s1 updates oi).1.2 = length (drafts s)
    ∧ drafts (mergeUpdates now' s1 updates oi).1.1 !! i
      = Some (touch d collecting now true)
    ∧ ∃ d2, drafts (mergeUpdates now' s1 updates oi).1.1 !! length (drafts s) = Some d2
            ∧ d_id d2 = pretty now'
            ∧ d_draft d2 = mergeDraft makeEmptyDraft updates false false.
Proof.
  intros Hs Hpre Hfound Hlater Hyes.
  destruct (findDraft_Some _ _ _ _ Hfound) as [Hi _].
  assert (oi = false) as -> by (destruct oi; [discriminate Hyes | done]).
  set (d1 := touch d collecting now true).
  set (s1 := set_drafts s (<[i := d1]> (drafts s))).
  assert (Hact : findActive (drafts s1) = Some i) by by eapply findActive_insert.
  assert (Hi1 : drafts s1 !! i = Some d1).
  { apply list_lookup_insert_eq. by eapply lookup_lt_Some. }
  assert (Hlen : length (drafts s1) = length (drafts s)) by apply length_insert.
  eexists _, _, s1. split; [by apply draftButtons_edit|].
  split; [apply lookup_insert_eq|].
  rewrite (mergeUpdates_fork now' s1 updates false i d1 Hact Hi1 Hyes).
  cbn [fst snd]. split; [done|]. split.
  - change (drafts (set_drafts s1 ?l)) with l.
    rewrite lookup_app_l by (rewrite Hlen; by eapply lookup_lt_Some). done.
  - eexists. split.
    + change (drafts (set_drafts s1 ?l)) with l.
      rewrite <- Hlen, lookup_app_r, Nat.sub_diag by done. done.
    + done.
Qed.

End EditButton.

(** X10 at work: Edit on the draft of [sampleState], then a start time. *)
Lemma X10_edit_then_start_time :
  ∃ st1 r s1,
    draftButtons (λ _, None) (λ _, None) 1700000001000 sampleState 1
                 "edit:1700000000000" = Some (st1, r)
    ∧ sessions st1 !! 1%Z = Some s1
    ∧ (mergeUpdates 1700000002000 s1 ({[ "start_time" := VStr "18:00" ]}) false).1.2
      = 0%nat
    ∧ ∃ d2, drafts (mergeUpdates 1700000002000 s1
                      ({[ "start_time" := VStr "18:00" ]}) false).1.1 !! 0%nat = Some d2
            ∧ d_id d2 = d_id sampleDraft
            ∧ d_overwriteNext d2 = false
            ∧ d_draft d2 = mergeDraft (d_draft sampleDraft)
                             ({[ "start_time" := VStr "18:00" ]}) false true
            ∧ ∀ k v, is_Some (d_draft sampleDraft !! k) →
                     ({[ "start_time" := VStr "18:00" ]} : obj) !! k = Some (VStr v) →
                     d_draft d2 !! k = Some (VStr v).
Proof.
  apply (X10_edit_arms_one_overwrite (λ _, None) (λ _, None) 1700000001000 1700000002000 sampleState 1
           "edit:1700000000000" sampleSession 0 sampleDraft
           ({[ "start_time" := VStr "18:00" ]}) false).
  - reflexivity.
  - reflexivity.
  - vm_compute. reflexivity.
  - intros [|j] x Hj Hx; [lia | discriminate Hx].
  - vm_compute. reflexivity.
Defined.

(** X11 at work: Edit on the draft of [sampleState], then another date. *)
Lemma X11_edit_then_other_date :
  ∃ st1 r s1,
    draftButtons (λ _, None) (λ _, None) 1700000001000 sampleState 1
                 "edit:1700000000000" = Some (st1, r)
    ∧ sessions st1 !! 1%Z = Some s1
    ∧ (mergeUpdates 1700000002000 s1 ({[ "date" := VStr "2025-03-02" ]}) false).1.2
      = length (drafts sampleSession)
    ∧ drafts (mergeUpdates 1700000002000 s1
                ({[ "date" := VStr "2025-03-02" ]}) false).1.1 !! 0%nat
      = Some (touch sampleDraft collecting 1700000001000 true)
    ∧ ∃ d2, drafts (mergeUpdates 1700000002000 s1
                      ({[ "date" := VStr "2025-03-02" ]}) false).1.1
              !! length (drafts sampleSession) = Some d2
            ∧ d_id d2 = pretty 1700000002000%Z
            ∧ d_draft d2 = mergeDraft makeEmptyDraft
                             ({[ "date" := VStr "2025-03-02" ]}) false false.
Proof.
  apply (X11_fork_ignores_pending_overwrite (λ _, None) (λ _, None) 1700000001000 1700000002000 sampleState 1
           "edit:1700000000000" sampleSession 0 sampleDraft
           ({[ "date" := VStr "2025-03-02" ]}) false).
  - reflexivity.
  - reflexivity.
  - vm_compute. reflexivity.
  - intros [|j] x Hj Hx; [lia | discriminate Hx].
  - vm_compute. reflexivity.
Defined.

(** ** What the draft buttons can do to the state *)

Section ButtonOutcomes.
Variable getDay : string → option Z.
Variable dateTime : string → option Z.

Lemma addEventToDB_spec now st chatId ev st' e :
  addEventToDB dateTime now st chatId ev = Some (st', e) →
  sessions st' = sessions st
  ∧ events (db st') = events (db st) ++ [e]
  ∧ events_seq (db st') = (events_seq (db st) + 1)%Z
  ∧ school_timetable (db st') = school_timetable (db st)
  ∧ reminderJobs st' = scheduleReminder dateTime now (reminderJobs st) chatId e
  ∧ e_id e = (events_seq (db st) + 1)%Z
  ∧ e_chat_id e = chatId.
Proof.
  unfold addEventToDB. intros H.
  destruct (text (get ev "task")); [|done]. destruct (text (get ev "date")); [|done].
  by simplify_eq.
Qed.

Lemma saveDraft_spec now st chatId s draftId d done st1 r :
  saveDraft dateTime now st chatId s draftId d done = (st1, r) →
  (st1 = st ∧ r = failed)
  ∨ ∃ st' e, addEventToDB dateTime now st chatId (d_draft d) = Some (st', e)
             ∧ st1 = with_session st' chatId
                       (set_drafts s (removeDraft (drafts s) draftId))
             ∧ r = done e.
Proof.
  unfold saveDraft. intros H.
  destruct (addEventToDB dateTime now st chatId (d_draft d)) as [[st' e]|] eqn:E.
  - right. exists st', e. by simplify_eq.
  - left. by simplify_eq.
Qed.

End ButtonOutcomes.

(** ** Frame and store invariant of the handlers *)








Lemma eventsOf_filter (P : event → Prop) `{!∀ e, Decision (P e)} (l : list event)
    (c : Z) :
  (∀ e, e_chat_id e = c → P e) →
  filter (λ e, e_chat_id e = c) (filter P l) = filter (λ e, e_chat_id e = c) l.
Proof.
  intros HP. rewrite list_filter_filter. apply list_filter_iff. intros e.
  split; [by intros [? _] | intros He; split; [done | by apply HP]].
Qed.




Section HandlersEvolve.
Variable getDay : string → option Z.
Variable dateTime : string → option Z.
Variable toNumber : string → option Z.
Variable numberText : string → string.





End HandlersEvolve.

(** ** [updateEvent] *)

Lemma updateRow_keepsRequired u e :
  keepsRequired u → ∃ e', updateRow u e = Some e'
                          ∧ e_id e' = e_id e ∧ e_chat_id e' = e_chat_id e.
Proof.
  intros [Ht Hd]. unfold updateRow, setRequired.
  destruct (u_task u) as [[t|]|], (u_date u) as [[d|]|]; try done; by eexists.
Qed.

Lemma updatedRow_keys chatId eventId u x :
  keepsRequired u →
  e_id (updatedRow chatId eventId u x) = e_id x
  ∧ e_chat_id (updatedRow chatId eventId u x) = e_chat_id x.
Proof.
  intros Hu. unfold updatedRow. case_decide; [|done].
  destruct (updateRow_keepsRequired u x Hu) as (e' & -> & ? & ?). done.
Qed.

Lemma update_rows chatId eventId u (l : list event) :
  keepsRequired u →
  mapM (λ e, if decide (isRow chatId eventId e) then updateRow u e else Some e) l
  = Some (updatedRow chatId eventId u <$> l).
Proof.
  intros Hu. apply mapM_Some_2. apply Forall2_fmap_r, Forall_Forall2_diag.
  apply Forall_forall. intros x _. unfold compose, updatedRow. case_decide; [|done].
  destruct (updateRow_keepsRequired u x Hu) as (e' & -> & _). done.
Qed.

Lemma getEvent_updated chatId eventId u (d : database) :
  keepsRequired u →
  getEvent (with_events d (updatedRow chatId eventId u <$> events d)) chatId eventId
  = updatedRow chatId eventId u <$> getEvent d chatId eventId.
Proof.
  intros Hu. unfold getEvent, with_events. cbn [events].
  rewrite list_find_fmap.
  assert (Hext : ∀ l : list event,
            list_find (isRow chatId eventId ∘ updatedRow chatId eventId u) l
            = list_find (isRow chatId eventId) l).
  { induction l as [|x l IH]; [done|]. cbn [list_find].
    destruct (updatedRow_keys chatId eventId u x Hu) as [Hi Hc].
    assert (Hiff : isRow chatId eventId (updatedRow chatId eventId u x)
                   ↔ isRow chatId eventId x) by (unfold isRow; by rewrite Hi, Hc).
    rewrite IH. unfold compose.
    destruct (decide (isRow chatId eventId (updatedRow chatId eventId u x))),
             (decide (isRow chatId eventId x)); try done; exfalso; tauto. }
  rewrite Hext. by destruct (list_find (isRow chatId eventId) (events d)) as [[i x]|].
Qed.

Lemma getEvent_isRow (d : database) chatId eventId e :
  getEvent d chatId eventId = Some e → e ∈ events d ∧ isRow chatId eventId e.
Proof.
  unfold getEvent. destruct (list_find _ _) as [[i x]|] eqn:E; [|done].
  intros [= <-]. apply list_find_Some in E as (Hi & Hx & _).
  split; [by eapply list_elem_of_lookup_2 | done].
Qed.

Section UpdateEvent.
Variable dateTime : string → option Z.

Lemma updateEvent_keepsRequired now st chatId eventId u :
  setsEmpty u = false → keepsRequired u →
  updateEvent dateTime now st chatId eventId u
  = Some {| sessions := sessions st;
            db := with_events (db st) (updatedRow chatId eventId u <$> events (db st));
            reminderJobs :=
              match updatedRow chatId eventId u <$> getEvent (db st) chatId eventId with
              | Some event =>
                  scheduleReminder dateTime now
                    (cancelReminder (reminderJobs st) eventId) chatId event
              | None => cancelReminder (reminderJobs st) eventId
              end |}.
Proof.
  intros Hne Hu. unfold updateEvent. rewrite Hne, update_rows by done.
  by rewrite getEvent_updated.
Qed.

(** X15.  An update that sets at least one column and assigns NULL to
    neither the title nor the date succeeds.  It rewrites the rows with the
    given id and conversation in place and keeps every id; the reminders of
    the event are afterwards those of the updated row alone, nothing of the
    old schedule stays, and reminders under other keys are untouched.  When
    no row has that id in that conversation the table is unchanged, and the
    reminder keys of the id are removed all the same. *)
Theorem X15_updateEvent_refreshes_reminders (now : Z) (st : bot_state)
    (chatId eventId : Z) (u : event_updates) :
  setsEmpty u = false → keepsRequired u →
  ∃ st1,
    updateEvent dateTime now st chatId eventId u = Some st1
    ∧ sessions st1 = sessions st
    ∧ events (db st1) = updatedRow chatId eventId u <$> events (db st)
    ∧ e_id <$> events (db st1) = e_id <$> events (db st)
    ∧ getEvent (db st1) chatId eventId
      = updatedRow chatId eventId u <$> getEvent (db st) chatId eventId
    ∧ (∀ k, k ∉ reminderKeys eventId → reminderJobs st1 !! k = reminderJobs st !! k)
    ∧ (∀ k, k ∈ reminderKeys eventId →
         reminderJobs st1 !! k
         = match getEvent (db st1) chatId eventId with
           | Some e' => scheduleReminder dateTime now ∅ chatId e' !! k
           | None => None
           end)
    ∧ (getEvent (db st) chatId eventId = None → events (db st1) = events (db st)).
Proof.
  intros Hne Hu. eexists. split; [by apply updateEvent_keepsRequired|].
  cbn [sessions db reminderJobs with_events events].
  split; [done|]. split; [done|]. split.
  { rewrite <- list_fmap_compose. apply list_fmap_ext. intros i x _.
    apply (updatedRow_keys chatId eventId u x Hu). }
  split; [by apply getEvent_updated|].
  rewrite (getEvent_updated chatId eventId u (db st) Hu).
  destruct (getEvent (db st) chatId eventId) as [e|] eqn:Hget; cbn [fmap option_fmap option_map].
  - apply getEvent_isRow in Hget as [_ [Hid _]].
    assert (Hid' : e_id (updatedRow chatId eventId u e) = eventId).
    { by rewrite (proj1 (updatedRow_keys chatId eventId u e Hu)). }
    split; [|split; [|done]].
    + intros k Hk. rewrite scheduleReminder_other by by rewrite Hid'.
      by rewrite cancelReminder_lookup, bool_decide_eq_false_2.
    + intros k Hk. rewrite scheduleReminder_union, lookup_union_l; [done|].
      by rewrite cancelReminder_lookup, bool_decide_eq_true_2.
  - split; [|split].
    + intros k Hk. by rewrite cancelReminder_lookup, bool_decide_eq_false_2.
    + intros k Hk. by rewrite cancelReminder_lookup, bool_decide_eq_true_2.
    + intros _. rewrite <- (list_fmap_id (events (db st))) at 2.
      apply list_fmap_ext. intros i x Hx. unfold updatedRow. case_decide as Hrow; [|done].
      exfalso. unfold getEvent in Hget.
      destruct (list_find (isRow chatId eventId) (events (db st))) eqn:E; [done|].
      apply list_find_None in E. apply list_elem_of_lookup_2 in Hx.
      by apply (proj1 (Forall_forall _ _) E x Hx).
Qed.
End UpdateEvent.

(** X15 at work: [sampleEvent] gets another title. *)
Lemma X15_retitle_sample :
  ∃ st1,
    updateEvent (λ _, None) 1700000000000 sampleState 1 5 (retitle "Yoga") = Some st1
    ∧ sessions st1 = sessions sampleState
    ∧ events (db st1) = updatedRow 1 5 (retitle "Yoga") <$> events (db sampleState)
    ∧ e_id <$> events (db st1) = e_id <$> events (db sampleState)
    ∧ getEvent (db st1) 1 5
      = updatedRow 1 5 (retitle "Yoga") <$> getEvent (db sampleState) 1 5
    ∧ (∀ k, k ∉ reminderKeys 5 → reminderJobs st1 !! k = reminderJobs sampleState !! k)
    ∧ (∀ k, k ∈ reminderKeys 5 →
         reminderJobs st1 !! k
         = match getEvent (db st1) 1 5 with
           | Some e' => scheduleReminder (λ _, None) 1700000000000 ∅ 1 e' !! k
           | None => None
           end)
    ∧ (getEvent (db sampleState) 1 5 = None → events (db st1) = events (db sampleState)).
Proof.
  apply (X15_updateEvent_refreshes_reminders (λ _, None) 1700000000000 sampleState 1 5
           (retitle "Yoga")).
  - reflexivity.
  - split; discriminate.
Defined.

(** ** The message handler keeps the frame and the store invariant *)




Section MessageEvolves.
Variable getDay : string → option Z.
Variable dateTime : string → option Z.
Variable toNumber : string → option Z.
Variable numberText : string → string.







End MessageEvolves.



(** ** A saved or discarded draft cannot be used again *)

Lemma findDraft_removeDraft ds draftId : findDraft (removeDraft ds draftId) draftId = None.
Proof.
  apply findDraft_None. intros d Hd. unfold removeDraft in Hd.
  by apply list_elem_of_filter in Hd as [? _].
Qed.

Lemma events_seq_delete_all {A} (f : A → Z) chatId st (l : list A) :
  events_seq (db (foldl (λ acc c, deleteEvent acc chatId (f c)) st l))
  = events_seq (db st).
Proof.
  revert st. induction l as [|c l IH]; intros st; [done|]. cbn [foldl]. by rewrite IH.
Qed.

Section Replay.
Variable getDay : string → option Z.
Variable dateTime : string → option Z.

Lemma draftButtons_stale now st chatId data action s :
  sessions st !! chatId = Some s →
  action ∈ draftActions → startsWith action data = true →
  findDraft (drafts s) (payloadId data) = None →
  draftButtons getDay dateTime now st chatId data = Some (st, expired).
Proof.
  intros Hs Hact Hpre Hnone. apply startsWith_spec in Hpre as [r ->].
  unfold draftButtons.
  rewrite (proj1 (getSession_spec now _ chatId) s Hs), Hnone, bot_state_eta.
  unfold draftActions in Hact. rewrite !elem_of_cons, elem_of_nil in Hact.
  destruct Hact as [-> | [-> | [-> | [-> | [-> | [-> | []]]]]]]; by pick_button.
Qed.

(** X12.  A draft is used up once the handler that saved or discarded it
    has returned.  When the run of a Discard press, or of a Confirm,
    Keep-both or Replace press that stored an event, has come to its end,
    every draft button pressed afterwards with the same draft id is
    answered with "Draft expired" and changes nothing.  The statement is
    about handler runs that follow one another; a press that is handled
    while the first run still awaits the store is outside it. *)
Theorem X12_finished_press_uses_up_the_draft (now : Z) (st : bot_state) (chatId : Z)
    (data action : string) (st1 : bot_state) (r : list reply) :
  action ∈ ["confirm:"; "discard:"; "conflict_keep:"; "conflict_replace:"] →
  startsWith action data = true →
  draftButtons getDay dateTime now st chatId data = Some (st1, r) →
  action = "discard:" ∨ events_seq (db st1) ≠ events_seq (db st) →
  ∀ now2 action2 data2,
    action2 ∈ draftActions → startsWith action2 data2 = true →
    payloadId data2 = payloadId data →
    draftButtons getDay dateTime now2 st1 chatId data2 = Some (st1, expired).
Proof.
  intros Hact Hpre Hrun Hused now2 action2 data2 Hact2 Hpre2 Hid.
  assert (Hgone : ∃ s1, sessions st1 !! chatId = Some s1
                        ∧ findDraft (drafts s1) (payloadId data) = None).
  { revert Hrun. apply startsWith_spec in Hpre as [rest ->].
    unfold draftButtons.
    destruct (getSession now (sessions st) chatId) as [sessions1 s] eqn:Hget.
    assert (Hs : sessions1 !! chatId = Some s).
    { destruct (sessions st !! chatId) as [s0|] eqn:E.
      - rewrite (proj1 (getSession_spec now _ chatId) s0 E) in Hget. by simplify_eq.
      - rewrite (proj2 (getSession_spec now _ chatId) E) in Hget. simplify_eq.
        apply lookup_insert_eq. }
    set (stg := {| sessions := sessions1; db := db st; reminderJobs := reminderJobs st |}).
    set (draftId := payloadId (action +:+ rest)).
    assert (Hsave : ∀ stm d done,
              events_seq (db stm) = events_seq (db st) →
              saveDraft dateTime now stm chatId s draftId d done = (st1, r) →
              events_seq (db st1) ≠ events_seq (db st) →
              ∃ s1, sessions st1 !! chatId = Some s1
                    ∧ findDraft (drafts s1) draftId = None).
    { intros stm d done Hseq Hsv Hne.
      apply saveDraft_spec in Hsv as [[-> _] | (st' & e & _ & -> & _)]; [done|].
      eexists. split; [apply lookup_insert_eq|]. apply findDraft_removeDraft. }
    destruct (findDraft (drafts s) draftId) as [[i d]|] eqn:Hfound.
    - rewrite !elem_of_cons, elem_of_nil in Hact.
      destruct Hact as [-> | [-> | [-> | [-> | []]]]]; pick_button.
      + destruct Hused as [|Hne]; [done|].
        repeat case_match; intros Hrun; simplify_eq;
          try (exfalso; by apply Hne).
        by eapply (Hsave stg).
      + intros [= <- <-]. eexists. split; [apply lookup_insert_eq|].
        apply findDraft_removeDraft.
      + destruct Hused as [|Hne]; [done|]. intros [= Hsv]. by eapply (Hsave stg).
      + destruct Hused as [|Hne]; [done|]. intros [= Hsv].
        eapply Hsave; [|exact Hsv|done].
        exact (events_seq_delete_all conflict_id chatId stg _).
    - intros Hrun.
      assert (st1 = stg) as ->.
      { rewrite !elem_of_cons, elem_of_nil in Hact.
        destruct Hact as [-> | [-> | [-> | [-> | []]]]]; revert Hrun; pick_button;
          by intros [= <- _]. }
      exists s. done. }
  destruct Hgone as (s1 & Hs1 & Hnone). rewrite <- Hid in Hnone.
  by eapply draftButtons_stale.
Qed.
End Replay.

(** X12 at work: Confirm on the draft of [sampleState] stores event 6; a
    Confirm pressed after that run finds no draft. *)
Lemma X12_confirm_after_confirm :
  draftButtons (λ _, None) (λ _, None) 1700000002000
    (default (sampleState, [])
       (draftButtons (λ _, None) (λ _, None) 1700000001000 sampleState 1
                     "confirm:1700000000000")).1 1 "confirm:1700000000000"
  = Some ((default (sampleState, [])
             (draftButtons (λ _, None) (λ _, None) 1700000001000 sampleState 1
                           "confirm:1700000000000")).1, expired).
Proof.
  apply (X12_finished_press_uses_up_the_draft (λ _, None) (λ _, None) 1700000001000
           sampleState 1 "confirm:1700000000000" "confirm:" _
           (default (sampleState, [])
              (draftButtons (λ _, None) (λ _, None) 1700000001000 sampleState 1
                            "confirm:1700000000000")).2)
    with (action2 := "confirm:").
  - apply list_elem_of_here.
  - reflexivity.
  - vm_compute. reflexivity.
  - right. vm_compute. discriminate.
  - apply list_elem_of_here.
  - reflexivity.
  - reflexivity.
Defined.

(** ** Confirming a draft without a start time *)

Lemma falsy_text (o : obj) k :
  inherited k = false → truthy (get o k) = false →
  text (get o k) = None ∨ text (get o k) = Some "".
Proof.
  unfold get. intros -> H. destruct (o !! k) as [[|v]|]; [by left | | by left].
  cbn in H. case_bool_decide; [subst; by right | done].
Qed.

Section ConfirmAllDay.
Variable getDay : string → option Z.
Variable dateTime : string → option Z.

(** X20.  Confirm on a complete draft that has no start time saves it at
    once: no conflict is looked for, whatever the day holds, the event is
    stored under the next id with the title and date of the draft, no
    reminder is registered, and the draft leaves the session. *)
Theorem X20_confirm_without_start_time (now : Z) (st : bot_state) (chatId : Z)
    (data : string) (s : session) (i : nat) (d : draftObj) :
  sessions st !! chatId = Some s →
  startsWith "confirm:" data = true →
  findDraft (drafts s) (payloadId data) = Some (i, d) →
  draftIsCompleteEnough (d_draft d) = true →
  truthy (get (d_draft d) "start_time") = false →
  ∃ st1 e,
    draftButtons getDay dateTime now st chatId data
    = Some (st1, [Answer "Saved."; ShowSaved e; MainMenu])
    ∧ events (db st1) = events (db st) ++ [e]
    ∧ e_id e = (events_seq (db st) + 1)%Z
    ∧ e_chat_id e = chatId
    ∧ d_draft d !! "task" = Some (VStr (e_task e))
    ∧ d_draft d !! "date" = Some (VStr (e_date e))
    ∧ e_start_time e = None
    ∧ reminderJobs st1 = reminderJobs st
    ∧ sessions st1
      = <[chatId := set_drafts s (removeDraft (drafts s) (payloadId data))]> (sessions st).
Proof.
  intros Hs Hpre Hfound Hcomplete Hnotime.
  apply startsWith_spec in Hpre as [rest ->].
  pose proof Hcomplete as Hc.
  apply draftIsCompleteEnough_spec in Hc as [(task & Htask & _) (date & Hdate & _)].
  unfold draftButtons.
  rewrite (proj1 (getSession_spec now _ chatId) s Hs), Hfound, bot_state_eta, Hcomplete.
  pick_button. cbn [negb].
  assert (Hnone : draftConflicts getDay st chatId (d_draft d) = []).
  { unfold draftConflicts, checkConflicts.
    destruct (falsy_text (d_draft d) "start_time" eq_refl Hnotime) as [-> | ->]; done. }
  rewrite Hnone. cbn [length bool_decide]. rewrite bool_decide_eq_false_2 by (cbn; lia).
  unfold saveDraft, addEventToDB, get. rewrite Htask, Hdate. cbn [text].
  eexists _, _. split; [reflexivity|].
  cbn [db events e_id e_chat_id e_task e_date e_start_time reminderJobs sessions
       with_session].
  assert (Hstart : orNull (text (get (d_draft d) "start_time")) = None).
  { destruct (falsy_text (d_draft d) "start_time" eq_refl Hnotime) as [-> | ->]; done. }
  unfold get in Hstart. rewrite Hstart.
  do 6 (split; [done|]). split; [|done].
  unfold scheduleReminder. by cbn [e_start_time].
Qed.
End ConfirmAllDay.

(** X20 at work: the draft of [sampleState] has a title and a date and no
    time. *)
Lemma X20_confirm_sample_draft :
  ∃ st1 e,
    draftButtons (λ _, None) (λ _, None) 1700000001000 sampleState 1
                 "confirm:1700000000000"
    = Some (st1, [Answer "Saved."; ShowSaved e; MainMenu])
    ∧ events (db st1) = events (db sampleState) ++ [e]
    ∧ e_id e = (events_seq (db sampleState) + 1)%Z
    ∧ e_chat_id e = 1%Z
    ∧ d_draft sampleDraft !! "task" = Some (VStr (e_task e))
    ∧ d_draft sampleDraft !! "date" = Some (VStr (e_date e))
    ∧ e_start_time e = None
    ∧ reminderJobs st1 = reminderJobs sampleState
    ∧ sessions st1
      = <[1%Z := set_drafts sampleSession
                   (removeDraft (drafts sampleSession)
                      (payloadId "confirm:1700000000000"))]> (sessions sampleState).
Proof.
  apply (X20_confirm_without_start_time (λ _, None) (λ _, None) 1700000001000
           sampleState 1 "confirm:1700000000000" sampleSession 0 sampleDraft).
  - reflexivity.
  - reflexivity.
  - vm_compute. reflexivity.
  - vm_compute. reflexivity.
  - vm_compute. reflexivity.
Defined.

(** ** Editing a stored event: the button, then the message *)

Section FieldEdit.
Variable getDay : string → option Z.
Variable dateTime : string → option Z.
Variable toNumber : string → option Z.
Variable numberText : string → string.
Variable parse : string → parse_result.

End FieldEdit.


(** ** The multi-event path *)

Lemma idsFrom_cons first n : idsFrom first (S n) = first :: idsFrom (first + 1) n.
Proof.
  unfold idsFrom. cbn [seq fmap list_fmap]. f_equal; [f_equal; lia|].
  rewrite <- seq_shift, <- list_fmap_compose. apply list_fmap_ext.
  intros i k _. cbn. lia.
Qed.

Section MultiEvent.
Variable dateTime : string → option Z.

Lemma addEventToDB_insertable now st chatId ev :
  (insertable ev ↔ is_Some (addEventToDB dateTime now st chatId ev))
  ∧ ∀ st' e, addEventToDB dateTime now st chatId ev = Some (st', e) →
             text (get ev "task") = Some (e_task e)
             ∧ text (get ev "date") = Some (e_date e).
Proof.
  unfold insertable, addEventToDB.
  destruct (text (get ev "task")) as [t|], (text (get ev "date")) as [d|].
  - split; [split; [by eexists | by split; eexists]|]. intros st' e [= <- <-]. done.
  - split; [|done]. split; [by intros [_ [? ?]] | by intros [? ?]].
  - split; [|done]. split; [by intros [[? ?] _] | by intros [? ?]].
  - split; [|done]. split; [by intros [[? ?] _] | by intros [? ?]].
Qed.

Lemma commitEvents_spec now chatId parsed st saved0 :
  ∃ new st1 finished,
    commitEvents dateTime now st chatId parsed saved0 = (st1, saved0 ++ new, finished)
    ∧ sessions st1 = sessions st
    ∧ events (db st1) = events (db st) ++ new
    ∧ events_seq (db st1) = (events_seq (db st) + Z.of_nat (length new))%Z
    ∧ e_id <$> new = idsFrom (events_seq (db st) + 1) (length new)
    ∧ Forall (λ e, e_chat_id e = chatId) new
    ∧ Forall2 (λ ev e, text (get ev "task") = Some (e_task e)
                       ∧ text (get ev "date") = Some (e_date e))
              (take (length new) parsed) new
    ∧ (finished = true → length new = length parsed)
    ∧ (finished = false → ∃ ev, parsed !! length new = Some ev ∧ ¬ insertable ev).
Proof.
  revert st saved0. induction parsed as [|ev rest IH]; intros st saved0.
  - exists [], st, true. cbn [commitEvents length]. rewrite app_nil_r.
    split; [done|]. split; [done|]. split; [by rewrite app_nil_r|].
    split; [lia|]. split; [done|]. split; [done|]. split; [constructor|].
    split; done.
  - cbn [commitEvents].
    destruct (addEventToDB_insertable now st chatId ev) as [Hins Hfields].
    destruct (addEventToDB dateTime now st chatId ev) as [[st' e]|] eqn:Hadd.
    + destruct (Hfields st' e eq_refl) as [Ht Hd].
      apply addEventToDB_spec in Hadd as (Hs & He & Hq & _ & _ & Hid & Hch).
      destruct (IH st' (saved0 ++ [e]))
        as (new & st1 & fin & -> & Hs1 & He1 & Hq1 & Hids & Hchats & Hf2 & Hfin & Hstop).
      exists (e :: new), st1, fin. cbn [length].
      split; [by rewrite <- app_assoc|]. split; [congruence|].
      split; [by rewrite He1, He, <- app_assoc|]. split; [lia|].
      split; [by rewrite idsFrom_cons, fmap_cons, Hid, Hids, Hq|].
      split; [by constructor|]. split; [by constructor|].
      split; [intros Hf; by rewrite Hfin|]. done.
    + exists [], st, false. cbn [length]. rewrite app_nil_r.
      split; [done|]. split; [done|]. split; [by rewrite app_nil_r|].
      split; [lia|]. split; [done|]. split; [done|]. split; [constructor|].
      split; [done|]. intros _. exists ev. split; [done|].
      intros Hyes. apply Hins in Hyes as [? ?]. done.
Qed.

(** X17.  The multi-event path stores the extracted events in order, with
    consecutive ids after the counter, for the conversation of the message,
    each with the title and date it was extracted with, and asks nothing
    about conflicts.  The loop runs to its end exactly when every event has
    a title and a date; otherwise it stops at the first one that has not,
    and the events before it stay stored. *)
Theorem X17_commitEvents (now : Z) (st : bot_state) (chatId : Z) (parsed : list obj) :
  ∃ saved st1 finished,
    commitEvents dateTime now st chatId parsed [] = (st1, saved, finished)
    ∧ sessions st1 = sessions st
    ∧ events (db st1) = events (db st) ++ saved
    ∧ events_seq (db st1) = (events_seq (db st) + Z.of_nat (length saved))%Z
    ∧ e_id <$> saved = idsFrom (events_seq (db st) + 1) (length saved)
    ∧ Forall (λ e, e_chat_id e = chatId) saved
    ∧ Forall2 (λ ev e, text (get ev "task") = Some (e_task e)
                       ∧ text (get ev "date") = Some (e_date e))
              (take (length saved) parsed) saved
    ∧ (finished = true ↔ Forall insertable parsed)
    ∧ (finished = true → length saved = length parsed)
    ∧ (finished = false → ∃ ev, parsed !! length saved = Some ev ∧ ¬ insertable ev).
Proof.
  destruct (commitEvents_spec now chatId parsed st [])
    as (saved & st1 & fin & Hrun & Hs & He & Hq & Hids & Hch & Hf2 & Hfin & Hstop).
  exists saved, st1, fin. do 7 (split; [done|]). split; [|done].
  split.
  - intros Hf. specialize (Hfin Hf). rewrite Hfin, firstn_all in Hf2.
    apply Forall_forall. intros ev Hev.
    apply list_elem_of_lookup_1 in Hev as [i Hi].
    destruct (Forall2_lookup_l _ _ _ _ _ Hf2 Hi) as (e & _ & Ht & Hd).
    split; by eexists.
  - intros Hall. destruct fin; [done|].
    destruct (Hstop eq_refl) as (ev & Hev & Hno). exfalso. apply Hno.
    apply (proj1 (Forall_forall _ _) Hall). by eapply list_elem_of_lookup_2.
Qed.
End MultiEvent.

(** ** Day names *)

Lemma trimStart_elem_of s x : x ∈ trimStart s → x ∈ s.
Proof.
  induction s as [|c r IH]; [done|]. cbn [trimStart].
  destruct (isSpace c); [|done]. intros Hx. apply list_elem_of_further. by apply IH.
Qed.

Lemma elem_of_rev {A} (l : list A) x : x ∈ rev l ↔ x ∈ l.
Proof. rewrite !list_elem_of_In. symmetry. apply in_rev. Qed.

Lemma trim_elem_of s x : x ∈ trim s → x ∈ s.
Proof.
  unfold trim, trimEnd. rewrite elem_of_rev. intros Hx.
  apply trimStart_elem_of in Hx. rewrite elem_of_rev in Hx.
  by apply trimStart_elem_of.
Qed.

Lemma toLowerUnit_notCapital c : notCapital (toLowerUnit c) = true.
Proof.
  unfold notCapital, toLowerUnit.
  destruct ((65 <=? c)%N && (c <=? 90)%N) eqn:E.
  - apply andb_true_iff in E as [H1 H2]. apply N.leb_le in H1, H2.
    apply negb_true_iff, andb_false_iff. right. apply N.leb_gt. lia.
  - by rewrite E.
Qed.

Lemma toLowerCase_idem s : toLowerCase (toLowerCase s) = toLowerCase s.
Proof.
  unfold toLowerCase. rewrite <- list_fmap_compose. apply list_fmap_ext.
  intros i c _. cbn. pose proof (toLowerUnit_notCapital c) as H.
  unfold notCapital in H. apply negb_true_iff in H.
  unfold toLowerUnit at 1. by rewrite H.
Qed.

Lemma lookupDay_Some day m n : lookupDay day m = Some n → ∃ k, (k, n) ∈ m.
Proof.
  induction m as [|[k x] m IH]; [done|]. cbn [lookupDay]. case_bool_decide.
  - intros [= <-]. exists k. apply list_elem_of_here.
  - intros H'. destruct (IH H') as [k' Hk']. exists k'. by apply list_elem_of_further.
Qed.

(** X18.  Day names.  [getDayName] knows exactly the numbers 0 to 6, and
    [parseDayOfWeek] reads each of its names back as the number it came
    from.  A number that [parseDayOfWeek] returns lies between 0 and 6, and
    capital letters in its input make no difference.  Its result is not
    always a number or [null]: the names [constructor] and [__proto__] give
    the member that the table inherits. *)
Theorem X18_day_names :
  (∀ n, (0 <= n <= 6)%Z →
        ∃ name, getDayName n = Some name ∧ parseDayOfWeek (units name) = DayNumber n)
  ∧ (∀ n, ¬ (0 <= n <= 6)%Z → getDayName n = None)
  ∧ (∀ s n, parseDayOfWeek s = DayNumber n → (0 <= n <= 6)%Z)
  ∧ (∀ s, parseDayOfWeek (toLowerCase s) = parseDayOfWeek s)
  ∧ (∀ s k, parseDayOfWeek s = DayBuiltin k → k = "constructor" ∨ k = "__proto__")
  ∧ parseDayOfWeek (units " Constructor ") = DayBuiltin "constructor".
Proof.
  split; [|split; [|split; [|split; [|split]]]].
  - intros n Hn.
    assert (n = 0 ∨ n = 1 ∨ n = 2 ∨ n = 3 ∨ n = 4 ∨ n = 5 ∨ n = 6)%Z
      as [-> | [-> | [-> | [-> | [-> | [-> | ->]]]]]] by lia;
      eexists; (split; [reflexivity | vm_compute; reflexivity]).
  - intros n Hn. unfold getDayName. case_bool_decide as H0; [|done].
    apply lookup_ge_None. cbn [length]. lia.
  - intros s n. unfold parseDayOfWeek.
    destruct (lookupDay (trim (toLowerCase s)) dayMap) as [x|] eqn:E.
    + intros [= <-]. apply lookupDay_Some in E as [k Hk].
      assert (Hall : Forall (λ kn : string * Z, (0 <= kn.2 <= 6)%Z) dayMap).
      { unfold dayMap. repeat constructor; cbn; lia. }
      by apply (proj1 (Forall_forall _ _) Hall (k, x)).
    + by destruct (list_find _ _) as [[? ?]|].
  - intros s. unfold parseDayOfWeek. by rewrite toLowerCase_idem.
  - intros s k. unfold parseDayOfWeek.
    destruct (lookupDay (trim (toLowerCase s)) dayMap); [done|].
    destruct (list_find _ _) as [[i k']|] eqn:E; [|done]. intros [= <-].
    apply list_find_Some in E as (Hi & Hk & _).
    assert (Hlow : forallb notCapital (units k') = true).
    { apply forallb_forall. intros c Hc. rewrite Hk in Hc.
      apply list_elem_of_In, trim_elem_of in Hc. unfold toLowerCase in Hc.
      apply list_elem_of_fmap in Hc as (c0 & -> & _). apply toLowerUnit_notCapital. }
    apply list_elem_of_lookup_2 in Hi. unfold ObjectPrototype in Hi.
    rewrite !elem_of_cons, elem_of_nil in Hi.
    destruct Hi as [-> | [-> | [-> | [-> | [-> | [-> | [-> | [-> | [-> | [-> | [-> | [-> | []]]]]]]]]]]]];
      first [ by left | by right | (exfalso; vm_compute in Hlow; discriminate Hlow) ].
  - vm_compute. reflexivity.
Qed.

(** ** [escapeMarkdown] *)

Lemma escapeMarkdown_head text a r :
  escapeMarkdown text = String a r → isMarkdownSpecial a = false.
Proof.
  destruct text as [|b t]; [done|]. cbn [escapeMarkdown].
  destruct (isMarkdownSpecial b) eqn:E; intros [= <- _]; done.
Qed.

Lemma escapeMarkdown_inj a b : escapeMarkdown a = escapeMarkdown b → a = b.
Proof.
  revert b. induction a as [|x a IH]; intros [|y b]; cbn [escapeMarkdown].
  - done.
  - by destruct (isMarkdownSpecial y).
  - by destruct (isMarkdownSpecial x).
  - destruct (isMarkdownSpecial x) eqn:Ex, (isMarkdownSpecial y) eqn:Ey.
    + intros [= -> H]. by rewrite (IH b H).
    + intros [= <- H]. symmetry in H. apply escapeMarkdown_head in H. congruence.
    + intros [= -> H]. apply escapeMarkdown_head in H. congruence.
    + intros [= -> H]. by rewrite (IH b H).
Qed.

Lemma escapeMarkdown_guarded text i c :
  String.get i (escapeMarkdown text) = Some c → isMarkdownSpecial c = true →
  ∃ j, i = S j ∧ String.get j (escapeMarkdown text) = Some "\"%char.
Proof.
  revert i. induction text as [|a r IH]; intros i; [done|]. cbn [escapeMarkdown].
  destruct (isMarkdownSpecial a) eqn:Ea.
  - destruct i as [|[|i]]; cbn [String.get].
    + intros [= <-]. done.
    + intros _ _. by exists 0%nat.
    + intros Hc Hs. destruct (IH i Hc Hs) as (j & -> & Hj). by exists (S (S j)).
  - destruct i as [|i]; cbn [String.get].
    + intros [= <-]. congruence.
    + intros Hc Hs. destruct (IH i Hc Hs) as (j & -> & Hj). by exists (S j).
Qed.

(** X19.  [escapeMarkdown] puts a backslash before each of the characters
    [_ * [ ] `] and changes nothing else: in its result every such character
    stands directly after a backslash, the result is longer by the number
    of these characters, a text without them is returned as it is, and two
    different texts never escape to the same text. *)
Theorem X19_escapeMarkdown (text : string) :
  (∀ i c, String.get i (escapeMarkdown text) = Some c → isMarkdownSpecial c = true →
          ∃ j, i = S j ∧ String.get j (escapeMarkdown text) = Some "\"%char)
  ∧ String.length (escapeMarkdown text) = (String.length text + countSpecial text)%nat
  ∧ (countSpecial text = 0%nat → escapeMarkdown text = text)
  ∧ (∀ other, escapeMarkdown text = escapeMarkdown other → text = other).
Proof.
  split; [apply escapeMarkdown_guarded|]. split; [|split].
  - induction text as [|a r IH]; [done|]. cbn [escapeMarkdown countSpecial].
    destruct (isMarkdownSpecial a); cbn [String.length]; rewrite IH; lia.
  - induction text as [|a r IH]; [done|]. cbn [escapeMarkdown countSpecial].
    destruct (isMarkdownSpecial a); [done|]. cbn. intros H. by rewrite IH.
  - apply escapeMarkdown_inj.
Qed.

(** ** Restart and [/clear] *)

Lemma registerReminder_Some now eventDateTime chatId ev jobs offset k j :
  registerReminder now eventDateTime chatId ev jobs offset !! k = Some j →
  jobs !! k = Some j
  ∨ (k = jobKey (e_id ev) offset.1 ∧ job_event j = ev ∧ job_chat j = chatId
     ∧ (now < job_at j)%Z).
Proof.
  unfold registerReminder. destruct eventDateTime as [start|]; [|by left].
  cbn [num_add fmap option_fmap option_map num_lt default]. case_bool_decide as Hlt; [|by left].
  destruct (decide (k = jobKey (e_id ev) offset.1)) as [->|Hne].
  - rewrite lookup_insert_eq. intros [= <-]. right. done.
  - rewrite lookup_insert_ne by done. by left.
Qed.

Lemma clear_all_jobs (jobs : gmap string job) :
  foldl (λ jobs entry, delete entry.1 jobs) jobs (map_to_list jobs) = ∅.
Proof.
  assert (Hfold : ∀ (l : list (string * job)) (m : gmap string job) k,
            foldl (λ jobs entry, delete entry.1 jobs) m l !! k
            = if bool_decide (k ∈ l.*1) then None else m !! k).
  { induction l as [|[k0 j0] l IH]; intros m k; [done|]. cbn [foldl fmap list_fmap fst].
    rewrite IH. case_bool_decide as Hin.
    - rewrite bool_decide_eq_true_2; [done|]. by apply list_elem_of_further.
    - destruct (decide (k = k0)) as [->|Hne].
      + rewrite bool_decide_eq_true_2 by apply list_elem_of_here.
        apply lookup_delete_eq.
      + rewrite lookup_delete_ne by done.
        rewrite bool_decide_eq_false_2; [done|].
        rewrite elem_of_cons. intros [? | ?]; done. }
  apply map_eq. intros k. rewrite Hfold, lookup_empty. case_bool_decide as Hin; [done|].
  destruct (jobs !! k) as [j|] eqn:E; [|done]. exfalso. apply Hin.
  apply list_elem_of_fmap. exists (k, j). split; [done|]. by apply elem_of_map_to_list.
Qed.

Section Restart.
Variable dateTime : string → option Z.
Variable storedChatId : Z → Z.

Lemma scheduleReminder_Some now jobs chatId ev k j :
  scheduleReminder dateTime now jobs chatId ev !! k = Some j →
  jobs !! k = Some j
  ∨ (k ∈ reminderKeys (e_id ev) ∧ job_event j = ev ∧ job_chat j = chatId
     ∧ (now < job_at j)%Z).
Proof.
  unfold scheduleReminder. destruct (e_start_time ev) as [st|]; [|by left].
  case_bool_decide as Hempty; [by left|]. cbn [foldl reminderOffsets]. intros H.
  unfold reminderKeys.
  apply registerReminder_Some in H as [H | (-> & ? & ? & ?)];
    [|right; split; [|done]; cbn; set_solver].
  apply registerReminder_Some in H as [H | (-> & ? & ? & ?)];
    [|right; split; [|done]; cbn; set_solver].
  apply registerReminder_Some in H as [H | (-> & ? & ? & ?)];
    [by left | right; split; [|done]; cbn; set_solver].
Qed.

(** X21.  What a restart registers.  [rescheduleAllReminders] changes
    neither sessions nor events, and every job it adds to the registry
    belongs to a stored event that has a start time and is dated today or
    later: it stands under one of the three keys of that event, carries the
    event and is due after [now].  Its addressee is the [chat_id] of the
    row as it is read back from the TEXT column, which for a chat id beyond
    32 bits is not the numeral of the conversation's id. *)
Theorem X21_rescheduleAllReminders (now : Z) (today : string) (st : bot_state) :
  sessions (rescheduleAllReminders dateTime storedChatId now today st) = sessions st
  ∧ db (rescheduleAllReminders dateTime storedChatId now today st) = db st
  ∧ ∀ k j, reminderJobs (rescheduleAllReminders dateTime storedChatId now today st) !! k
           = Some j →
           reminderJobs st !! k = Some j
           ∨ ∃ e, e ∈ events (db st)
                  ∧ String.leb today (e_date e) = true ∧ is_Some (e_start_time e)
                  ∧ k ∈ reminderKeys (e_id e) ∧ job_event j = e
                  ∧ job_chat j = storedChatId (e_chat_id e) ∧ (now < job_at j)%Z.
Proof.
  split; [done|]. split; [done|]. unfold rescheduleAllReminders. cbn [reminderJobs].
  set (P := λ e : event, Is_true (String.leb today (e_date e)) ∧ is_Some (e_start_time e)).
  assert (Hin : ∀ e, e ∈ filter P (events (db st)) →
                     e ∈ events (db st) ∧ String.leb today (e_date e) = true
                     ∧ is_Some (e_start_time e)).
  { intros e He. apply list_elem_of_filter in He as [[H1 H2] H3].
    split; [done|]. split; [by apply Is_true_eq_true | done]. }
  revert Hin. generalize (filter P (events (db st))) as l.
  intros l. generalize (reminderJobs st) as jobs.
  induction l as [|e l IH] using rev_ind; intros jobs Hin k j; [by left|].
  rewrite foldl_app. cbn [foldl]. intros H.
  apply scheduleReminder_Some in H as [H | (Hk & Hev & Hch & Hat)].
  - apply IH in H; [done|]. intros e' He'. apply Hin, elem_of_app. by left.
  - right. exists e.
    destruct (Hin e) as (? & ? & ?); [apply elem_of_app; right; apply list_elem_of_here|].
    done.
Qed.
End Restart.

(** X22.  [/clear] deletes the stored events of its conversation and no
    others, and leaves the sessions alone, drafts and edit pointer included.
    Its loop over the registry cancels every job, also the reminders of the
    events of other conversations, which stay stored. *)
Theorem X22_clear_cancels_every_reminder (st : bot_state) (chatId : Z) :
  eventsOf (db (clearCommand st chatId)) chatId = []
  ∧ (∀ c, c ≠ chatId → eventsOf (db (clearCommand st chatId)) c = eventsOf (db st) c)
  ∧ events_seq (db (clearCommand st chatId)) = events_seq (db st)
  ∧ sessions (clearCommand st chatId) = sessions st
  ∧ reminderJobs (clearCommand st chatId) = ∅.
Proof.
  unfold clearCommand, eventsOf. cbn [db with_events events events_seq sessions reminderJobs].
  split; [|split; [|split; [done|split; [done|apply clear_all_jobs]]]].
  - rewrite list_filter_filter. induction (events (db st)) as [|e l IH]; [done|].
    rewrite filter_cons_False; [done|]. intros [? ?]. done.
  - intros c Hc. apply eventsOf_filter. intros e He. congruence.
Qed.

(** ** Deleting events: the Delete and Replace buttons *)

Lemma getEvent_filter (P : event → Prop) `{!∀ e, Decision (P e)} (d : database)
    chatId eventId :
  (∀ e, isRow chatId eventId e → P e) →
  getEvent (with_events d (filter P (events d))) chatId eventId
  = getEvent d chatId eventId.
Proof.
  intros HP. unfold getEvent, with_events. cbn [events].
  induction (events d) as [|e l IH]; [done|].
  rewrite filter_cons. destruct (decide (P e)) as [Hp|Hp].
  - cbn [list_find]. case_decide; [done|].
    destruct (list_find (isRow chatId eventId) (filter P l)) as [[i x]|],
             (list_find (isRow chatId eventId) l) as [[i' x']|];
      cbn in *; congruence.
  - cbn [list_find]. rewrite decide_False by (intros Hrow; by apply Hp, HP).
    rewrite IH. by destruct (list_find (isRow chatId eventId) l) as [[i x]|].
Qed.

Lemma deleteEvent_db st chatId eventId :
  db (deleteEvent st chatId eventId)
  = with_events (db st) (filter (λ e, ¬ isRow chatId eventId e) (events (db st))).
Proof. done. Qed.

(** X24.  [deleteEvent] removes the row with the given id in the given
    conversation and keeps every other row in place, so that a later look-up
    of another id or in another conversation gives what it gave before.
    The three reminder keys of the id are cancelled in any case, also when
    the id belongs to an event of another conversation, which stays
    stored. *)
Theorem X24_deleteEvent (st : bot_state) (chatId eventId : Z) :
  let st1 := deleteEvent st chatId eventId in
  events (db st1) = filter (λ e, ¬ isRow chatId eventId e) (events (db st))
  ∧ getEvent (db st1) chatId eventId = None
  ∧ (∀ c i, c ≠ chatId ∨ i ≠ eventId → getEvent (db st1) c i = getEvent (db st) c i)
  ∧ (∀ k, k ∈ reminderKeys eventId → reminderJobs st1 !! k = None)
  ∧ (∀ k, k ∉ reminderKeys eventId → reminderJobs st1 !! k = reminderJobs st !! k)
  ∧ sessions st1 = sessions st.
Proof.
  cbv zeta. split; [done|]. split; [|split; [|split; [|split; [|done]]]].
  - unfold getEvent. cbn [deleteEvent db deleteRow events].
    destruct (list_find _ _) as [[i x]|] eqn:E; [|done].
    apply list_find_Some in E as (Hi & Hrow & _).
    apply list_elem_of_lookup_2, list_elem_of_filter in Hi as [Hno _].
    exfalso. apply Hno. destruct Hrow. by split.
  - intros c i Hne. rewrite deleteEvent_db. apply (getEvent_filter _).
    intros e [Hi Hc] [Hi' Hc']. destruct Hne; congruence.
  - intros k Hk. cbn [deleteEvent reminderJobs].
    by rewrite cancelReminder_lookup, bool_decide_eq_true_2.
  - intros k Hk. cbn [deleteEvent reminderJobs].
    by rewrite cancelReminder_lookup, bool_decide_eq_false_2.
Qed.

Lemma filter_all {A} (P : A → Prop) `{!∀ x, Decision (P x)} (l : list A) :
  Forall P l → filter P l = l.
Proof.
  induction 1 as [|x l Hx _ IH]; [done|]. by rewrite filter_cons_True, IH.
Qed.

Lemma delete_all_events {A} (f : A → Z) chatId (l : list A) st :
  events (db (foldl (λ acc c, deleteEvent acc chatId (f c)) st l))
  = filter (λ e, ¬ (e_chat_id e = chatId ∧ e_id e ∈ f <$> l)) (events (db st)).
Proof.
  revert st. induction l as [|c l IH]; intros st.
  - cbn [foldl fmap list_fmap]. symmetry. apply filter_all.
    apply Forall_forall. intros e _ [_ Hin]. by apply elem_of_nil in Hin.
  - cbn [foldl]. rewrite IH. cbn [deleteEvent db deleteRow events].
    rewrite list_filter_filter. apply list_filter_iff. intros e.
    rewrite fmap_cons, elem_of_cons. tauto.
Qed.

Lemma delete_all_frame {A} (f : A → Z) chatId (l : list A) st :
  sessions (foldl (λ acc c, deleteEvent acc chatId (f c)) st l) = sessions st
  ∧ school_timetable (db (foldl (λ acc c, deleteEvent acc chatId (f c)) st l))
    = school_timetable (db st).
Proof.
  revert st. induction l as [|c l IH]; intros st; [done|]. cbn [foldl].
  destruct (IH (deleteEvent st chatId (f c))) as [-> ->]. done.
Qed.

Section ReplaceButton.
Variable getDay : string → option Z.
Variable dateTime : string → option Z.

(** X23.  What Replace removes.  The Replace button deletes, among the
    events of the conversation, every event whose id is the id of a
    conflict item, and then saves the draft under the next id.  A
    conflicting class is one of these items with the id of its timetable
    row: the class itself stays in the timetable, and an event of the
    conversation that happens to have the same id is deleted. *)
Theorem X23_replace_deletes_by_id (now : Z) (st : bot_state) (chatId : Z)
    (data : string) (s : session) (i : nat) (d : draftObj) :
  sessions st !! chatId = Some s →
  startsWith "conflict_replace:" data = true →
  findDraft (drafts s) (payloadId data) = Some (i, d) →
  insertable (d_draft d) →
  ∃ st1 e,
    draftButtons getDay dateTime now st chatId data
    = Some (st1, [Answer "Replaced and saved.";
                  ShowReplaced (length (draftConflicts getDay st chatId (d_draft d))) e;
                  MainMenu])
    ∧ events (db st1)
      = filter (λ x, ¬ (e_chat_id x = chatId
                        ∧ e_id x ∈ conflict_id
                                     <$> draftConflicts getDay st chatId (d_draft d)))
               (events (db st)) ++ [e]
    ∧ e_id e = (events_seq (db st) + 1)%Z
    ∧ school_timetable (db st1) = school_timetable (db st)
    ∧ sessions st1
      = <[chatId := set_drafts s (removeDraft (drafts s) (payloadId data))]> (sessions st).
Proof.
  intros Hs Hpre Hfound Hins.
  apply startsWith_spec in Hpre as [rest ->].
  unfold draftButtons.
  rewrite (proj1 (getSession_spec now _ chatId) s Hs), Hfound, bot_state_eta.
  pick_button.
  set (cs := draftConflicts getDay st chatId (d_draft d)).
  set (stm := foldl (λ acc c, deleteEvent acc chatId (conflict_id c)) st cs).
  destruct (proj1 (proj1 (addEventToDB_insertable dateTime now stm chatId (d_draft d))) Hins)
    as [[st' e] Hadd].
  unfold saveDraft. rewrite Hadd.
  apply addEventToDB_spec in Hadd as (Hs' & He & Hq & Ht & _ & Hid & _).
  exists (with_session st' chatId
            (set_drafts s (removeDraft (drafts s) (payloadId ("conflict_replace:" +:+ rest))))),
         e.
  split; [done|]. cbn [with_session db sessions].
  destruct (delete_all_frame conflict_id chatId cs st) as [Hsess Htt].
  split; [by rewrite He; unfold stm; rewrite delete_all_events|].
  split; [by rewrite Hid; unfold stm; rewrite events_seq_delete_all|].
  split; [rewrite Ht; unfold stm; by rewrite Htt|].
  rewrite Hs'. unfold stm. by rewrite Hsess.
Qed.
End ReplaceButton.

(** X23 at work: the Replace button on the draft of [collidingState]. *)
Lemma X23_replace_colliding_draft :
  ∃ st1 e,
    draftButtons (λ _, None) (λ _, None) 1700000001000 collidingState 1
                 "conflict_replace:1700000000999"
    = Some (st1, [Answer "Replaced and saved.";
                  ShowReplaced
                    (length (draftConflicts (λ _, None) collidingState 1
                               (d_draft collidingDraft))) e;
                  MainMenu])
    ∧ events (db st1)
      = filter (λ x, ¬ (e_chat_id x = 1%Z
                        ∧ e_id x ∈ conflict_id
                                     <$> draftConflicts (λ _, None) collidingState 1
                                           (d_draft collidingDraft)))
               (events (db collidingState)) ++ [e]
    ∧ e_id e = (events_seq (db collidingState) + 1)%Z
    ∧ school_timetable (db st1) = school_timetable (db collidingState)
    ∧ sessions st1
      = <[1%Z := set_drafts
                   {| drafts := [collidingDraft]; updatedAt := 1700000000999;
                      editingEventId := None; editingField := None;
                      addingClass := false |}
                   (removeDraft [collidingDraft]
                      (payloadId "conflict_replace:1700000000999"))]>
          (sessions collidingState).
Proof.
  apply (X23_replace_deletes_by_id (λ _, None) (λ _, None) 1700000001000
           collidingState 1 "conflict_replace:1700000000999"
           {| drafts := [collidingDraft]; updatedAt := 1700000000999;
              editingEventId := None; editingField := None; addingClass := false |}
           0 collidingDraft).
  - reflexivity.
  - reflexivity.
  - vm_compute. reflexivity.
  - split; vm_compute; by eexists.
Defined.

(** ** When the extraction service is asked *)

Section ServiceCalls.
Variable dateTime : string → option Z.

(** X25.  The extraction service for schedule messages is not consulted for
    an empty text or for a command, nor, in a conversation that is not in
    class intake, for the new value of a field other than the date and the
    time of an event under edit, or, outside an edit, for a text that holds
    none of the schedule keywords: in these cases the message handler
    returns, and does the same whatever that service would answer.  In
    class intake every text that is no command goes to the class
    extraction, which this statement leaves out. *)
Theorem X25_service_not_consulted (parse1 parse2 : string → parse_result) (now : Z)
    (st : bot_state) (chatId : Z) (text : string) :
  text = ""
  ∨ startsWith "/" text = true
  ∨ (addingClass (getSession now (sessions st) chatId).2 = false
     ∧ ((∃ eventId field, isEditing (getSession now (sessions st) chatId).2
                          = Some (eventId, field)
                          ∧ field ≠ "date" ∧ field ≠ "time")
        ∨ (isEditing (getSession now (sessions st) chatId).2 = None
           ∧ looksLikeSchedule text = false))) →
  ∃ result, onMessage dateTime parse1 now st chatId text = Some result
            ∧ onMessage dateTime parse2 now st chatId text = Some result.
Proof.
  intros Hcase. unfold onMessage.
  case_bool_decide as Hempty; [by eexists|].
  destruct (getSession now (sessions st) chatId) as [sessions1 s0]. cbn [snd] in Hcase.
  destruct (startsWith "/" text) eqn:Hcmd.
  { destruct (bool_decide (text = "/cancel") && addingClass (set_updatedAt s0 now));
      by eexists. }
  change (addingClass (set_updatedAt s0 now)) with (addingClass s0).
  change (isEditing (set_updatedAt s0 now)) with (isEditing s0).
  destruct Hcase as [? | [? | [Hclass Hcase]]]; [done | done |]. rewrite Hclass.
  destruct Hcase as [(eventId & field & -> & Hd & Ht) | [-> Hno]].
  - unfold editIntercept.
    rewrite (bool_decide_eq_false_2 (field = "date")),
            (bool_decide_eq_false_2 (field = "time")) by done.
    by eexists.
  - rewrite Hno. by eexists.
Qed.
End ServiceCalls.

(** X25 at work: [sampleState] is in a title edit. *)
Lemma X25_title_edit_asks_nothing :
  ∃ result,
    onMessage (λ _, None) (λ _, ParseError "quota") 1700000001000 sampleState 1
              "Yoga at 5pm" = Some result
    ∧ onMessage (λ _, None) (λ _, ParseEvents []) 1700000001000 sampleState 1
                "Yoga at 5pm" = Some result.
Proof.
  apply (X25_service_not_consulted (λ _, None) (λ _, ParseError "quota")
           (λ _, ParseEvents []) 1700000001000 sampleState 1 "Yoga at 5pm").
  right. right. split; [reflexivity|].
  left. exists 5%Z, "title". split; [reflexivity|]. split; discriminate.
Defined.

(** ** Buttons that restart the clock of a draft *)

Section TouchButtons.
Variable getDay : string → option Z.
Variable dateTime : string → option Z.

(** X26.  Edit and Cancel restart the clock of the draft they name.  Edit
    puts the draft back to collecting, so from the press on it lives 90
    seconds, also when it was awaiting confirmation with 5 minutes to live;
    the Cancel button of the conflict prompt sets it to awaiting
    confirmation with 5 minutes from the press.  The fields of the draft
    are not changed by either button. *)
Theorem X26_touch_buttons_restart_the_clock (now t : Z) (st : bot_state) (chatId : Z)
    (data action : string) (state : draft_state) (life : Z) (s : session) (i : nat)
    (d : draftObj) :
  (action, state, life) ∈ [ ("edit:", collecting, 90 * 1000);
                            ("conflict_cancel:", awaiting_confirm, 5 * 60 * 1000) ]%Z →
  startsWith action data = true →
  sessions st !! chatId = Some s →
  findDraft (drafts s) (payloadId data) = Some (i, d) →
  ∃ st1 r s1 d',
    draftButtons getDay dateTime now st chatId data = Some (st1, r)
    ∧ db st1 = db st ∧ reminderJobs st1 = reminderJobs st
    ∧ sessions st1 !! chatId = Some s1
    ∧ drafts s1 = <[i := d']> (drafts s)
    ∧ d_id d' = d_id d ∧ d_draft d' = d_draft d
    ∧ d_state d' = state ∧ d_updatedAt d' = now
    ∧ (survives (pruneExpiredDrafts t (sessions st1)) chatId d' ↔ (t - now <= life)%Z).
Proof.
  intros Hcase Hpre Hs Hfound.
  destruct (findDraft_Some _ _ _ _ Hfound) as [Hi _].
  apply startsWith_spec in Hpre as [rest ->].
  rewrite !elem_of_cons, elem_of_nil in Hcase.
  unfold draftButtons.
  rewrite (proj1 (getSession_spec now _ chatId) s Hs), Hfound, bot_state_eta.
  destruct Hcase as [[= -> -> ->] | [[= -> -> ->] | []]]; pick_button;
    (eexists _, _, _, _; split; [reflexivity|]; split; [done|]; split; [done|];
     split; [apply lookup_insert_eq|]; split; [done|]; do 4 (split; [done|]);
     rewrite survives_prune;
     [ unfold fresh_at, touch, ttl, DRAFT_TTL_MS, CONFIRM_TTL_MS; cbn; lia
     | apply lookup_insert_eq
     | cbn [drafts set_drafts]; eapply list_elem_of_lookup_2, list_lookup_insert_eq;
       by eapply lookup_lt_Some ]).
Qed.
End TouchButtons.

(** X26 at work: Edit on the draft of [sampleState], which was awaiting
    confirmation; a prune pass 91 seconds later. *)
Lemma X26_edit_sample_draft :
  ∃ st1 r s1 d',
    draftButtons (λ _, None) (λ _, None) 1700000001000 sampleState 1
                 "edit:1700000000000" = Some (st1, r)
    ∧ db st1 = db sampleState ∧ reminderJobs st1 = reminderJobs sampleState
    ∧ sessions st1 !! 1%Z = Some s1
    ∧ drafts s1 = <[0%nat := d']> (drafts sampleSession)
    ∧ d_id d' = d_id sampleDraft ∧ d_draft d' = d_draft sampleDraft
    ∧ d_state d' = collecting ∧ d_updatedAt d' = 1700000001000%Z
    ∧ (survives (pruneExpiredDrafts 1700000092000 (sessions st1)) 1 d'
       ↔ (1700000092000 - 1700000001000 <= 90 * 1000)%Z).
Proof.
  apply (X26_touch_buttons_restart_the_clock (λ _, None) (λ _, None) 1700000001000
           1700000092000 sampleState 1 "edit:1700000000000" "edit:" collecting
           (90 * 1000) sampleSession 0 sampleDraft).
  - apply list_elem_of_here.
  - reflexivity.
  - reflexivity.
  - vm_compute. reflexivity.
Defined.
